(** * Field validators of mvp-coperniq: a shallow embedding

    The development follows
    [support/utils/common/validation/helpers/date.validation.ts]
    (class [DateValidator]) and the string validators (class
    [StringValidator]: [matchesPattern], [isSSN], [hasLength], [min],
    [max], [isPhone], [formatSSN], [formatPhone], [format] and the two
    combined calls [evaluateAndFormatSSN] and [evaluateAndFormatPhone]).

    Layout: the JavaScript values and string primitives the validators use,
    the ECMAScript date arithmetic behind [Date], the record with its
    accessor methods and the monad that threads it, then the validators
    themselves, and finally the theorems.

    Conventions of the embedding:
    - a validator is a computation over a state that holds the record, the
      clock readings made so far and the writes made so far; it returns a
      value or throws;
    - chrono-node and the wall clock are parameters ([Runtime]); the parser
      is a function of the text it is given; so is google-libphonenumber
      ([PhoneUtil]);
    - strings are sequences of 8-bit characters, with the case mapping and
      the white space of ASCII; numbers are the integers;
    - the local time zone is UTC: the day and the calendar fields of a
      date are its local ones, and where the zone would matter the
      statements are made on calendar fields, not on milliseconds;
    - [record.set], [record.addError] and [record.addInfo] are available
      on every record; only the primary read [record.get] may fail.  A
      record without these accessors (a plain object, which takes the
      secondary read) is not represented: a statement in which a write is
      reached is made for the primary read, those on the writes attempted
      in reduced capability mode apart. *)

From Stdlib Require Import ZArith String Ascii List Bool Lia.
From stdpp Require Import base strings gmap pretty.

Set Warnings "-register-all".
Open Scope string_scope.
Open Scope Z_scope.

(* ================================================================== *)
(** ** JavaScript values and string primitives *)
(* ================================================================== *)

Module JS.

(** Values a record cell, a bound or [validationArgs] can hold.  Numbers
    are the integers (printed in decimal, as JavaScript prints them). *)
Inductive JSValue : Type :=
  | VUndefined
  | VNull
  | VBool (b : bool)
  | VNum (z : Z)
  | VStr (s : string)
  | VArr (l : list JSValue).

(** Errors raised by the runtime. *)
Inductive JSError : Type :=
  | TypeError
  | RangeError.

(** [if (v)]: undefined, null, false, 0 and the empty string are falsy. *)
Definition truthy (v : JSValue) : bool :=
  match v with
  | VUndefined | VNull => false
  | VBool b => b
  | VNum z => negb (z =? 0)
  | VStr s => negb (String.eqb s "")
  | VArr _ => true
  end.

(** [Array.prototype.join]. *)
Fixpoint join (sep : string) (l : list string) : string :=
  match l with
  | [] => ""
  | [x] => x
  | x :: rest => x +:+ sep +:+ join sep rest
  end.

(** [String(v)], which is [v.toString()] on every value that has the
    method; an array prints its elements joined by commas, holes for
    undefined and null. *)
Fixpoint toString (v : JSValue) : string :=
  match v with
  | VUndefined => "undefined"
  | VNull => "null"
  | VBool b => if b then "true" else "false"
  | VNum z => pretty z
  | VStr s => s
  | VArr l =>
      join ","
        (map (fun x => match x with
                       | VUndefined | VNull => ""
                       | _ => toString x
                       end) l)
  end.

Definition is_upper (c : ascii) : bool :=
  (65 <=? nat_of_ascii c)%nat && (nat_of_ascii c <=? 90)%nat.

Definition lower_char (c : ascii) : ascii :=
  if is_upper c then ascii_of_nat (nat_of_ascii c + 32) else c.

(** [String.prototype.toLowerCase] on the letters A-Z. *)
Fixpoint toLowerCase (s : string) : string :=
  match s with
  | EmptyString => EmptyString
  | String c rest => String (lower_char c) (toLowerCase rest)
  end.

(** [v.toLowerCase()]: only a string has the method. *)
Definition call_toLowerCase (v : JSValue) : JSError + string :=
  match v with
  | VStr s => inr (toLowerCase s)
  | _ => inl TypeError
  end.

Fixpoint startsWith (p s : string) : bool :=
  match p, s with
  | EmptyString, _ => true
  | String a p', String b s' => Ascii.eqb a b && startsWith p' s'
  | String _ _, EmptyString => false
  end.

(** What follows the prefix [p] in [s], when [s] starts with it. *)
Fixpoint after_prefix (p s : string) : option string :=
  match p, s with
  | EmptyString, _ => Some s
  | String a p', String b s' => if Ascii.eqb a b then after_prefix p' s' else None
  | String _ _, EmptyString => None
  end.

(** [s.includes(sub)]. *)
Fixpoint includes (sub s : string) : bool :=
  startsWith sub s ||
  match s with
  | EmptyString => false
  | String _ rest => includes sub rest
  end.

(** [s.padStart(n, "0")]. *)
Definition padStart0 (n : nat) (s : string) : string :=
  String.concat "" (repeat "0" (n - String.length s)) +:+ s.

(** [s.slice(-2)]: the last two characters, or all of a shorter string. *)
Definition sliceLast2 (s : string) : string :=
  let n := String.length s in
  substring (n - 2) 2 s.

(** [s.split(/[...]/)] on a one-character separator class. *)
Fixpoint split_on (sep : ascii -> bool) (s : string) : list string :=
  match s with
  | EmptyString => [EmptyString]
  | String c rest =>
      if sep c then EmptyString :: split_on sep rest
      else match split_on sep rest with
           | [] => [String c EmptyString]
           | w :: ws => String c w :: ws
           end
  end.

Definition is_digit (c : ascii) : bool :=
  (48 <=? nat_of_ascii c)%nat && (nat_of_ascii c <=? 57)%nat.

(** [\s] on the ASCII range. *)
Definition is_whitespace (c : ascii) : bool :=
  let n := nat_of_ascii c in
  (n =? 32)%nat || ((9 <=? n)%nat && (n <=? 13)%nat).

Fixpoint all_digits (s : string) : bool :=
  match s with
  | EmptyString => true
  | String c rest => is_digit c && all_digits rest
  end.

(** The longest prefix of digits, and what follows it. *)
Fixpoint span_digits (s : string) : string * string :=
  match s with
  | EmptyString => (EmptyString, EmptyString)
  | String c rest =>
      if is_digit c
      then let '(d, r) := span_digits rest in (String c d, r)
      else (EmptyString, s)
  end.

Fixpoint parse_digits (acc : Z) (s : string) : Z :=
  match s with
  | EmptyString => acc
  | String c rest => parse_digits (10 * acc + (Z.of_nat (nat_of_ascii c) - 48)) rest
  end.

(** [parseInt] on a string of decimal digits. *)
Definition parseInt (s : string) : Z := parse_digits 0 s.

(** A number that may be NaN, as [getTime] and the calendar getters
    return on an invalid date. *)
Definition Num : Type := option Z.

Definition num_toString (n : Num) : string :=
  match n with
  | Some z => pretty z
  | None => "NaN"
  end.

(** [a < b] on numbers: false as soon as one side is NaN. *)
Definition num_lt (a b : Num) : bool :=
  match a, b with
  | Some x, Some y => x <? y
  | _, _ => false
  end.

Definition num_add (a : Num) (k : Z) : Num :=
  match a with
  | Some x => Some (x + k)
  | None => None
  end.

(** [validationArgs[0]]: reading a property of undefined or null throws;
    a string yields its first character, an array its first element. *)
Definition index0 (v : JSValue) : JSError + JSValue :=
  match v with
  | VUndefined | VNull => inl TypeError
  | VStr (String c _) => inr (VStr (String c EmptyString))
  | VArr (x :: _) => inr x
  | _ => inr VUndefined
  end.

(** A string, or an empty (falsy) value: what the validators expect a
    cell or a bound to hold. *)
Definition tame (v : JSValue) : bool :=
  match v with
  | VStr _ => true
  | _ => negb (truthy v)
  end.

End JS.
Export JS.

(* ================================================================== *)
(** ** ECMAScript dates *)
(* ================================================================== *)

(** A [Date] object holds a time value: milliseconds since the epoch, or
    NaN (an invalid date).  The calendar getters and setters below follow
    the abstract operations of the language definition (Day, TimeWithinDay,
    MakeDay, MakeDate, TimeClip), with local time taken to be UTC. *)
Module ECMADate.

Inductive Date : Type :=
  | Instant (t : Z)
  | InvalidDate.

Definition msPerDay : Z := 86400000.
Definition maxTime : Z := 8640000000000000.

Definition TimeClip (t : Z) : Date :=
  if Z.abs t <=? maxTime then Instant t else InvalidDate.

Definition Day (t : Z) : Z := t / msPerDay.
Definition TimeWithinDay (t : Z) : Z := t mod msPerDay.

(** Day number (days since the epoch) of a proleptic Gregorian date;
    [m] ranges over 1..12. *)
Definition days_from_civil (y m d : Z) : Z :=
  let y' := if m <=? 2 then y - 1 else y in
  let era := y' / 400 in
  let yoe := y' - era * 400 in
  let mp := if 2 <? m then m - 3 else m + 9 in
  let doy := (153 * mp + 2) / 5 + d - 1 in
  let doe := yoe * 365 + yoe / 4 - yoe / 100 + doy in
  era * 146097 + doe - 719468.

(** The inverse: year, month (1..12) and day of the month of a day number. *)
Definition civil_from_days (z : Z) : Z * Z * Z :=
  let z' := z + 719468 in
  let era := z' / 146097 in
  let doe := z' - era * 146097 in
  let yoe := (doe - doe / 1460 + doe / 36524 - doe / 146096) / 365 in
  let doy := doe - (365 * yoe + yoe / 4 - yoe / 100) in
  let mp := (5 * doy + 2) / 153 in
  let d := doy - (153 * mp + 2) / 5 + 1 in
  let m := if mp <? 10 then mp + 3 else mp - 9 in
  let y := yoe + era * 400 in
  (if m <=? 2 then y + 1 else y, m, d).

Definition YearFromTime (t : Z) : Z := fst (fst (civil_from_days (Day t))).
(** Months count from 0, as [getMonth] does. *)
Definition MonthFromTime (t : Z) : Z := snd (fst (civil_from_days (Day t))) - 1.
Definition DateFromTime (t : Z) : Z := snd (civil_from_days (Day t)).

Definition MakeDay (year month date : Z) : Z :=
  days_from_civil (year + month / 12) (month mod 12 + 1) 1 + date - 1.

Definition MakeDate (day time : Z) : Z := day * msPerDay + time.

Definition getTime (d : Date) : Num :=
  match d with Instant t => Some t | InvalidDate => None end.

Definition getFullYear (d : Date) : Num :=
  match d with Instant t => Some (YearFromTime t) | InvalidDate => None end.

Definition getMonth (d : Date) : Num :=
  match d with Instant t => Some (MonthFromTime t) | InvalidDate => None end.

Definition getDate (d : Date) : Num :=
  match d with Instant t => Some (DateFromTime t) | InvalidDate => None end.

(** [d.setDate(dt)], [d.setMonth(m)], [d.setFullYear(y)] on a date whose
    time value is [t]; the result is the date's new state. *)
Definition setDate (t : Z) (dt : Z) : Date :=
  TimeClip (MakeDate (MakeDay (YearFromTime t) (MonthFromTime t) dt) (TimeWithinDay t)).

Definition setMonth (t : Z) (m : Z) : Date :=
  TimeClip (MakeDate (MakeDay (YearFromTime t) m (DateFromTime t)) (TimeWithinDay t)).

Definition setFullYear (t : Z) (y : Z) : Date :=
  TimeClip (MakeDate (MakeDay y (MonthFromTime t) (DateFromTime t)) (TimeWithinDay t)).

Definition pad (n : nat) (z : Z) : string := padStart0 n (pretty z).

(** The year of the ISO form: four digits, or a sign and six digits
    outside 0..9999. *)
Definition iso_year (y : Z) : string :=
  if (0 <=? y) && (y <=? 9999) then pad 4 y
  else (if y <? 0 then "-" else "+") +:+ pad 6 (Z.abs y).

(** [d.toISOString()]; a RangeError on an invalid date. *)
Definition toISOString (d : Date) : JSError + string :=
  match d with
  | InvalidDate => inl RangeError
  | Instant t =>
      let w := TimeWithinDay t in
      inr (iso_year (YearFromTime t) +:+ "-" +:+ pad 2 (MonthFromTime t + 1)
           +:+ "-" +:+ pad 2 (DateFromTime t)
           +:+ "T" +:+ pad 2 (w / 3600000)
           +:+ ":" +:+ pad 2 (w / 60000 mod 60)
           +:+ ":" +:+ pad 2 (w / 1000 mod 60)
           +:+ "." +:+ pad 3 (w mod 1000) +:+ "Z")
  end.

(** [d.toLocaleDateString('en-US', {year: 'numeric', month: '2-digit',
    day: '2-digit'})]. *)
Definition toLocaleDateString (d : Date) : string :=
  match d with
  | InvalidDate => "Invalid Date"
  | Instant t =>
      pad 2 (MonthFromTime t + 1) +:+ "/" +:+ pad 2 (DateFromTime t)
      +:+ "/" +:+ pretty (YearFromTime t)
  end.

Definition month_names : list string :=
  ["January"; "February"; "March"; "April"; "May"; "June"; "July";
   "August"; "September"; "October"; "November"; "December"].

(** [d.toLocaleString('en-US', {month: 'long'})]. *)
Definition toLocaleMonthLong (d : Date) : string :=
  match d with
  | InvalidDate => "Invalid Date"
  | Instant t => nth (Z.to_nat (MonthFromTime t)) month_names ""
  end.

(** [d.toLocaleString('en-US', {month: 'short'})]. *)
Definition toLocaleMonthShort (d : Date) : string :=
  match d with
  | InvalidDate => "Invalid Date"
  | Instant t => substring 0 3 (nth (Z.to_nat (MonthFromTime t)) month_names "")
  end.

End ECMADate.
Export ECMADate.


(* ================================================================== *)
(** ** The record and the effects of a validator call *)
(* ================================================================== *)

(** A write made through the record's accessor methods. *)
Inductive Call : Type :=
  | CallSet (field value : string)
  | CallAddError (field message : string)
  | CallAddInfo (field message : string).

(** The record a validator borrows.  [primary] tells whether
    [record.get(field)] returns (when false it throws, and the validators
    fall back to [record.values[field].value]); [values] holds the cell of
    each field, [errors] and [infos] the annotations.  [set], [addError]
    and [addInfo] are available on every record. *)
Record FlatRecord : Type := mkRecord {
  primary : bool;
  values : gmap string JSValue;
  errors : list (string * string);
  infos : list (string * string)
}.

(** The state threaded through a call: the record, the number of clock
    readings made so far, and the writes made so far, oldest first. *)
Record State : Type := mkState {
  rec : FlatRecord;
  tick : nat;
  calls : list Call
}.

(** A computation returns a value or throws; both leave a state behind. *)
Inductive Outcome (A : Type) : Type :=
  | Ret (a : A) (s : State)
  | Throw (e : JSError) (s : State).
Arguments Ret {A} a s.
Arguments Throw {A} e s.

Definition M (A : Type) : Type := State -> Outcome A.

Definition ret {A} (a : A) : M A := fun s => Ret a s.

Definition throw {A} (e : JSError) : M A := fun s => Throw e s.

Definition bind {A B} (c : M A) (k : A -> M B) : M B :=
  fun s => match c s with
           | Ret a s' => k a s'
           | Throw e s' => Throw e s'
           end.

(** [try { c } catch (error) { h }]. *)
Definition try_catch {A} (c : M A) (h : JSError -> M A) : M A :=
  fun s => match c s with
           | Ret a s' => Ret a s'
           | Throw e s' => h e s'
           end.

Definition lift {A} (r : JSError + A) : M A :=
  match r with
  | inl e => throw e
  | inr a => ret a
  end.

(** [if (b) { c }]. *)
Definition when (b : bool) (c : M unit) : M unit :=
  if b then c else ret tt.

Notation "x <- c ;; k" := (bind c (fun x => k))
  (at level 62, c at next level, right associativity).
Notation "c ;;; k" := (bind c (fun _ => k))
  (at level 62, right associativity).

(** What a run hands back to its caller. *)
Definition result {A} (o : Outcome A) : JSError + A :=
  match o with
  | Ret a _ => inr a
  | Throw e _ => inl e
  end.

(** The state a run leaves behind. *)
Definition final {A} (o : Outcome A) : State :=
  match o with
  | Ret _ s => s
  | Throw _ s => s
  end.

(** A run that returns. *)
Definition returns {A} (o : Outcome A) : Prop :=
  exists a s, o = Ret a s.

(** The state with its clock readings counted as [k]. *)
Definition set_tick (k : nat) (s : State) : State :=
  {| rec := rec s; tick := k; calls := calls s |}.

(** [record.get(field)]: the cell's value, null for a field the record
    does not hold. *)
Definition record_get (field : string) : M JSValue :=
  fun s => if primary (rec s)
           then Ret (default VNull (values (rec s) !! field)) s
           else Throw TypeError s.

(** [record.values[field].value]: throws when the record holds no cell
    for the field. *)
Definition record_values_value (field : string) : M JSValue :=
  fun s => match values (rec s) !! field with
           | Some v => Ret v s
           | None => Throw TypeError s
           end.

Definition update_record (f : FlatRecord -> FlatRecord) (c : Call) : M unit :=
  fun s => Ret tt {| rec := f (rec s); tick := tick s; calls := calls s ++ [c] |}.

(** [record.set(field, value)]. *)
Definition record_set (field value : string) : M unit :=
  update_record
    (fun r => {| primary := primary r;
                 values := <[field := VStr value]> (values r);
                 errors := errors r;
                 infos := infos r |})
    (CallSet field value).

(** [record.addError(field, message)]. *)
Definition record_addError (field message : string) : M unit :=
  update_record
    (fun r => {| primary := primary r;
                 values := values r;
                 errors := errors r ++ [(field, message)];
                 infos := infos r |})
    (CallAddError field message).

(** [record.addInfo(field, message)]. *)
Definition record_addInfo (field message : string) : M unit :=
  update_record
    (fun r => {| primary := primary r;
                 values := values r;
                 errors := errors r;
                 infos := infos r ++ [(field, message)] |})
    (CallAddInfo field message).

(** A computation that leaves the record and the list of writes as they
    were, whether it returns or throws. *)
Definition quiet {A} (c : M A) : Prop :=
  forall s, rec (final (c s)) = rec s /\ calls (final (c s)) = calls s.

(** A computation that keeps the relation [R] between the state it starts
    from and the state it leaves, whether it returns or throws. *)
Definition keeps {A} (R : State -> State -> Prop) (c : M A) : Prop :=
  forall s, R s (final (c s)).

(** A change of state confined to one field: the read capability stays,
    the cell of every other field is as before, and the annotations are
    the earlier ones followed by annotations on the field. *)
Definition confined (field : string) (s s' : State) : Prop :=
  primary (rec s') = primary (rec s)
  /\ (forall other, other <> field ->
        values (rec s') !! other = values (rec s) !! other)
  /\ (exists added, errors (rec s') = (errors (rec s) ++ added)%list
                    /\ Forall (fun a => fst a = field) added)
  /\ (exists added, infos (rec s') = (infos (rec s) ++ added)%list
                    /\ Forall (fun a => fst a = field) added).

(** What a validator may change of a record, seen from one field: the
    read capability stays, and the cell of the field is as before or holds
    a text. *)
Definition frame (field : string) (s s' : State) : Prop :=
  primary (rec s') = primary (rec s)
  /\ (values (rec s') !! field = values (rec s) !! field
      \/ exists x, values (rec s') !! field = Some (VStr x)).

(** An optional boolean flag of an options object, read as a condition. *)
Definition flag (o : option bool) : bool :=
  match o with Some b => b | None => false end.

(** [a || b] on an optional string: [a] when present and not empty. *)
Definition str_or (a : option string) (b : string) : string :=
  match a with
  | Some s => if String.eqb s "" then b else s
  | None => b
  end.

(** An optional string read as a condition. *)
Definition given (a : option string) : bool :=
  match a with
  | Some s => negb (String.eqb s "")
  | None => false
  end.

(* ================================================================== *)
(** ** DateValidator *)
(* ================================================================== *)

Module DateValidator.

(** [DateValidationType]. *)
Inductive DateValidationType : Type :=
  | VALIDATE
  | BEFORE
  | AFTER
  | BETWEEN.

(** The options object; an absent object reads as one with no field set. *)
Record Options : Type := mkOptions {
  addError : option bool;
  validateOnEmpty : option bool;
  setRecord : option bool;
  addInfo : option bool;
  infoMsg : option string;
  errorMsg : option string;
  formatOnError : option bool;
  formatOnEmpty : option bool
}.

Definition no_options : Options :=
  mkOptions None None None None None None None None.

(** A resolved operand that is not an invalid date (one that a relative
    offset carried out of the range of time values). *)
Definition in_range (d : option Date) : Prop := d <> Some InvalidDate.

(** What [chrono.parseDate] does on its argument: a date, null, or an
    exception. *)
Inductive ChronoResult : Type :=
  | ChronoDate (d : Date)
  | ChronoNull
  | ChronoThrows.

(** The two services of the environment: the natural-date parser of
    chrono-node, taken as a function of its argument, and the wall clock,
    whose [n]-th reading during a run is [clock n]. *)
Record Runtime : Type := mkRuntime {
  chrono_parseDate : JSValue -> ChronoResult;
  clock : nat -> Z
}.

Inductive Unit : Type := UDay | UMonth | UYear.

(** [(days?|months?|years?)$], with the trailing s dropped as
    [unit.replace(/s$/, '')] does. *)
Definition match_unit (u : string) : option Unit :=
  if String.eqb u "day" || String.eqb u "days" then Some UDay
  else if String.eqb u "month" || String.eqb u "months" then Some UMonth
  else if String.eqb u "year" || String.eqb u "years" then Some UYear
  else None.

(** [lower.match(/^now([+-])(\d+)(days?|months?|years?)$/)]: whether the
    offset is added, the digits, and the unit. *)
Definition relative_match (lower : string) : option (bool * string * Unit) :=
  match after_prefix "now" lower with
  | Some (String sign rest) =>
      if Ascii.eqb sign "+" || Ascii.eqb sign "-" then
        let '(amount, unit) := span_digits rest in
        if String.eqb amount "" then None
        else match match_unit unit with
             | Some u => Some (Ascii.eqb sign "+", amount, u)
             | None => None
             end
      else None
  | _ => None
  end.

(** The relative-date grammar, as the data model words it: [now], a
    sign, an integer and a unit among day(s), month(s), year(s), letter
    case ignored; to be compared with [relative_match]. *)
Inductive RelativeExpression (text : string) : Prop :=
  | relative_expression (sign : ascii) (amount unit : string) :
      toLowerCase text = "now" +:+ String sign (amount +:+ unit) ->
      sign = "+"%char \/ sign = "-"%char ->
      amount <> "" ->
      all_digits amount = true ->
      In unit ["day"; "days"; "month"; "months"; "year"; "years"] ->
      RelativeExpression text.

(** The [switch] of [parseDateArgument] on the lower-cased argument, with
    [now] the clock reading. *)
Definition relative_date (now : Z) (lower : string) : option Date :=
  if String.eqb lower "now" then Some (Instant now)
  else match relative_match lower with
       | Some (plus, amount, unit) =>
           let value := parseInt amount in
           let offset := if plus then value else - value in
           match unit with
           | UDay => Some (setDate now (DateFromTime now + offset))
           | UMonth => Some (setMonth now (MonthFromTime now + offset))
           | UYear => Some (setFullYear now (YearFromTime now + offset))
           end
       | None => None
       end.

(** The component pushed for one fragment of the format. *)
Definition component (year month day part : string) : list string :=
  if includes "y" part then [year]
  else if includes "m" part then [month]
  else if includes "d" part then [day]
  else [].

Definition is_separator (c : ascii) : bool :=
  Ascii.eqb c "-" || Ascii.eqb c "/" || Ascii.eqb c "." || is_whitespace c.

(** The loop over [format.split(/[-\/.\s]/)] that fills [components]. *)
Definition components_of (year month day format : string) : list string :=
  let formatParts := split_on is_separator format in
  flat_map (component year month day) formatParts.

(** [formatDate(date, dateFormat)].  No step of the [try] block throws on
    a date and a string, so the [catch] branch is never taken. *)
Definition formatDate (date : Date) (dateFormat : string) : string :=
  if String.eqb dateFormat "" then toLocaleDateString date
  else
    let format := toLowerCase dateFormat in
    let delimiter :=
      if negb (includes "mmmm" format) && negb (includes "mmm" format) then
        if includes "/" format then "/"
        else if includes "-" format then "-"
        else if includes "." format then "."
        else " "
      else " " in
    let month :=
      if includes "mmmm" format then toLocaleMonthLong date
      else if includes "mmm" format then toLocaleMonthShort date
      else if includes "mm" format
           then padStart0 2 (num_toString (num_add (getMonth date) 1))
      else num_toString (num_add (getMonth date) 1) in
    let year :=
      if includes "yyyy" format then num_toString (getFullYear date)
      else if includes "yy" format
           then sliceLast2 (num_toString (getFullYear date))
      else num_toString (getFullYear date) in
    let day :=
      if includes "dd" format then padStart0 2 (num_toString (getDate date))
      else num_toString (getDate date) in
    let components := components_of year month day format in
    if negb (length components =? 3)%nat then
      year +:+ "-" +:+ padStart0 2 (num_toString (num_add (getMonth date) 1))
           +:+ "-" +:+ padStart0 2 day
    else join delimiter components.

(** The preamble every entry point starts with: the value of the field
    and [isRecordWithoutLinks]. *)
Definition read_field (field : string) : M (JSValue * bool) :=
  try_catch (value <- record_get field ;; ret (value, false))
            (fun _ => value <- record_values_value field ;; ret (value, true)).

Section WithRuntime.

Variable rt : Runtime.

(** [new Date()]: one more reading of the clock. *)
Definition new_Date : M Z :=
  fun s => Ret (clock rt (tick s))
               {| rec := rec s; tick := S (tick s); calls := calls s |}.

(** [isDate(value)]; an exception of [value.toLowerCase()] or of the
    parser is caught and answered with false. *)
Definition isDate (value : JSValue) : bool :=
  match call_toLowerCase value with
  | inl _ => false
  | inr lower =>
      match relative_match lower with
      | Some _ => false
      | None =>
          match chrono_parseDate rt value with
          | ChronoDate _ => true
          | ChronoNull => false
          | ChronoThrows => false
          end
      end
  end.

(** [parseDate(value)]. *)
Definition parseDate (value : JSValue) : option Date :=
  match chrono_parseDate rt value with
  | ChronoDate d => Some d
  | ChronoNull => None
  | ChronoThrows => None
  end.

(** [parseDateArgument(arg)]; [None] is the source's [false]. *)
Definition parseDateArgument (arg : JSValue) : M (option Date) :=
  if negb (truthy arg) then ret None
  else
    now <- new_Date ;;
    lower <- lift (call_toLowerCase arg) ;;
    ret (relative_date now lower).

(** [value.toString()], as a value. *)
Definition text_of (value : JSValue) : JSValue := VStr (toString value).

(** The default format of [validate] and [format]:
    [dateFormat || 'yyyy-MM-dd']. *)
Definition format_or_default (dateFormat : option string) : string :=
  str_or dateFormat "yyyy-MM-dd".

(** [validate(record, field, dateFormat, options)]; the record is the one
    of the state. *)
Definition validate (field : string) (dateFormat : option string)
    (options : Options) : M bool :=
  r <- read_field field ;;
  let '(value, isRecordWithoutLinks) := r in
  vf <- (if truthy value then
           isParseArgument <- parseDateArgument value ;;
           match isParseArgument with
           | Some d => ret (true, formatDate d (format_or_default dateFormat))
           | None =>
               let valid := isDate (text_of value) in
               if valid then
                 match parseDate (text_of value) with
                 | Some parsedDate =>
                     ret (valid, formatDate parsedDate (format_or_default dateFormat))
                 | None => ret (valid, "")
                 end
               else ret (valid, "")
           end
         else ret (false, "")) ;;
  let '(valid, formatted) := vf in
  when (negb (String.eqb formatted "")) (record_set field formatted) ;;;
  when ((truthy value || flag (validateOnEmpty options))
        && (negb valid && flag (addError options) && negb isRecordWithoutLinks))
    (record_addError field
       (str_or (errorMsg options)
          (match dateFormat with
           | Some df => if String.eqb df "" then "Please enter a valid date"
                        else "Please enter a valid date in the format " +:+ df
           | None => "Please enter a valid date"
           end))) ;;;
  ret valid.

(** [format(record, field, dateFormat, options)]. *)
Definition format (field : string) (dateFormat : option string)
    (options : Options) : M string :=
  r <- read_field field ;;
  let '(value, isRecordWithoutLinks) := r in
  formatted <- (if truthy value then
                  isParseArgument <- parseDateArgument value ;;
                  match isParseArgument with
                  | Some d => ret (formatDate d (format_or_default dateFormat))
                  | None =>
                      match parseDate (text_of value) with
                      | Some parsedDate =>
                          ret (formatDate parsedDate (format_or_default dateFormat))
                      | None => ret ""
                      end
                  end
                else ret "") ;;
  when ((truthy value || flag (formatOnEmpty options))
        && negb (String.eqb formatted "")
        && (flag (addInfo options) && flag (setRecord options)
            && negb isRecordWithoutLinks))
    (record_addInfo field
       (str_or (infoMsg options)
          ("Value has been formatted from " +:+ toString value))) ;;;
  when (flag (setRecord options) && negb (String.eqb formatted "")
        && negb isRecordWithoutLinks)
    (record_set field formatted) ;;;
  ret formatted.

(** The bound of an error message: rendered with the format when one is
    given, else in ISO form; the argument itself when it did not resolve. *)
Definition render_bound (resolved : option Date) (bound : JSValue)
    (dateFormat : option string) : M string :=
  match resolved with
  | Some d =>
      if given dateFormat then ret (formatDate d (str_or dateFormat ""))
      else lift (toISOString d)
  | None => ret (toString bound)
  end.

(** [before(record, field, dateBefore, dateFormat, options)]. *)
Definition before (field : string) (dateBefore : JSValue)
    (dateFormat : option string) (options : Options) : M bool :=
  r <- read_field field ;;
  let '(value, isRecordWithoutLinks) := r in
  vb <- (if truthy value then
           dateBeforeFormatted <-
             (if isDate dateBefore then ret (parseDate dateBefore)
              else parseDateArgument dateBefore) ;;
           inputDate <-
             (if isDate (text_of value) then ret (parseDate (text_of value))
              else
                parsedDate <- parseDateArgument value ;;
                match parsedDate with
                | Some d =>
                    when (given dateFormat && negb isRecordWithoutLinks)
                      (record_set field (formatDate d (str_or dateFormat ""))) ;;;
                    ret (Some d)
                | None => ret None
                end) ;;
           ret (match inputDate, dateBeforeFormatted with
                | Some i, Some b => num_lt (getTime i) (getTime b)
                | _, _ => false
                end, dateBeforeFormatted)
         else ret (false, None)) ;;
  let '(valid, dateBeforeFormatted) := vb in
  when ((truthy value || flag (validateOnEmpty options))
        && (negb valid && flag (addError options) && negb isRecordWithoutLinks))
    (formattedDate <- render_bound dateBeforeFormatted dateBefore dateFormat ;;
     record_addError field
       (str_or (errorMsg options)
          ("Please enter a valid date before " +:+ formattedDate))) ;;;
  ret valid.

(** [after(record, field, dateAfter, dateFormat, options)]. *)
Definition after (field : string) (dateAfter : JSValue)
    (dateFormat : option string) (options : Options) : M bool :=
  r <- read_field field ;;
  let '(value, isRecordWithoutLinks) := r in
  vb <- (if truthy value then
           dateAfterFormatted <-
             (if isDate dateAfter then ret (parseDate dateAfter)
              else parseDateArgument dateAfter) ;;
           inputDate <-
             (if isDate (text_of value) then ret (parseDate (text_of value))
              else
                parsedDate <- parseDateArgument value ;;
                match parsedDate with
                | Some d =>
                    when (given dateFormat)
                      (record_set field (formatDate d (str_or dateFormat ""))) ;;;
                    ret (Some d)
                | None => ret None
                end) ;;
           ret (match inputDate, dateAfterFormatted with
                | Some i, Some b => num_lt (getTime b) (getTime i)
                | _, _ => false
                end, dateAfterFormatted)
         else ret (false, None)) ;;
  let '(valid, dateAfterFormatted) := vb in
  when ((truthy value || flag (validateOnEmpty options))
        && (negb valid && flag (addError options) && negb isRecordWithoutLinks))
    (formattedDate <- render_bound dateAfterFormatted dateAfter dateFormat ;;
     record_addError field
       (str_or (errorMsg options)
          ("Please enter a valid date after " +:+ formattedDate))) ;;;
  ret valid.

(** [between(record, field, dateStart, dateEnd, dateFormat, options)]. *)
Definition between (field : string) (dateStart dateEnd : JSValue)
    (dateFormat : option string) (options : Options) : M bool :=
  r <- read_field field ;;
  let '(value, isRecordWithoutLinks) := r in
  vb <- (if truthy value then
           dateStartFormatted <-
             (if isDate dateStart then ret (parseDate dateStart)
              else parseDateArgument dateStart) ;;
           dateEndFormatted <-
             (if isDate dateEnd then ret (parseDate dateEnd)
              else parseDateArgument dateEnd) ;;
           inputDate <-
             (if isDate (text_of value) then ret (parseDate (text_of value))
              else
                parsedDate <- parseDateArgument value ;;
                match parsedDate with
                | Some d =>
                    when (given dateFormat && negb isRecordWithoutLinks)
                      (record_set field (formatDate d (str_or dateFormat ""))) ;;;
                    ret (Some d)
                | None => ret None
                end) ;;
           ret (match inputDate, dateStartFormatted, dateEndFormatted with
                | Some i, Some a, Some b =>
                    num_lt (getTime a) (getTime i) && num_lt (getTime i) (getTime b)
                | _, _, _ => false
                end, dateStartFormatted, dateEndFormatted)
         else ret (false, None, None)) ;;
  let '(valid, dateStartFormatted, dateEndFormatted) := vb in
  when ((truthy value || flag (validateOnEmpty options))
        && (negb valid && flag (addError options) && negb isRecordWithoutLinks))
    (startFormatted <- render_bound dateStartFormatted dateStart dateFormat ;;
     endFormatted <- render_bound dateEndFormatted dateEnd dateFormat ;;
     record_addError field
       (str_or (errorMsg options)
          ("Please enter a valid date between " +:+ startFormatted
           +:+ " and " +:+ endFormatted))) ;;;
  ret valid.

(** The two bounds the dispatch hands to [between]. *)
Definition between_args (validationArgs : JSValue) : JSValue * JSValue :=
  match validationArgs with
  | VArr [a; b] => (a, b)
  | _ => (VNull, VNull)
  end.

(** [evaluateAndFormat(record, field, validationType, dateFormat,
    validationArgs, options)]. *)
Definition evaluateAndFormat (field : string) (validationType : DateValidationType)
    (dateFormat : option string) (validationArgs : JSValue)
    (options : Options) : M bool :=
  isValid <-
    match validationType with
    | BEFORE =>
        arg <- lift (index0 validationArgs) ;;
        before field arg dateFormat options
    | AFTER =>
        arg <- lift (index0 validationArgs) ;;
        after field arg dateFormat options
    | BETWEEN =>
        let '(arg1, arg2) := between_args validationArgs in
        between field arg1 arg2 dateFormat options
    | VALIDATE => validate field dateFormat options
    end ;;
  when (isValid || flag (formatOnError options))
    (format field dateFormat options ;;; ret tt) ;;;
  ret isValid.

(** *** Notions the statements below use *)

(** The date an operand resolves to, as the comparison validators resolve
    it: a natural date when [isDate] accepts [text], otherwise a relative
    expression read off [raw] against the clock.  [k] is the number of
    clock readings made before, the second component the number after.
    A bound is resolved with [text] and [raw] both the bound; the field
    value with [text] its [toString()]. *)
Definition resolve_as (text raw : JSValue) (k : nat) : option Date * nat :=
  if isDate text then (parseDate text, k)
  else if truthy raw then
    match call_toLowerCase raw with
    | inr lower => (relative_date (clock rt k) lower, S k)
    | inl _ => (None, S k)
    end
  else (None, k).

Definition resolve (bound : JSValue) (k : nat) : option Date * nat :=
  resolve_as bound bound k.

Definition resolve_value (value : JSValue) (k : nat) : option Date * nat :=
  resolve_as (text_of value) value k.

(** The state the resolution of the field value leaves behind: the clock
    readings are counted, and when the value was a relative expression and
    the guard [cond] of the immediate rewrite holds, the field is set to
    the rendered date. *)
Definition after_value (cond : bool) (field : string) (value : JSValue)
    (fmt : string) (s : State) : State :=
  let s' := set_tick (snd (resolve_value value (tick s))) s in
  match fst (resolve_value value (tick s)) with
  | Some d =>
      if negb (isDate (text_of value)) && cond
      then final (record_set field (formatDate d fmt) s')
      else s'
  | None => s'
  end.

End WithRuntime.

End DateValidator.

(* ================================================================== *)
(** ** StringValidator *)
(* ================================================================== *)

Module StringValidator.

(** The options of [matchesPattern]. *)
Record Options : Type := mkOptions {
  addError : option bool;
  validateOnEmpty : option bool;
  errorMsg : option string;
  preprocessedValue : option string
}.

(** The preamble of the string validators: the text of
    [record.get(field)], empty when there is none, and the raw cell when
    the primary read throws. *)
Definition read_text (field : string) : M (JSValue * bool) :=
  try_catch
    (v <- record_get field ;;
     ret (VStr (match v with
                | VUndefined | VNull => ""
                | _ => toString v
                end), false))
    (fun _ => v <- record_values_value field ;; ret (v, true)).

(** [matchesPattern(record, field, pattern, options)]; the pattern is
    given by its [test] method. *)
Definition matchesPattern (field : string) (pattern : string -> bool)
    (options : Options) : M bool :=
  r <- read_text field ;;
  let '(value, isRecordWithoutLinks) := r in
  let valid := if truthy value then pattern (toString value) else false in
  when ((truthy value || flag (validateOnEmpty options))
        && (negb valid && flag (addError options) && negb isRecordWithoutLinks))
    (record_addError field
       (str_or (errorMsg options) "Value does not match the required pattern")) ;;;
  ret valid.

(** The [test] of the pattern
    [^(?!000|666|9\d{2})\d{3}(?!00)\d{2}(?!0000)\d{4}$], group by group. *)
Definition ssnPattern (s : string) : bool :=
  negb (startsWith "000" s || startsWith "666" s
        || (startsWith "9" s && (String.length (substring 1 2 s) =? 2)%nat
            && all_digits (substring 1 2 s)))
  && ((String.length (substring 0 3 s) =? 3)%nat && all_digits (substring 0 3 s))
  && negb (startsWith "00" (substring 3 (String.length s - 3) s))
  && ((String.length (substring 3 2 s) =? 2)%nat && all_digits (substring 3 2 s))
  && negb (startsWith "0000" (substring 5 (String.length s - 5) s))
  && ((String.length (substring 5 4 s) =? 4)%nat && all_digits (substring 5 4 s))
  && (String.length s =? 9)%nat.

Fixpoint digits_only (s : string) : string :=
  match s with
  | EmptyString => EmptyString
  | String c rest =>
      if is_digit c then String c (digits_only rest) else digits_only rest
  end.

(** [value.replace(/\D/g, ...)] with the empty replacement: only a string
    has the method. *)
Definition call_replace_nondigits (value : JSValue) : JSError + string :=
  match value with
  | VStr s => inr (digits_only s)
  | _ => inl TypeError
  end.

(** [isSSN(record, field, options)]; it takes the three options of the
    other validators, [preprocessedValue] is its own. *)
Definition isSSN (field : string) (options : Options) : M bool :=
  r <- read_text field ;;
  let '(value, _) := r in
  digitsOnly <- lift (call_replace_nondigits value) ;;
  matchesPattern field ssnPattern
    {| addError := addError options;
       validateOnEmpty := validateOnEmpty options;
       errorMsg := Some (str_or (errorMsg options)
                           "Please enter a valid Social Security Number");
       preprocessedValue := Some digitsOnly |}.

(** *** The length validators *)

(** [value.length]: the number of characters of a string, of elements of
    an array; undefined on the other values, which reads as NaN in a
    comparison. *)
Definition length_of (value : JSValue) : Num :=
  match value with
  | VStr s => Some (Z.of_nat (String.length s))
  | VArr l => Some (Z.of_nat (List.length l))
  | _ => None
  end.

(** [a <= b] on numbers: false as soon as one side is NaN. *)
Definition num_le (a b : Num) : bool :=
  match a, b with
  | Some x, Some y => x <=? y
  | _, _ => false
  end.

(** [hasLength(record, field, min, max, options)]. *)
Definition hasLength (field : string) (min max : Num) (options : Options)
    : M bool :=
  r <- read_text field ;;
  let '(value, isRecordWithoutLinks) := r in
  let valid := if truthy value
               then num_le min (length_of value) && num_le (length_of value) max
               else false in
  when ((truthy value || flag (validateOnEmpty options))
        && (negb valid && flag (addError options) && negb isRecordWithoutLinks))
    (record_addError field
       (str_or (errorMsg options)
          ("Value must be between " +:+ num_toString min +:+ " and "
           +:+ num_toString max +:+ " characters"))) ;;;
  ret valid.

(** [min(record, field, min, options)]. *)
Definition min (field : string) (min : Num) (options : Options) : M bool :=
  r <- read_text field ;;
  let '(value, isRecordWithoutLinks) := r in
  let valid := if truthy value then num_le min (length_of value) else false in
  when ((truthy value || flag (validateOnEmpty options))
        && (negb valid && flag (addError options) && negb isRecordWithoutLinks))
    (record_addError field
       (str_or (errorMsg options)
          ("Value must be at least " +:+ num_toString min +:+ " characters"))) ;;;
  ret valid.

(** [max(record, field, max, options)]. *)
Definition max (field : string) (max : Num) (options : Options) : M bool :=
  r <- read_text field ;;
  let '(value, isRecordWithoutLinks) := r in
  let valid := if truthy value then num_le (length_of value) max else false in
  when ((truthy value || flag (validateOnEmpty options))
        && (negb valid && flag (addError options) && negb isRecordWithoutLinks))
    (record_addError field
       (str_or (errorMsg options)
          ("Value must not exceed " +:+ num_toString max +:+ " characters"))) ;;;
  ret valid.

(** *** [formatSSN] and [evaluateAndFormatSSN] *)

(** The fields of an options object that the formatters read; the fields
    the validators read are those of [Options], and a call that hands one
    object to both is given the two records. *)
Record FormatOptions : Type := mkFormatOptions {
  setRecord : option bool;
  addInfo : option bool;
  formatOnEmpty : option bool;
  infoMsg : option string;
  formatOnError : option bool
}.

(** An absent options object. *)
Definition no_options : Options := mkOptions None None None None.

(** [formatSSN(record, field, options)].  [record.set] is reached only
    after the primary read, where [formatted] is a string. *)
Definition formatSSN (field : string) (options : FormatOptions) : M JSValue :=
  r <- read_text field ;;
  let '(value, isRecordWithoutLinks) := r in
  if truthy value || flag (formatOnEmpty options) then
    isValid <- isSSN field no_options ;;
    formatted <-
      (if isValid then
         digitsOnly <- lift (call_replace_nondigits value) ;;
         when (flag (addInfo options) && flag (setRecord options)
               && negb isRecordWithoutLinks)
           (record_addInfo field
              (match infoMsg options with
               | Some m => m
               | None => "Value changed from " +:+ toString value
               end)) ;;;
         ret (VStr (substring 0 3 digitsOnly +:+ "-"
                    +:+ substring 3 2 digitsOnly +:+ "-"
                    +:+ substring 5 (String.length digitsOnly - 5) digitsOnly))
       else if flag (setRecord options) then ret (VStr "Invalid SSN")
       else ret value) ;;
    when (flag (setRecord options) && negb isRecordWithoutLinks)
      (record_set field (toString formatted)) ;;;
    ret formatted
  else ret value.

(** [evaluateAndFormatSSN(record, field, options)]; the promise it
    returns is taken as the call itself, a rejection as a throw. *)
Definition evaluateAndFormatSSN (field : string) (options : Options)
    (formatOptions : FormatOptions) : M bool :=
  isValid <- isSSN field options ;;
  when (isValid || flag (formatOnError formatOptions))
    (formatSSN field formatOptions ;;; ret tt) ;;;
  ret isValid.

(** *** The phone functions *)

(** [PhoneNumberFormat], as far as the validators name it. *)
Inductive PhoneNumberFormat : Type := E164 | INTERNATIONAL | NATIONAL.

(** What the validators use of google-libphonenumber's [PhoneNumberUtil]:
    [parse], [isValidNumber] and [format], each taken as a function of its
    arguments that returns or throws. *)
Record PhoneUtil : Type := mkPhoneUtil {
  PhoneNumber : Type;
  parse : JSValue -> JSError + PhoneNumber;
  isValidNumber : PhoneNumber -> JSError + bool;
  format_number : PhoneNumber -> PhoneNumberFormat -> JSError + string
}.

Section WithPhoneUtil.

Variable phoneUtil : PhoneUtil.

(** The [try] block of [isPhone]: an exception of the library is
    answered with false. *)
Definition valid_number (value : JSValue) : bool :=
  match parse phoneUtil value with
  | inr phoneNumber =>
      match isValidNumber phoneUtil phoneNumber with
      | inr valid => valid
      | inl _ => false
      end
  | inl _ => false
  end.

(** [isPhone(record, field, options)]. *)
Definition isPhone (field : string) (options : Options) : M bool :=
  r <- read_text field ;;
  let '(value, isRecordWithoutLinks) := r in
  let valid := if truthy value then valid_number value else false in
  when ((truthy value || flag (validateOnEmpty options))
        && (negb valid && flag (addError options) && negb isRecordWithoutLinks))
    (record_addError field
       (str_or (errorMsg options) "Please enter a valid phone number")) ;;;
  ret valid.

(** [formatPhone(record, field, format, options)]; an omitted [format]
    is INTERNATIONAL. *)
Definition formatPhone (field : string) (format : option PhoneNumberFormat)
    (options : FormatOptions) : M JSValue :=
  r <- read_text field ;;
  let '(value, isRecordWithoutLinks) := r in
  let phoneFormat := match format with
                     | Some NATIONAL => NATIONAL
                     | Some E164 => E164
                     | _ => INTERNATIONAL
                     end in
  if truthy value || flag (formatOnEmpty options) then
    formatted <-
      try_catch
        (isValid <- isPhone field no_options ;;
         if isValid then
           phoneNumber <- lift (parse phoneUtil value) ;;
           formatted <- lift (format_number phoneUtil phoneNumber phoneFormat) ;;
           when (flag (addInfo options) && flag (setRecord options)
                 && negb isRecordWithoutLinks)
             (record_addInfo field
                (str_or (infoMsg options)
                   ("Value changed from " +:+ toString value))) ;;;
           ret (VStr formatted)
         else if flag (setRecord options) then ret (VStr "Invalid Phone Number")
         else ret value)
        (fun _ => if flag (setRecord options)
                  then ret (VStr "Invalid Phone Number")
                  else ret value) ;;
    when (flag (setRecord options) && negb isRecordWithoutLinks)
      (record_set field (toString formatted)) ;;;
    ret formatted
  else ret value.

(** [evaluateAndFormatPhone(record, field, format, options)]; the promise
    it returns is taken as the call itself. *)
Definition evaluateAndFormatPhone (field : string)
    (format : option PhoneNumberFormat) (options : Options)
    (formatOptions : FormatOptions) : M bool :=
  isValid <- isPhone field options ;;
  when (isValid || flag (formatOnError formatOptions))
    (formatPhone field format formatOptions ;;; ret tt) ;;;
  ret isValid.

End WithPhoneUtil.

(** *** [format] *)

Definition is_lower (c : ascii) : bool :=
  (97 <=? nat_of_ascii c)%nat && (nat_of_ascii c <=? 122)%nat.

Definition upper_char (c : ascii) : ascii :=
  if is_lower c then ascii_of_nat (nat_of_ascii c - 32) else c.

(** [String.prototype.toUpperCase] on the letters a-z. *)
Fixpoint toUpperCase (s : string) : string :=
  match s with
  | EmptyString => EmptyString
  | String c rest => String (upper_char c) (toUpperCase rest)
  end.

(** [\w]. *)
Definition is_word (c : ascii) : bool :=
  is_digit c || is_upper c || is_lower c || Ascii.eqb c "_".

Fixpoint trimStart (s : string) : string :=
  match s with
  | EmptyString => EmptyString
  | String c rest => if is_whitespace c then trimStart rest else s
  end.

Fixpoint trimEnd (s : string) : string :=
  match s with
  | EmptyString => EmptyString
  | String c rest =>
      match trimEnd rest with
      | EmptyString => if is_whitespace c then EmptyString
                       else String c EmptyString
      | kept => String c kept
      end
  end.

(** [s.trim()]. *)
Definition call_trim (s : string) : string := trimEnd (trimStart s).

(** [s.replace(/\w\S*/g, txt => txt.charAt(0).toUpperCase() +
    txt.substr(1).toLowerCase())], read from left to right; [inside] tells
    whether the character continues a match. *)
Fixpoint title_from (inside : bool) (s : string) : string :=
  match s with
  | EmptyString => EmptyString
  | String c rest =>
      if inside then
        if is_whitespace c then String c (title_from false rest)
        else String (lower_char c) (title_from true rest)
      else
        if is_word c then String (upper_char c) (title_from true rest)
        else String c (title_from false rest)
  end.

Definition title_case (s : string) : string := title_from false s.

(** The first [n] characters of [fill] repeated; [rest] is what is left
    of the current repetition. *)
Fixpoint filler (n : nat) (fill rest : string) : string :=
  match n with
  | O => EmptyString
  | S n' =>
      match rest with
      | String c rest' => String c (filler n' fill rest')
      | EmptyString =>
          match fill with
          | String c rest' => String c (filler n' fill rest')
          | EmptyString => EmptyString
          end
      end
  end.

(** [s.padStart(n, fill)] and [s.padEnd(n, fill)]. *)
Definition call_padStart (s : string) (n : Z) (fill : string) : string :=
  filler (Z.to_nat n - String.length s) fill fill +:+ s.

Definition call_padEnd (s : string) (n : Z) (fill : string) : string :=
  s +:+ filler (Z.to_nat n - String.length s) fill fill.

Inductive Case : Type := Upper | Lower | Title.

(** [formatOptions]; the search and the replacement of [replace] are
    given by what [formatted.replace(search, replace)] returns. *)
Record FormatSpec : Type := mkFormatSpec {
  case : option Case;
  trim : option bool;
  padStart : option Z;
  padEnd : option Z;
  padChar : option string;
  truncate : option Z;
  replace : option (string -> string);
  prefix : option string;
  suffix : option string
}.

(** The [switch] on [formatOptions.case]. *)
Definition apply_case (c : option Case) (formatted : string) : string :=
  match c with
  | Some Upper => toUpperCase formatted
  | Some Lower => toLowerCase formatted
  | Some Title => title_case formatted
  | None => formatted
  end.

(** An optional number read as a condition. *)
Definition nonzero (n : option Z) : bool :=
  match n with
  | Some z => negb (z =? 0)
  | None => false
  end.

(** [o !== false] on an optional flag. *)
Definition unless_false (o : option bool) : bool :=
  match o with
  | Some false => false
  | _ => true
  end.

(** The text [format] builds from the value it read. *)
Definition formatted_text (formatOptions : FormatSpec) (value : JSValue)
    : string :=
  let formatted := if truthy value then toString value else "" in
  let formatted := if flag (trim formatOptions) then call_trim formatted
                   else formatted in
  let formatted := apply_case (case formatOptions) formatted in
  let formatted := match replace formatOptions with
                   | Some replaced => replaced formatted
                   | None => formatted
                   end in
  let formatted :=
    if nonzero (truncate formatOptions)
       && (default 0 (truncate formatOptions) <? Z.of_nat (String.length formatted))
    then substring 0 (Z.to_nat (default 0 (truncate formatOptions))) formatted
    else formatted in
  let formatted :=
    if nonzero (padStart formatOptions) && given (padChar formatOptions)
    then call_padStart formatted (default 0 (padStart formatOptions))
           (str_or (padChar formatOptions) "")
    else formatted in
  let formatted :=
    if nonzero (padEnd formatOptions) && given (padChar formatOptions)
    then call_padEnd formatted (default 0 (padEnd formatOptions))
           (str_or (padChar formatOptions) "")
    else formatted in
  let formatted := if given (prefix formatOptions)
                   then str_or (prefix formatOptions) "" +:+ formatted
                   else formatted in
  if given (suffix formatOptions)
  then formatted +:+ str_or (suffix formatOptions) ""
  else formatted.

(** [format(record, field, formatOptions, options)]. *)
Definition format (field : string) (formatOptions : FormatSpec)
    (options : FormatOptions) : M JSValue :=
  r <- DateValidator.read_field field ;;
  let '(value, isRecordWithoutLinks) := r in
  if negb (truthy value) && negb (flag (formatOnEmpty options)) then ret value
  else
    let formatted := formatted_text formatOptions value in
    when (unless_false (addInfo options) && negb isRecordWithoutLinks)
      (record_addInfo field
         (str_or (infoMsg options) "String has been formatted")) ;;;
    when (unless_false (setRecord options) && negb isRecordWithoutLinks)
      (record_set field formatted) ;;;
    ret (VStr formatted).

End StringValidator.

(* ================================================================== *)
(** ** Sample environments and records *)
(* ================================================================== *)

Module Samples.
Import DateValidator.

(** A clock started on 2024-03-15 at 12:00:00 UTC that advances by one
    millisecond at each reading. *)
Definition clock0 (n : nat) : Z := 1710504000000 + Z.of_nat n.

Definition two_digits (a b : ascii) : option Z :=
  if is_digit a && is_digit b
  then Some (parseInt (String a (String b EmptyString)))
  else None.

(** A stand-in for chrono-node that reads the calendar form YYYY-MM-DD
    and nothing else; as the library does for a text without a time of
    day, it places the date at 12:00. *)
Definition chrono0 (v : JSValue) : ChronoResult :=
  match v with
  | VStr (String y1 (String y2 (String y3 (String y4 (String "-"
      (String m1 (String m2 (String "-" (String d1 (String d2 EmptyString)))))))))) =>
      match two_digits y1 y2, two_digits y3 y4, two_digits m1 m2, two_digits d1 d2 with
      | Some yh, Some yl, Some m, Some d =>
          if (1 <=? m) && (m <=? 12) && (1 <=? d) && (d <=? 31)
          then ChronoDate (Instant (MakeDate (days_from_civil (100 * yh + yl) m d)
                                             43200000))
          else ChronoNull
      | _, _, _, _ => ChronoNull
      end
  | _ => ChronoNull
  end.

Definition rt0 : Runtime := mkRuntime chrono0 clock0.

(** A record with one field, [date], holding [v]; [linked] tells whether
    its primary read works. *)
Definition record_with (linked : bool) (v : JSValue) : FlatRecord :=
  mkRecord linked (<["date" := v]> ∅) [] [].

Definition start (r : FlatRecord) : State := mkState r 0 [].

(** 2024-03-15 at 12:00:00 UTC. *)
Definition ides : Date := Instant 1710504000000.

(** A record that offers neither read: [get] throws and it holds no cell. *)
Definition unreadable : State := start (mkRecord false ∅ [] []).

(** Records in reduced capability mode ([get] throws, the cell is read
    from [values]), holding a calendar date and a relative expression. *)
Definition detached_date : State := start (record_with false (VStr "2024-03-15")).
Definition detached_relative : State := start (record_with false (VStr "now+5days")).

(** Records whose primary read works. *)
Definition linked_relative : State := start (record_with true (VStr "now+5days")).
Definition linked_empty : State := start (record_with true (VStr "")).
Definition linked_junk : State := start (record_with true (VStr "banana")).
Definition linked_date : State := start (record_with true (VStr "2024-03-15")).
Definition linked_ssn : State := start (record_with true (VStr "123-45-6789")).

(** Options that ask for an error annotation. *)
Definition report_errors : Options :=
  mkOptions (Some true) None None None None None None None.

(** A relative expression whose offset leaves the range of time values. *)
Definition linked_far : State :=
  start (record_with true (VStr "now+999999999days")).

(** Records holding nine digits that [isSSN] accepts. *)
Definition linked_digits : State := start (record_with true (VStr "123456789")).
Definition detached_digits : State := start (record_with false (VStr "123456789")).

(** A name to tidy up, and the format options that do it. *)
Definition linked_name : State :=
  start (record_with true (VStr "  ada LOVELACE  ")).

Definition tidy_name : StringValidator.FormatSpec :=
  StringValidator.mkFormatSpec (Some StringValidator.Title) (Some true)
    None None None None None None None.

(** Options that ask the formatters to write. *)
Definition write_back : StringValidator.FormatOptions :=
  StringValidator.mkFormatOptions (Some true) None None None None.

(** A stand-in for google-libphonenumber: it reads a text that starts
    with a plus sign, takes the number to be its digits, holds numbers of
    eleven digits valid, and renders a number from its digits. *)
Definition phone0 : StringValidator.PhoneUtil :=
  StringValidator.mkPhoneUtil string
    (fun value => match value with
                  | VStr (String "+" rest) => inr (StringValidator.digits_only rest)
                  | _ => inl TypeError
                  end)
    (fun number => inr (String.length number =? 11)%nat)
    (fun number style =>
       match style with
       | StringValidator.E164 => inr ("+" +:+ number)
       | StringValidator.INTERNATIONAL =>
           inr ("+" +:+ substring 0 1 number +:+ " " +:+ substring 1 3 number
                +:+ " " +:+ substring 4 3 number +:+ " " +:+ substring 7 4 number)
       | StringValidator.NATIONAL =>
           inr ("(" +:+ substring 1 3 number +:+ ") " +:+ substring 4 3 number
                +:+ "-" +:+ substring 7 4 number)
       end).

Definition linked_phone : State :=
  start (record_with true (VStr "+1 (415) 555-0123")).

End Samples.


(* ================================================================== *)
(** ** Theorems *)
(* ================================================================== *)

Import DateValidator.

Lemma append_nonempty_r (a b : string) : b <> "" -> a +:+ b <> "".
Proof. destruct a; simpl; [auto|discriminate]. Qed.

Lemma append_nonempty_l (a b : string) : a <> "" -> a +:+ b <> "".
Proof. destruct a; simpl; [congruence|discriminate]. Qed.

(** A rendered date is never the empty text. *)
Lemma formatDate_nonempty (date : Date) (dateFormat : string) :
  formatDate date dateFormat <> "".
Proof.
  unfold formatDate. destruct (String.eqb dateFormat "").
  - destruct date; [|discriminate].
    unfold toLocaleDateString. apply append_nonempty_r. discriminate.
  - cbv zeta.
    match goal with
    | |- context [components_of ?y ?m ?d ?f] => generalize (components_of y m d f)
    end.
    intros l. destruct (Nat.eqb_spec (length l) 3) as [E|E]; cbn [negb].
    + destruct l as [|a [|b [|c [|x l]]]]; try discriminate. cbn [join].
      apply append_nonempty_r. apply append_nonempty_l.
      repeat match goal with
             | |- context [if ?b then _ else _] => destruct b
             end; discriminate.
    + apply append_nonempty_r. discriminate.
Qed.

Section DateTheorems.

Variable rt : Runtime.

Lemma set_tick_same (s : State) : set_tick (tick s) s = s.
Proof. destruct s; reflexivity. Qed.

(** The preamble, read off the record. *)
Lemma read_field_spec (field : string) (s : State) :
  read_field field s =
    if primary (rec s)
    then Ret (default VNull (values (rec s) !! field), false) s
    else match values (rec s) !! field with
         | Some v => Ret (v, true) s
         | None => Throw TypeError s
         end.
Proof.
  unfold read_field, try_catch, bind, record_get, record_values_value, ret.
  destruct (primary (rec s)); [reflexivity|].
  destruct (values (rec s) !! field); reflexivity.
Qed.

Lemma read_field_cases (field : string) (s : State) :
  read_field field s = Throw TypeError s
  \/ exists value lk, read_field field s = Ret (value, lk) s.
Proof.
  rewrite read_field_spec. destruct (primary (rec s)); [eauto|].
  destruct (values (rec s) !! field); eauto.
Qed.

(** A bound that is a string or empty is resolved without an exception,
    to what [resolve] says. *)
Lemma bound_resolution (x : JSValue) (s : State) :
  tame x = true ->
  (if isDate rt x then ret (parseDate rt x) else parseDateArgument rt x) s
  = Ret (fst (resolve rt x (tick s))) (set_tick (snd (resolve rt x (tick s))) s).
Proof.
  intros Hx. unfold resolve, resolve_as.
  destruct (isDate rt x) eqn:E.
  - simpl. rewrite set_tick_same. reflexivity.
  - unfold parseDateArgument.
    destruct (truthy x) eqn:T; simpl.
    + destruct x; simpl in *; try discriminate;
        try (rewrite T in Hx; discriminate). reflexivity.
    + rewrite set_tick_same. reflexivity.
Qed.

(** The field value is resolved without an exception once it is a
    string or its text is a natural date; [cond] is the guard of the
    immediate rewrite. *)
Lemma value_resolution (cond : bool) (field : string) (value : JSValue)
    (fmt : string) (s : State) :
  truthy value = true ->
  isDate rt (text_of value) = true \/ tame value = true ->
  (if isDate rt (text_of value) then ret (parseDate rt (text_of value))
   else
     parsedDate <- parseDateArgument rt value ;;
     match parsedDate with
     | Some d => when cond (record_set field (formatDate d fmt)) ;;; ret (Some d)
     | None => ret None
     end) s
  = Ret (fst (resolve_value rt value (tick s)))
        (after_value rt cond field value fmt s).
Proof.
  intros T H. unfold after_value, resolve_value, resolve_as. rewrite T.
  destruct (isDate rt (text_of value)) eqn:E.
  - simpl. rewrite set_tick_same. destruct (parseDate rt (text_of value)); reflexivity.
  - destruct H as [H|H]; [discriminate|].
    destruct value as [| |b|z|text|l]; simpl in *; try discriminate;
      try (rewrite T in H; discriminate).
    unfold parseDateArgument. simpl. rewrite T. simpl.
    unfold bind at 1. simpl.
    destruct (relative_date (clock rt (tick s)) (toLowerCase text)); simpl.
    + destruct cond; reflexivity.
    + reflexivity.
Qed.

Lemma render_bound_instant (t : Z) (bound : JSValue) (fmt : option string)
    (s : State) :
  exists text, render_bound (Some (Instant t)) bound fmt s = Ret text s.
Proof.
  unfold render_bound. destruct (given fmt); simpl; eexists; reflexivity.
Qed.

(** The closing steps of a validator: once the report returns, the
    verdict is handed back. *)
Lemma report_then_verdict (b valid : bool) (report : M unit) (s : State) :
  returns (report s) ->
  exists s', (when b report ;;; ret valid) s = Ret valid s'.
Proof.
  intros [[] [s' H]]. destruct b; simpl.
  - exists s'. unfold bind. rewrite H. reflexivity.
  - exists s. reflexivity.
Qed.

(** C1. [between] tests the open interval: when the two bounds and the
    non-empty field value resolve to Date Values, the verdict is true
    exactly when start < value < end on the millisecond times; it is false
    when the value sits on either bound and whenever the bounds coincide. *)
Theorem between_open_interval (field s e : string) (dateFormat : option string)
    (options : Options) (st : State) (value : JSValue) (lk : bool)
    (ts te tv : Z) (k1 k2 k3 : nat) :
  read_field field st = Ret (value, lk) st ->
  truthy value = true ->
  resolve rt (VStr s) (tick st) = (Some (Instant ts), k1) ->
  resolve rt (VStr e) k1 = (Some (Instant te), k2) ->
  resolve_value rt value k2 = (Some (Instant tv), k3) ->
  let verdict := result (between rt field (VStr s) (VStr e) dateFormat options st) in
  verdict = inr ((ts <? tv) && (tv <? te))
  /\ (verdict = inr true <-> ts < tv < te)
  /\ (tv = ts -> verdict = inr false)
  /\ (tv = te -> verdict = inr false)
  /\ (ts = te -> verdict = inr false).
Proof.
  intros Hread T Hs He Hv verdict.
  assert (Hin : isDate rt (text_of value) = true \/ tame value = true).
  { unfold resolve_value, resolve_as in Hv.
    destruct (isDate rt (text_of value)); [left; reflexivity|right].
    rewrite T in Hv. destruct value; try discriminate; reflexivity. }
  assert (V : verdict = inr ((ts <? tv) && (tv <? te))).
  { subst verdict. unfold between. unfold bind at 1. rewrite Hread.
    cbv beta iota. rewrite T.
    unfold bind at 1. unfold bind at 1. unfold bind at 1.
    rewrite bound_resolution by reflexivity. rewrite Hs. cbn [fst snd].
    unfold bind at 1.
    rewrite bound_resolution by reflexivity. cbn [tick set_tick]. rewrite He.
    cbn [fst snd].
    rewrite (value_resolution _ _ _ _ _ T Hin). cbn [tick set_tick].
    rewrite Hv. cbn [fst snd ret getTime num_lt].
    match goal with
    | |- result ((when ?b ?report ;;; ret ?v) ?s') = _ =>
        destruct (report_then_verdict b v report s') as [s'' R]
    end.
    - match goal with |- returns (_ ?s1) => generalize s1 as s1' end.
      intros s1'.
      destruct (render_bound_instant ts (VStr s) dateFormat s1') as [x Hx].
      destruct (render_bound_instant te (VStr e) dateFormat s1') as [y Hy].
      unfold returns, bind. rewrite Hx, Hy. eexists _, _; reflexivity.
    - rewrite R. reflexivity. }
  rewrite V.
  split; [reflexivity|]. split; [|split; [|split]].
  - split.
    + intros Q. injection Q as Q'. apply andb_true_iff in Q'. lia.
    + intros [H1 H2]. f_equal. apply andb_true_iff. lia.
  - intros ->. f_equal. rewrite Z.ltb_irrefl. reflexivity.
  - intros ->. f_equal. rewrite Z.ltb_irrefl. apply andb_false_r.
  - intros ->. f_equal.
    destruct (Z.ltb_spec te tv), (Z.ltb_spec tv te); try reflexivity. lia.
Qed.

Lemma resolved_value_is_tame (value : JSValue) (k k' : nat) (d : Date) :
  truthy value = true ->
  resolve_value rt value k = (Some d, k') ->
  isDate rt (text_of value) = true \/ tame value = true.
Proof.
  intros T Hv. unfold resolve_value, resolve_as in Hv.
  destruct (isDate rt (text_of value)); [left; reflexivity|right].
  rewrite T in Hv. destruct value; try discriminate; reflexivity.
Qed.

Lemma resolved_bound_is_tame (b : JSValue) (k k' : nat) (d : Date) :
  resolve rt b k = (Some d, k') -> tame b = true.
Proof.
  unfold resolve, resolve_as, isDate.
  destruct b as [| |flag|z|text|l]; simpl; try reflexivity.
  - destruct flag; discriminate.
  - destruct (z =? 0); discriminate.
  - discriminate.
Qed.

Ltac split_conditions :=
  cbv [when bind ret]; cbn [String.eqb negb andb orb];
  repeat match goal with
         | |- context [if ?b then _ else _] => destruct b
         end.

Ltac close_report :=
  match goal with
  | |- result ((when ?b ?report ;;; ret ?v) ?s') = _ =>
      let s'' := fresh "s" in
      let R := fresh "R" in
      destruct (report_then_verdict b v report s') as [s'' R];
      [ match goal with |- returns (_ ?s1) => generalize s1 end
      | rewrite R; reflexivity ]
  end.

Lemma before_verdict (field : string) (b : JSValue) (dateFormat : option string)
    (options : Options) (st : State) (value : JSValue) (lk : bool)
    (tb tv : Z) (k1 k2 : nat) :
  read_field field st = Ret (value, lk) st ->
  truthy value = true ->
  resolve rt b (tick st) = (Some (Instant tb), k1) ->
  resolve_value rt value k1 = (Some (Instant tv), k2) ->
  result (before rt field b dateFormat options st) = inr (tv <? tb).
Proof.
  intros Hread T Hb Hv.
  pose proof (resolved_value_is_tame _ _ _ _ T Hv) as Hin.
  pose proof (resolved_bound_is_tame _ _ _ _ Hb) as Hbt.
  unfold before. unfold bind at 1. rewrite Hread.
  cbv beta iota. rewrite T.
  unfold bind at 1. unfold bind at 1. unfold bind at 1.
  rewrite bound_resolution by assumption. rewrite Hb. cbn [fst snd].
  rewrite (value_resolution _ _ _ _ _ T Hin). cbn [tick set_tick].
  rewrite Hv. cbn [fst snd ret getTime num_lt].
  close_report. intros s'.
  destruct (render_bound_instant tb b dateFormat s') as [x Hx].
  unfold returns, bind. rewrite Hx. eexists _, _; reflexivity.
Qed.

Lemma after_verdict (field : string) (b : JSValue) (dateFormat : option string)
    (options : Options) (st : State) (value : JSValue) (lk : bool)
    (tb tv : Z) (k1 k2 : nat) :
  read_field field st = Ret (value, lk) st ->
  truthy value = true ->
  resolve rt b (tick st) = (Some (Instant tb), k1) ->
  resolve_value rt value k1 = (Some (Instant tv), k2) ->
  result (after rt field b dateFormat options st) = inr (tb <? tv).
Proof.
  intros Hread T Hb Hv.
  pose proof (resolved_value_is_tame _ _ _ _ T Hv) as Hin.
  pose proof (resolved_bound_is_tame _ _ _ _ Hb) as Hbt.
  unfold after. unfold bind at 1. rewrite Hread.
  cbv beta iota. rewrite T.
  unfold bind at 1. unfold bind at 1. unfold bind at 1.
  rewrite bound_resolution by assumption. rewrite Hb. cbn [fst snd].
  rewrite (value_resolution _ _ _ _ _ T Hin). cbn [tick set_tick].
  rewrite Hv. cbn [fst snd ret getTime num_lt].
  close_report. intros s'.
  destruct (render_bound_instant tb b dateFormat s') as [x Hx].
  unfold returns, bind. rewrite Hx. eexists _, _; reflexivity.
Qed.


(** *** The relative-date grammar *)

Lemma span_digits_app (rest amount unit : string) :
  span_digits rest = (amount, unit) ->
  rest = amount +:+ unit /\ all_digits amount = true.
Proof.
  revert amount unit. induction rest as [|c rest IH]; intros amount unit; simpl.
  - intros [= <- <-]. split; reflexivity.
  - destruct (is_digit c) eqn:D.
    + destruct (span_digits rest) as [d r]. intros [= <- <-].
      destruct (IH d r eq_refl) as [-> A]. simpl. rewrite D, A.
      split; reflexivity.
    + intros [= <- <-]. split; reflexivity.
Qed.

Lemma span_digits_stops (amount unit : string) :
  all_digits amount = true ->
  match unit with
  | EmptyString => True
  | String c _ => is_digit c = false
  end ->
  span_digits (amount +:+ unit) = (amount, unit).
Proof.
  intros A U. induction amount as [|c amount IH]; simpl in *.
  - destruct unit as [|c u]; [reflexivity|]. simpl. rewrite U. reflexivity.
  - apply andb_true_iff in A as [D A]. rewrite D, (IH A). reflexivity.
Qed.

Lemma match_unit_words (unit : string) :
  match_unit unit <> None <->
  In unit ["day"; "days"; "month"; "months"; "year"; "years"].
Proof.
  unfold match_unit. split.
  - intros H. simpl.
    destruct (String.eqb_spec unit "day"); [subst; simpl; tauto|].
    destruct (String.eqb_spec unit "days"); [subst; simpl; tauto|].
    destruct (String.eqb_spec unit "month"); [subst; simpl; tauto|].
    destruct (String.eqb_spec unit "months"); [subst; simpl; tauto|].
    destruct (String.eqb_spec unit "year"); [subst; simpl; tauto|].
    destruct (String.eqb_spec unit "years"); [subst; simpl; tauto|].
    simpl in H. congruence.
  - simpl. intros [<-|[<-|[<-|[<-|[<-|[<-|[]]]]]]]; simpl; discriminate.
Qed.

Lemma after_prefix_app (p s r : string) :
  after_prefix p s = Some r -> s = p +:+ r.
Proof.
  revert s. induction p as [|a p IH]; intros s; simpl.
  - intros [= ->]. reflexivity.
  - destruct s as [|b s]; [discriminate|].
    destruct (Ascii.eqb_spec a b) as [->|]; [|discriminate].
    intros H. rewrite (IH _ H). reflexivity.
Qed.

(** [relative_match] decides the grammar. *)
Lemma relative_match_grammar (text : string) :
  relative_match (toLowerCase text) <> None <-> RelativeExpression text.
Proof.
  split.
  - unfold relative_match. intros H.
    destruct (after_prefix "now" (toLowerCase text)) as [[|sign rest]|] eqn:L;
      try congruence.
    apply after_prefix_app in L.
    destruct (Ascii.eqb sign "+" || Ascii.eqb sign "-") eqn:S; [|congruence].
    destruct (span_digits rest) as [amount unit] eqn:SP.
    destruct (String.eqb_spec amount ""); [congruence|].
    destruct (match_unit unit) eqn:U; [|congruence].
    apply span_digits_app in SP as [-> A].
    apply (relative_expression text sign amount unit); auto.
    + apply orb_true_iff in S as [S|S]; apply Ascii.eqb_eq in S; auto.
    + apply match_unit_words. congruence.
  - intros [sign amount unit L S N A U]. unfold relative_match.
    rewrite L. simpl.
    assert (Ascii.eqb sign "+" || Ascii.eqb sign "-" = true) as ->.
    { destruct S as [->| ->]; reflexivity. }
    rewrite (span_digits_stops amount unit A).
    + destruct (String.eqb_spec amount ""); [contradiction|].
      apply match_unit_words in U. destruct (match_unit unit); congruence.
    + simpl in U. destruct U as [<-|[<-|[<-|[<-|[<-|[<-|[]]]]]]]; reflexivity.
Qed.


Lemma relative_expression_resolves (text : string) (now : Z) :
  RelativeExpression text ->
  exists d, relative_date now (toLowerCase text) = Some d.
Proof.
  intros H. apply relative_match_grammar in H. unfold relative_date.
  destruct (String.eqb (toLowerCase text) "now"); [eexists; reflexivity|].
  destruct (relative_match (toLowerCase text)) as [[[plus amount] unit]|];
    [|congruence].
  destruct unit; eexists; reflexivity.
Qed.

Lemma parseDateArgument_text (text : string) (s : State) :
  truthy (VStr text) = true ->
  parseDateArgument rt (VStr text) s
  = Ret (relative_date (clock rt (tick s)) (toLowerCase text))
        (set_tick (S (tick s)) s).
Proof.
  intros T. unfold parseDateArgument. rewrite T. reflexivity.
Qed.


(** *** Writes of [validate] and [format] *)


Lemma parseDateArgument_outcome (arg : JSValue) (s : State) :
  (exists d, parseDateArgument rt arg s = Ret d s /\ truthy arg = false)
  \/ (exists d, parseDateArgument rt arg s = Ret d (set_tick (S (tick s)) s))
  \/ parseDateArgument rt arg s = Throw TypeError (set_tick (S (tick s)) s).
Proof.
  unfold parseDateArgument. destruct (truthy arg) eqn:T; simpl.
  - right. destruct arg; simpl; eauto.
  - left. eauto.
Qed.

(** What a call of [validate] may add to the writes: a [set] of a
    non-empty text on the field, or an error annotation. *)
Lemma validate_writes (field : string) (dateFormat : option string)
    (options : Options) (st : State) (c : Call) :
  In c (calls (final (validate rt field dateFormat options st))) ->
  In c (calls st)
  \/ (exists x, c = CallSet field x /\ x <> "")
  \/ (exists m, c = CallAddError field m).
Proof.
  unfold validate. unfold bind at 1.
  destruct (read_field_cases field st) as [->|[value [lk ->]]]; [simpl; auto|].
  cbv beta iota.
  assert (W : forall (valid : bool) (formatted : string) (s1 : State),
            calls s1 = calls st ->
            In c (calls (final
              ((when (negb (String.eqb formatted "")) (record_set field formatted) ;;;
                when ((truthy value || flag (validateOnEmpty options))
                      && (negb valid && flag (addError options) && negb lk))
                  (record_addError field
                     (str_or (errorMsg options)
                        (match dateFormat with
                         | Some df => if String.eqb df "" then "Please enter a valid date"
                                      else "Please enter a valid date in the format " +:+ df
                         | None => "Please enter a valid date"
                         end))) ;;;
                ret valid) s1))) ->
            In c (calls st)
            \/ (exists x, c = CallSet field x /\ x <> "")
            \/ (exists m, c = CallAddError field m)).
  { intros valid formatted s1 E.
    destruct (String.eqb_spec formatted ""); simpl;
      match goal with
      | |- context [when ?b _] => destruct b
      end; simpl; rewrite ?E; intros H;
      repeat (apply in_app_or in H as [H|H]); auto;
      destruct H as [<-|[]]; eauto. }
  destruct (truthy value) eqn:T.
  - unfold bind at 1. unfold bind at 1.
    destruct (parseDateArgument_outcome value st) as [[d [-> F]]|[[d ->]| ->]].
    + congruence.
    + destruct d as [d|].
      * apply W. reflexivity.
      * destruct (isDate rt (text_of value)); [|apply W; reflexivity].
        destruct (parseDate rt (text_of value)); apply W; reflexivity.
    + simpl. auto.
  - unfold bind at 1. apply W. reflexivity.
Qed.

Lemma format_writes (field : string) (dateFormat : option string)
    (options : Options) (st : State) (c : Call) :
  In c (calls (final (format rt field dateFormat options st))) ->
  In c (calls st)
  \/ (exists x, c = CallSet field x /\ x <> "")
  \/ (exists m, c = CallAddInfo field m).
Proof.
  unfold format. unfold bind at 1.
  destruct (read_field_cases field st) as [->|[value [lk ->]]]; [simpl; auto|].
  cbv beta iota.
  assert (W : forall (b1 b2 : bool) (formatted msg : string) (s1 : State),
            calls s1 = calls st ->
            In c (calls (final
              ((when (b1 && negb (String.eqb formatted "") && b2)
                  (record_addInfo field msg) ;;;
                when (flag (setRecord options) && negb (String.eqb formatted "")
                      && negb lk)
                  (record_set field formatted) ;;;
                ret formatted) s1))) ->
            In c (calls st)
            \/ (exists x, c = CallSet field x /\ x <> "")
            \/ (exists m, c = CallAddInfo field m)).
  { intros b1 b2 formatted msg s1 E.
    destruct (String.eqb_spec formatted "") as [->|N];
      destruct b1, b2, (flag (setRecord options)), lk;
      cbn; rewrite ?E; intros H;
      repeat (apply in_app_or in H as [H|H]); auto;
      destruct H as [<-|[]]; eauto. }
  destruct (truthy value) eqn:T.
  - unfold bind at 1. unfold bind at 1.
    destruct (parseDateArgument_outcome value st) as [[d [-> F]]|[[d ->]| ->]].
    + congruence.
    + destruct d as [d|].
      * apply W. reflexivity.
      * destruct (parseDate rt (text_of value)); apply W; reflexivity.
    + simpl. auto.
  - unfold bind at 1. apply W. reflexivity.
Qed.

(** C8. On an empty field and without [validateOnEmpty], [validate]
    answers false and leaves the whole state as it was: no write, no
    annotation.  Whatever the input, the only value [validate] and [format]
    ever [set] is a non-empty formatted text; on a text that neither the
    relative-date evaluator nor chrono-node reads, both leave the cells of
    the record as they were. *)
Theorem validate_format_write_only_formatted (field : string)
    (dateFormat : option string) (options : Options)
    (st_e : State) (empty : JSValue) (lk_e : bool)
    (st_u : State) (text : string) (lk_u : bool) (st : State) :
  read_field field st_e = Ret (empty, lk_e) st_e ->
  truthy empty = false ->
  flag (validateOnEmpty options) = false ->
  read_field field st_u = Ret (VStr text, lk_u) st_u ->
  relative_date (clock rt (tick st_u)) (toLowerCase text) = None ->
  parseDate rt (VStr text) = None ->
  validate rt field dateFormat options st_e = Ret false st_e
  /\ (forall c, In c (calls (final (validate rt field dateFormat options st))) ->
        In c (calls st)
        \/ (exists x, c = CallSet field x /\ x <> "")
        \/ (exists m, c = CallAddError field m))
  /\ (forall c, In c (calls (final (format rt field dateFormat options st))) ->
        In c (calls st)
        \/ (exists x, c = CallSet field x /\ x <> "")
        \/ (exists m, c = CallAddInfo field m))
  /\ values (rec (final (validate rt field dateFormat options st_u)))
     = values (rec st_u)
  /\ values (rec (final (format rt field dateFormat options st_u)))
     = values (rec st_u).
Proof.
  intros Re Te Ve Ru Rel Par.
  split; [|split; [|split; [|split]]].
  - unfold validate. unfold bind at 1. rewrite Re. cbv beta iota.
    rewrite Te, Ve. reflexivity.
  - intros c. apply validate_writes.
  - intros c. apply format_writes.
  - unfold validate. unfold bind at 1. rewrite Ru. cbv beta iota.
    destruct (truthy (VStr text)) eqn:T.
    + unfold bind at 1. unfold bind at 1.
      rewrite (parseDateArgument_text _ _ T), Rel.
      cbv beta iota. unfold text_of. cbn [toString]. rewrite Par.
      destruct (isDate rt (VStr text)); split_conditions; reflexivity.
    + split_conditions; reflexivity.
  - unfold format. unfold bind at 1. rewrite Ru. cbv beta iota.
    destruct (truthy (VStr text)) eqn:T.
    + unfold bind at 1. unfold bind at 1.
      rewrite (parseDateArgument_text _ _ T), Rel.
      cbv beta iota. unfold text_of. cbn [toString]. rewrite Par.
      cbv [bind ret]. cbn [String.eqb negb andb orb].
      destruct (flag (setRecord options)); reflexivity.
    + cbv [bind ret]. cbn [String.eqb negb andb orb].
      rewrite andb_false_r.
      destruct (flag (setRecord options)); reflexivity.
Qed.

(** *** Runs on well-shaped inputs *)

Lemma render_bound_returns (d : option Date) (bound : JSValue)
    (fmt : option string) (s : State) :
  given fmt = true \/ d <> Some InvalidDate ->
  exists text, render_bound d bound fmt s = Ret text s.
Proof.
  unfold render_bound. intros H. destruct d as [d|]; [|eexists; reflexivity].
  destruct (given fmt); [eexists; reflexivity|].
  destruct H as [H|H]; [discriminate|].
  destruct d; [eexists; reflexivity|congruence].
Qed.

(** The report of a failed validation adds one error annotation, when it
    is made at all. *)
Lemma report_outcome (b valid : bool) (report : M unit) (field : string)
    (s : State) :
  (exists msg, report s = record_addError field msg s) ->
  exists s', (when b report ;;; ret valid) s = Ret valid s'
             /\ (s' = s \/ exists msg, s' = final (record_addError field msg s)).
Proof.
  intros [msg H]. destruct b; simpl.
  - eexists. unfold bind. rewrite H. simpl. split; [reflexivity|].
    right. exists msg. reflexivity.
  - exists s. split; [reflexivity|left; reflexivity].
Qed.

Ltac close_run field :=
  match goal with
  | |- exists _, (when ?b ?report ;;; ret ?v) ?s1 = Ret _ _ /\ _ =>
      destruct (report_outcome b v report field s1) as [s2 [R2 O2]];
      [ | exists s2; split; [exact R2|exact O2] ]
  end.

Lemma before_run (field : string) (b : JSValue) (dateFormat : option string)
    (options : Options) (st : State) (value : JSValue) (lk : bool) :
  read_field field st = Ret (value, lk) st ->
  isDate rt (text_of value) = true \/ tame value = true ->
  tame b = true ->
  given dateFormat = true \/ in_range (fst (resolve rt b (tick st))) ->
  let s1 := if truthy value
            then after_value rt (given dateFormat && negb lk) field value
                   (str_or dateFormat "")
                   (set_tick (snd (resolve rt b (tick st))) st)
            else st in
  exists valid st',
    before rt field b dateFormat options st = Ret valid st'
    /\ (st' = s1 \/ exists msg, st' = final (record_addError field msg s1)).
Proof.
  intros Hread Hin Hb Hfmt s1. subst s1.
  unfold before. unfold bind at 1. rewrite Hread. cbv beta iota.
  destruct (truthy value) eqn:T.
  - unfold bind at 1. unfold bind at 1. unfold bind at 1.
    rewrite bound_resolution by assumption.
    rewrite (value_resolution _ _ _ _ _ T Hin). cbn [ret].
    eexists. close_run field.
    destruct (render_bound_returns (fst (resolve rt b (tick st))) b dateFormat
                (after_value rt (given dateFormat && negb lk) field value
                   (str_or dateFormat "")
                   (set_tick (snd (resolve rt b (tick st))) st))) as [x Hx].
    { exact Hfmt. }
    eexists. unfold bind. rewrite Hx. reflexivity.
  - unfold bind at 1. cbn [ret]. eexists. close_run field.
    eexists. reflexivity.
Qed.

Lemma after_run (field : string) (b : JSValue) (dateFormat : option string)
    (options : Options) (st : State) (value : JSValue) (lk : bool) :
  read_field field st = Ret (value, lk) st ->
  isDate rt (text_of value) = true \/ tame value = true ->
  tame b = true ->
  given dateFormat = true \/ in_range (fst (resolve rt b (tick st))) ->
  let s1 := if truthy value
            then after_value rt (given dateFormat) field value
                   (str_or dateFormat "")
                   (set_tick (snd (resolve rt b (tick st))) st)
            else st in
  exists valid st',
    after rt field b dateFormat options st = Ret valid st'
    /\ (st' = s1 \/ exists msg, st' = final (record_addError field msg s1)).
Proof.
  intros Hread Hin Hb Hfmt s1. subst s1.
  unfold after. unfold bind at 1. rewrite Hread. cbv beta iota.
  destruct (truthy value) eqn:T.
  - unfold bind at 1. unfold bind at 1. unfold bind at 1.
    rewrite bound_resolution by assumption.
    rewrite (value_resolution _ _ _ _ _ T Hin). cbn [ret].
    eexists. close_run field.
    destruct (render_bound_returns (fst (resolve rt b (tick st))) b dateFormat
                (after_value rt (given dateFormat) field value
                   (str_or dateFormat "")
                   (set_tick (snd (resolve rt b (tick st))) st))) as [x Hx].
    { exact Hfmt. }
    eexists. unfold bind. rewrite Hx. reflexivity.
  - unfold bind at 1. cbn [ret]. eexists. close_run field.
    eexists. reflexivity.
Qed.

Lemma between_run (field : string) (b e : JSValue) (dateFormat : option string)
    (options : Options) (st : State) (value : JSValue) (lk : bool) :
  read_field field st = Ret (value, lk) st ->
  isDate rt (text_of value) = true \/ tame value = true ->
  tame b = true -> tame e = true ->
  given dateFormat = true
  \/ (in_range (fst (resolve rt b (tick st)))
      /\ in_range (fst (resolve rt e (snd (resolve rt b (tick st)))))) ->
  let k1 := snd (resolve rt b (tick st)) in
  let s1 := if truthy value
            then after_value rt (given dateFormat && negb lk) field value
                   (str_or dateFormat "")
                   (set_tick (snd (resolve rt e k1)) (set_tick k1 st))
            else st in
  exists valid st',
    between rt field b e dateFormat options st = Ret valid st'
    /\ (st' = s1 \/ exists msg, st' = final (record_addError field msg s1)).
Proof.
  intros Hread Hin Hb He Hfmt k1 s1. subst k1 s1.
  unfold between. unfold bind at 1. rewrite Hread. cbv beta iota.
  destruct (truthy value) eqn:T.
  - unfold bind at 1. unfold bind at 1. unfold bind at 1.
    rewrite bound_resolution by assumption. unfold bind at 1.
    rewrite bound_resolution by assumption. cbn [tick set_tick].
    rewrite (value_resolution _ _ _ _ _ T Hin). cbn [ret].
    eexists. close_run field.
    match goal with
    | |- exists _, _ ?s1 = _ =>
        destruct (render_bound_returns (fst (resolve rt b (tick st))) b
                    dateFormat s1) as [x Hx];
        [ destruct Hfmt as [F|[F _]]; [left; exact F|right; exact F] | ];
        destruct (render_bound_returns
                    (fst (resolve rt e (snd (resolve rt b (tick st))))) e
                    dateFormat s1) as [y Hy];
        [ destruct Hfmt as [F|[_ F]]; [left; exact F|right; exact F] | ]
    end.
    eexists. unfold bind. rewrite Hx, Hy. reflexivity.
  - unfold bind at 1. cbn [ret]. eexists. close_run field.
    eexists. reflexivity.
Qed.

(** *** The frame of a call *)

Lemma frame_refl (field : string) (s : State) : frame field s s.
Proof. split; [reflexivity|left; reflexivity]. Qed.

Lemma frame_trans (field : string) (s1 s2 s3 : State) :
  frame field s1 s2 -> frame field s2 s3 -> frame field s1 s3.
Proof.
  intros [P1 V1] [P2 V2]. split; [congruence|].
  destruct V2 as [V2|V2]; [|right; exact V2].
  destruct V1 as [V1|[x V1]]; [left; congruence|right; exists x; congruence].
Qed.

Lemma frame_set_tick (field : string) (k : nat) (s : State) :
  frame field s (set_tick k s).
Proof. split; [reflexivity|left; reflexivity]. Qed.

Lemma frame_record_set (field x : string) (s : State) :
  frame field s (final (record_set field x s)).
Proof.
  split; [reflexivity|right]. exists x. simpl. apply lookup_insert_eq.
Qed.

Lemma frame_addError (field m : string) (s : State) :
  frame field s (final (record_addError field m s)).
Proof. split; [reflexivity|left; reflexivity]. Qed.

Lemma frame_addInfo (field m : string) (s : State) :
  frame field s (final (record_addInfo field m s)).
Proof. split; [reflexivity|left; reflexivity]. Qed.

Lemma frame_after_value (cond : bool) (field : string) (value : JSValue)
    (fmt : string) (s : State) :
  frame field s (after_value rt cond field value fmt s).
Proof.
  unfold after_value.
  destruct (fst (resolve_value rt value (tick s))) as [d|];
    [|apply frame_set_tick].
  destruct (negb (isDate rt (text_of value)) && cond); [|apply frame_set_tick].
  eapply frame_trans; [apply frame_set_tick|apply frame_record_set].
Qed.

Lemma frame_reported (field : string) (s s1 s' : State) :
  frame field s s1 ->
  s' = s1 \/ (exists msg, s' = final (record_addError field msg s1)) ->
  frame field s s'.
Proof.
  intros F [->|[msg ->]]; [exact F|].
  eapply frame_trans; [exact F|apply frame_addError].
Qed.

(** A field that reads as a string or as empty still does after a call
    that respects the frame. *)
Lemma frame_read (field : string) (s s' : State) (value : JSValue) (lk : bool) :
  frame field s s' ->
  read_field field s = Ret (value, lk) s ->
  tame value = true ->
  exists value', read_field field s' = Ret (value', lk) s' /\ tame value' = true.
Proof.
  intros [P V] R T. rewrite read_field_spec in *. rewrite P.
  destruct (primary (rec s)).
  - injection R as <- <-.
    destruct V as [->|[x ->]]; eexists; split; try reflexivity; exact T.
  - destruct (values (rec s) !! field) as [v|] eqn:E; [|discriminate].
    injection R as <- <-.
    destruct V as [->|[x ->]]; eexists; split; try reflexivity; exact T.
Qed.

Lemma tame_truthy_text (value : JSValue) :
  tame value = true -> truthy value = true -> exists text, value = VStr text.
Proof.
  destruct value; simpl; intros H T; try (rewrite T in H; discriminate);
    try discriminate.
  eexists; reflexivity.
Qed.

Lemma validate_run (field : string) (dateFormat : option string)
    (options : Options) (st : State) (value : JSValue) (lk : bool) :
  read_field field st = Ret (value, lk) st ->
  tame value = true ->
  exists valid st',
    validate rt field dateFormat options st = Ret valid st'
    /\ frame field st st'.
Proof.
  intros Hread Ht.
  assert (W : forall (valid : bool) (formatted : string) (s1 : State),
            frame field st s1 ->
            exists st',
              (when (negb (String.eqb formatted "")) (record_set field formatted) ;;;
               when ((truthy value || flag (validateOnEmpty options))
                     && (negb valid && flag (addError options) && negb lk))
                 (record_addError field
                    (str_or (errorMsg options)
                       (match dateFormat with
                        | Some df => if String.eqb df "" then "Please enter a valid date"
                                     else "Please enter a valid date in the format " +:+ df
                        | None => "Please enter a valid date"
                        end))) ;;;
               ret valid) s1 = Ret valid st'
              /\ frame field st st').
  { intros valid formatted s1 F.
    destruct (negb (String.eqb formatted ""));
      match goal with
      | |- context [when ?b (record_addError _ _)] => destruct b
      end; eexists; (split; [reflexivity|]); simpl;
      repeat first [ exact F
                   | eapply frame_trans; [|apply frame_addError]
                   | eapply frame_trans; [|apply frame_record_set] ]. }
  unfold validate. unfold bind at 1. rewrite Hread. cbv beta iota.
  destruct (truthy value) eqn:T.
  - destruct (tame_truthy_text _ Ht T) as [text ->].
    unfold bind at 1. unfold bind at 1.
    rewrite (parseDateArgument_text _ _ T).
    destruct (relative_date (clock rt (tick st)) (toLowerCase text)) as [d|].
    + eexists. apply W. apply frame_set_tick.
    + cbv beta iota.
      destruct (isDate rt (text_of (VStr text)));
        [destruct (parseDate rt (text_of (VStr text)))|];
        eexists; apply W; apply frame_set_tick.
  - unfold bind at 1. eexists. apply W. apply frame_refl.
Qed.

Lemma format_run (field : string) (dateFormat : option string)
    (options : Options) (st : State) (value : JSValue) (lk : bool) :
  read_field field st = Ret (value, lk) st ->
  tame value = true ->
  exists text st',
    format rt field dateFormat options st = Ret text st'
    /\ frame field st st'.
Proof.
  intros Hread Ht.
  assert (W : forall (formatted : string) (s1 : State),
            frame field st s1 ->
            exists st',
              (when ((truthy value || flag (formatOnEmpty options))
                     && negb (String.eqb formatted "")
                     && (flag (addInfo options) && flag (setRecord options)
                         && negb lk))
                 (record_addInfo field
                    (str_or (infoMsg options)
                       ("Value has been formatted from " +:+ toString value))) ;;;
               when (flag (setRecord options) && negb (String.eqb formatted "")
                     && negb lk)
                 (record_set field formatted) ;;;
               ret formatted) s1 = Ret formatted st'
              /\ frame field st st').
  { intros formatted s1 F.
    match goal with
    | |- context [when ?b (record_addInfo _ _)] => destruct b
    end;
      match goal with
      | |- context [when ?b (record_set _ _)] => destruct b
      end; eexists; (split; [reflexivity|]); simpl;
      repeat first [ exact F
                   | eapply frame_trans; [|apply frame_addInfo]
                   | eapply frame_trans; [|apply frame_record_set] ]. }
  unfold format. unfold bind at 1. rewrite Hread. cbv beta iota.
  destruct (truthy value) eqn:T.
  - destruct (tame_truthy_text _ Ht T) as [text ->].
    unfold bind at 1. unfold bind at 1.
    rewrite (parseDateArgument_text _ _ T).
    destruct (relative_date (clock rt (tick st)) (toLowerCase text)) as [d|].
    + eexists. apply W. apply frame_set_tick.
    + cbv beta iota.
      destruct (parseDate rt (text_of (VStr text)));
        eexists; apply W; apply frame_set_tick.
  - unfold bind at 1. eexists. apply W. apply frame_refl.
Qed.

Lemma before_frame (field : string) (b : JSValue) (dateFormat : option string)
    (options : Options) (st : State) (value : JSValue) (lk : bool) :
  read_field field st = Ret (value, lk) st ->
  tame value = true -> tame b = true ->
  in_range (fst (resolve rt b (tick st))) ->
  exists valid st',
    before rt field b dateFormat options st = Ret valid st'
    /\ frame field st st'.
Proof.
  intros Hread Hv Hb Hr.
  destruct (before_run field b dateFormat options st value lk Hread
              (or_intror Hv) Hb (or_intror Hr)) as [valid [st' [R O]]].
  exists valid, st'. split; [exact R|].
  eapply frame_reported; [|exact O].
  destruct (truthy value); [|apply frame_refl].
  eapply frame_trans; [apply frame_set_tick|apply frame_after_value].
Qed.

Lemma after_frame (field : string) (b : JSValue) (dateFormat : option string)
    (options : Options) (st : State) (value : JSValue) (lk : bool) :
  read_field field st = Ret (value, lk) st ->
  tame value = true -> tame b = true ->
  in_range (fst (resolve rt b (tick st))) ->
  exists valid st',
    after rt field b dateFormat options st = Ret valid st'
    /\ frame field st st'.
Proof.
  intros Hread Hv Hb Hr.
  destruct (after_run field b dateFormat options st value lk Hread
              (or_intror Hv) Hb (or_intror Hr)) as [valid [st' [R O]]].
  exists valid, st'. split; [exact R|].
  eapply frame_reported; [|exact O].
  destruct (truthy value); [|apply frame_refl].
  eapply frame_trans; [apply frame_set_tick|apply frame_after_value].
Qed.

Lemma between_frame (field : string) (b e : JSValue)
    (dateFormat : option string) (options : Options) (st : State)
    (value : JSValue) (lk : bool) :
  read_field field st = Ret (value, lk) st ->
  tame value = true -> tame b = true -> tame e = true ->
  in_range (fst (resolve rt b (tick st))) ->
  in_range (fst (resolve rt e (snd (resolve rt b (tick st))))) ->
  exists valid st',
    between rt field b e dateFormat options st = Ret valid st'
    /\ frame field st st'.
Proof.
  intros Hread Hv Hb He Hr1 Hr2.
  destruct (between_run field b e dateFormat options st value lk Hread
              (or_intror Hv) Hb He (or_intror (conj Hr1 Hr2)))
    as [valid [st' [R O]]].
  exists valid, st'. split; [exact R|].
  eapply frame_reported; [|exact O].
  destruct (truthy value); [|apply frame_refl].
  eapply frame_trans; [apply frame_set_tick|].
  eapply frame_trans; [apply frame_set_tick|apply frame_after_value].
Qed.

(** The finishing step of the dispatch: [format] runs on the state the
    validator left. *)
Lemma finish_returns (field : string) (dateFormat : option string)
    (options : Options) (st st' : State) (value : JSValue) (lk isValid : bool) :
  read_field field st = Ret (value, lk) st ->
  tame value = true ->
  frame field st st' ->
  exists st'',
    (when (isValid || flag (formatOnError options))
       (format rt field dateFormat options ;;; ret tt) ;;;
     ret isValid) st' = Ret isValid st''.
Proof.
  intros Hread Hv F.
  destruct (frame_read _ _ _ _ _ F Hread Hv) as [value' [R' T']].
  destruct (format_run field dateFormat options st' value' lk R' T')
    as [text [st'' [Rf _]]].
  destruct (isValid || flag (formatOnError options)); simpl.
  - exists st''. unfold bind. rewrite Rf. reflexivity.
  - exists st'. reflexivity.
Qed.

(** C2, amended. On a call in which the field holds a string or an
    empty value and each bound is a string or an empty value that resolves
    to no invalid date, no exception escapes:
    - from [before], [between] and [format], and from [evaluateAndFormat]
      dispatching to [before] or [between], as soon as the record can be
      read, by the primary read or by the secondary path (in reduced
      capability mode they call no accessor of the record);
    - from [validate], [after] and every dispatch of [evaluateAndFormat],
      when the primary read worked.
    For [evaluateAndFormat] the bounds are those the dispatch takes from
    [validationArgs], which [before] and [after] index and which therefore
    must not be undefined or null. *)
Theorem entry_points_return (field : string) (dateFormat : option string)
    (options : Options) (st : State) (value : JSValue) (lk : bool)
    (b e : JSValue) (validationType : DateValidationType)
    (validationArgs : JSValue) :
  read_field field st = Ret (value, lk) st ->
  tame value = true ->
  tame b = true ->
  tame e = true ->
  in_range (fst (resolve rt b (tick st))) ->
  in_range (fst (resolve rt e (snd (resolve rt b (tick st))))) ->
  match validationType with
  | BEFORE | AFTER => index0 validationArgs = inr b
  | BETWEEN => between_args validationArgs = (b, e)
  | VALIDATE => True
  end ->
  (returns (before rt field b dateFormat options st)
   /\ returns (between rt field b e dateFormat options st)
   /\ returns (format rt field dateFormat options st)
   /\ match validationType with
      | BEFORE | BETWEEN =>
          returns (evaluateAndFormat rt field validationType dateFormat
                     validationArgs options st)
      | VALIDATE | AFTER => True
      end)
  /\ (lk = false ->
      returns (validate rt field dateFormat options st)
      /\ returns (after rt field b dateFormat options st)
      /\ returns (evaluateAndFormat rt field validationType dateFormat
                    validationArgs options st)).
Proof.
  intros Hread Hv Hb He Rb Re Hargs.
  destruct (validate_run field dateFormat options st value lk Hread Hv)
    as [v1 [s1 [R1 F1]]].
  destruct (before_frame field b dateFormat options st value lk Hread Hv Hb Rb)
    as [v2 [s2 [R2 F2]]].
  destruct (after_frame field b dateFormat options st value lk Hread Hv Hb Rb)
    as [v3 [s3 [R3 F3]]].
  destruct (between_frame field b e dateFormat options st value lk Hread Hv
              Hb He Rb Re) as [v4 [s4 [R4 F4]]].
  destruct (format_run field dateFormat options st value lk Hread Hv)
    as [v5 [s5 [R5 F5]]].
  assert (All : returns (evaluateAndFormat rt field validationType dateFormat
                           validationArgs options st)).
  { unfold returns, evaluateAndFormat. unfold bind at 1.
    destruct validationType.
    - rewrite R1.
      destruct (finish_returns field dateFormat options st s1 value lk v1
                  Hread Hv F1) as [s' ->].
      eexists _, _; reflexivity.
    - rewrite Hargs. cbn [lift]. unfold bind at 1. unfold ret at 1.
      cbv beta iota. rewrite R2.
      destruct (finish_returns field dateFormat options st s2 value lk v2
                  Hread Hv F2) as [s' ->].
      eexists _, _; reflexivity.
    - rewrite Hargs. cbn [lift]. unfold bind at 1. unfold ret at 1.
      cbv beta iota. rewrite R3.
      destruct (finish_returns field dateFormat options st s3 value lk v3
                  Hread Hv F3) as [s' ->].
      eexists _, _; reflexivity.
    - rewrite Hargs. rewrite R4.
      destruct (finish_returns field dateFormat options st s4 value lk v4
                  Hread Hv F4) as [s' ->].
      eexists _, _; reflexivity. }
  split.
  - split; [rewrite R2; eexists _, _; reflexivity|].
    split; [rewrite R4; eexists _, _; reflexivity|].
    split; [rewrite R5; eexists _, _; reflexivity|].
    destruct validationType; first [exact I|exact All].
  - intros _.
    split; [rewrite R1; eexists _, _; reflexivity|].
    split; [rewrite R3; eexists _, _; reflexivity|exact All].
Qed.

(** *** The dispatch of [between] *)

Lemma between_args_malformed (validationArgs : JSValue) :
  (forall a b, validationArgs <> VArr [a; b]) ->
  between_args validationArgs = (VNull, VNull).
Proof.
  intros H. unfold between_args.
  destruct validationArgs as [| | | | |[|a [|b [|c l]]]]; try reflexivity.
  exfalso. apply (H a b). reflexivity.
Qed.

(** With null for both bounds the comparison cannot succeed. *)
Lemma between_null_never_true (field : string) (dateFormat : option string)
    (options : Options) (st s : State) (valid : bool) :
  between rt field VNull VNull dateFormat options st = Ret valid s ->
  valid = false.
Proof.
  unfold between. unfold bind at 1.
  destruct (read_field_cases field st) as [->|[value [lk ->]]]; [discriminate|].
  cbv beta iota.
  assert (W : forall (v : bool) (d1 d2 : option Date) (s1 : State),
            (when ((truthy value || flag (validateOnEmpty options))
                   && (negb v && flag (addError options) && negb lk))
               (startFormatted <- render_bound d1 VNull dateFormat ;;
                endFormatted <- render_bound d2 VNull dateFormat ;;
                record_addError field
                  (str_or (errorMsg options)
                     ("Please enter a valid date between " +:+ startFormatted
                      +:+ " and " +:+ endFormatted))) ;;;
             ret v) s1 = Ret valid s -> valid = v).
  { intros v d1 d2 s1. unfold bind at 1.
    match goal with
    | |- context [when ?b ?c s1] => destruct (when b c s1)
    end; [|discriminate].
    intros [= <- _]. reflexivity. }
  destruct (truthy value) eqn:T.
  - unfold bind at 1. unfold bind at 1. unfold bind at 1. unfold bind at 1.
    cbn [isDate call_toLowerCase parseDateArgument truthy negb ret].
    match goal with
    | |- context [match ?c st with _ => _ end] =>
        destruct (c st) as [a s'|e s'] eqn:E
    end; [|discriminate].
    intros H. apply W in H. destruct a; exact H.
  - unfold bind at 1. cbn [ret]. apply W.
Qed.

(** C9. When [validationArgs] is not an array of exactly two elements the
    dispatch hands null for both bounds to [between]; the call then never
    answers true, and it answers false whenever the field can be read and
    holds a string or an empty value. *)
Theorem between_malformed_args_fail (field : string)
    (dateFormat : option string) (validationArgs : JSValue)
    (options : Options) (st : State) :
  (forall a b, validationArgs <> VArr [a; b]) ->
  between_args validationArgs = (VNull, VNull)
  /\ evaluateAndFormat rt field BETWEEN dateFormat validationArgs options st
     = (isValid <- between rt field VNull VNull dateFormat options ;;
        when (isValid || flag (formatOnError options))
          (format rt field dateFormat options ;;; ret tt) ;;;
        ret isValid) st
  /\ result (evaluateAndFormat rt field BETWEEN dateFormat validationArgs
               options st) <> inr true
  /\ (forall value lk,
        read_field field st = Ret (value, lk) st ->
        tame value = true ->
        result (evaluateAndFormat rt field BETWEEN dateFormat validationArgs
                  options st) = inr false).
Proof.
  intros Hargs. pose proof (between_args_malformed _ Hargs) as A.
  assert (U : evaluateAndFormat rt field BETWEEN dateFormat validationArgs
                options st
              = (isValid <- between rt field VNull VNull dateFormat options ;;
                 when (isValid || flag (formatOnError options))
                   (format rt field dateFormat options ;;; ret tt) ;;;
                 ret isValid) st).
  { unfold evaluateAndFormat. rewrite A. reflexivity. }
  split; [exact A|]. split; [exact U|]. rewrite U. split.
  - unfold bind at 1.
    destruct (between rt field VNull VNull dateFormat options st)
      as [valid s|e s] eqn:B; [|discriminate].
    apply between_null_never_true in B. subst valid.
    unfold bind.
    destruct (when (false || flag (formatOnError options)) _ s);
      discriminate.
  - intros value lk Hread Hv.
    destruct (between_frame field VNull VNull dateFormat options st value lk
                Hread Hv eq_refl eq_refl) as [valid [s' [R F]]];
      [discriminate|discriminate|].
    pose proof (between_null_never_true _ _ _ _ _ _ R). subst valid.
    unfold bind at 1. rewrite R.
    destruct (finish_returns field dateFormat options st s' value lk false
                Hread Hv F) as [s'' ->].
    reflexivity.
Qed.

(** *** The immediate rewrite of a relative value *)

Lemma after_value_rewrites (cond : bool) (field text fmt : string)
    (s : State) (d : Date) :
  isDate rt (VStr text) = false ->
  truthy (VStr text) = true ->
  cond = true ->
  relative_date (clock rt (tick s)) (toLowerCase text) = Some d ->
  after_value rt cond field (VStr text) fmt s
  = final (record_set field (formatDate d fmt) (set_tick (S (tick s)) s)).
Proof.
  intros I T -> D. unfold after_value, resolve_value, resolve_as, text_of.
  cbn [toString]. rewrite I, T. cbn [call_toLowerCase fst snd].
  rewrite D. reflexivity.
Qed.

Lemma rewritten_and_reported (field x : string) (s st' : State) :
  st' = final (record_set field x s)
  \/ (exists msg, st' = final (record_addError field msg
                                 (final (record_set field x s)))) ->
  In (CallSet field x) (calls st')
  /\ values (rec st') !! field = Some (VStr x).
Proof.
  intros [->|[msg ->]]; cbn [final record_set record_addError update_record
                              calls rec values].
  - split; [apply in_or_app; right; left; reflexivity|apply lookup_insert_eq].
  - split; [|apply lookup_insert_eq].
    apply in_or_app; left. apply in_or_app; right; left; reflexivity.
Qed.

(** C7, amended. In every call of [before], [after] or [between] whose
    primary read succeeded, whose bounds are strings or empty values,
    whose field holds a text that [isDate] refuses and the relative-date
    evaluator resolves, and that was given a non-empty format, the field
    is set to the rendered date: the call returns, with that [set] among
    its writes and the rendered text in the cell, whatever the verdict. *)
Theorem relative_value_rewritten (field fmt text : string) (b e : JSValue)
    (options : Options) (st : State) :
  read_field field st = Ret (VStr text, false) st ->
  fmt <> "" ->
  isDate rt (VStr text) = false ->
  (forall now, relative_date now (toLowerCase text) <> None) ->
  tame b = true ->
  tame e = true ->
  let rewritten (o : Outcome bool) :=
    exists k d valid st',
      relative_date (clock rt k) (toLowerCase text) = Some d
      /\ o = Ret valid st'
      /\ In (CallSet field (formatDate d fmt)) (calls st')
      /\ values (rec st') !! field = Some (VStr (formatDate d fmt)) in
  rewritten (before rt field b (Some fmt) options st)
  /\ rewritten (after rt field b (Some fmt) options st)
  /\ rewritten (between rt field b e (Some fmt) options st).
Proof.
  intros Hread Hfmt I Rel Hb He rewritten.
  assert (G : given (Some fmt) = true).
  { simpl. destruct (String.eqb_spec fmt ""); [contradiction|reflexivity]. }
  assert (F : str_or (Some fmt) "" = fmt).
  { simpl. destruct (String.eqb_spec fmt ""); [contradiction|reflexivity]. }
  assert (T : truthy (VStr text) = true).
  { destruct text; [|reflexivity]. exfalso. apply (Rel 0). reflexivity. }
  assert (D : forall k, exists d,
            relative_date (clock rt k) (toLowerCase text) = Some d).
  { intros k. specialize (Rel (clock rt k)).
    destruct (relative_date (clock rt k) (toLowerCase text)) as [d|];
      [exists d; reflexivity|contradiction]. }
  subst rewritten. cbv beta. split; [|split].
  - destruct (before_run field b (Some fmt) options st (VStr text) false
                Hread (or_intror eq_refl) Hb (or_introl G))
      as [valid [st' [R O]]].
    rewrite T in O.
    destruct (D (snd (resolve rt b (tick st)))) as [d Dd].
    rewrite (after_value_rewrites _ _ _ _ _ d I T) in O;
      [|rewrite G; reflexivity|exact Dd].
    rewrite F in O. apply rewritten_and_reported in O as [O1 O2].
    exists (snd (resolve rt b (tick st))), d, valid, st'. auto.
  - destruct (after_run field b (Some fmt) options st (VStr text) false
                Hread (or_intror eq_refl) Hb (or_introl G))
      as [valid [st' [R O]]].
    rewrite T in O.
    destruct (D (snd (resolve rt b (tick st)))) as [d Dd].
    rewrite (after_value_rewrites _ _ _ _ _ d I T) in O;
      [|exact G|exact Dd].
    rewrite F in O. apply rewritten_and_reported in O as [O1 O2].
    exists (snd (resolve rt b (tick st))), d, valid, st'. auto.
  - destruct (between_run field b e (Some fmt) options st (VStr text) false
                Hread (or_intror eq_refl) Hb He (or_introl G))
      as [valid [st' [R O]]].
    rewrite T in O.
    destruct (D (snd (resolve rt e (snd (resolve rt b (tick st))))))
      as [d Dd].
    rewrite (after_value_rewrites _ _ _ _ _ d I T) in O;
      [|rewrite G; reflexivity|exact Dd].
    rewrite F in O. apply rewritten_and_reported in O as [O1 O2].
    exists (snd (resolve rt e (snd (resolve rt b (tick st))))), d, valid, st'.
    auto.
Qed.

(** *** Reduced capability mode *)

Lemma quiet_ret {A} (a : A) : quiet (ret a).
Proof. intros s. split; reflexivity. Qed.

Lemma quiet_throw {A} (e : JSError) : quiet (@throw A e).
Proof. intros s. split; reflexivity. Qed.

Lemma quiet_lift {A} (r : JSError + A) : quiet (lift r).
Proof. destruct r; [apply quiet_throw|apply quiet_ret]. Qed.

Lemma quiet_bind {A B} (c : M A) (k : A -> M B) :
  quiet c -> (forall a, quiet (k a)) -> quiet (bind c k).
Proof.
  intros Hc Hk s. unfold bind. specialize (Hc s).
  destruct (c s) as [a s'|e s']; simpl in Hc.
  - destruct (Hk a s') as [R C]. destruct Hc as [R' C']. split; congruence.
  - exact Hc.
Qed.

Lemma quiet_when_off (c : M unit) : quiet (when false c).
Proof. apply quiet_ret. Qed.

Lemma quiet_new_Date : quiet (new_Date rt).
Proof. intros s. split; reflexivity. Qed.

Lemma quiet_parseDateArgument (arg : JSValue) : quiet (parseDateArgument rt arg).
Proof.
  unfold parseDateArgument. destruct (negb (truthy arg)); [apply quiet_ret|].
  apply quiet_bind; [apply quiet_new_Date|intros now].
  apply quiet_bind; [apply quiet_lift|intros lower; apply quiet_ret].
Qed.

Lemma quiet_render_bound (d : option Date) (bound : JSValue)
    (fmt : option string) : quiet (render_bound d bound fmt).
Proof.
  unfold render_bound. destruct d as [d|]; [|apply quiet_ret].
  destruct (given fmt); [apply quiet_ret|apply quiet_lift].
Qed.

Create HintDb quiet.
#[local] Hint Resolve quiet_ret quiet_throw quiet_lift quiet_when_off
  quiet_new_Date quiet_parseDateArgument quiet_render_bound : quiet.

(** Resolving a bound, and resolving the field value when the immediate
    rewrite is guarded off, touch nothing. *)
Lemma quiet_bound (b : JSValue) :
  quiet (if isDate rt b then ret (parseDate rt b) else parseDateArgument rt b).
Proof. destruct (isDate rt b); auto with quiet. Qed.

Lemma quiet_value (cond : bool) (field : string) (value : JSValue)
    (fmt : string) :
  cond = false ->
  quiet (if isDate rt (text_of value) then ret (parseDate rt (text_of value))
         else
           parsedDate <- parseDateArgument rt value ;;
           match parsedDate with
           | Some d =>
               when cond (record_set field (formatDate d fmt)) ;;; ret (Some d)
           | None => ret None
           end).
Proof.
  intros ->. destruct (isDate rt (text_of value)); [auto with quiet|].
  apply quiet_bind; [auto with quiet|intros [d|]]; [|auto with quiet].
  apply quiet_bind; auto with quiet.
Qed.

Lemma quiet_when (b : bool) (c : M unit) : b = false -> quiet (when b c).
Proof. intros ->. apply quiet_ret. Qed.

Lemma untouched_after_read {A} (field : string) (k : JSValue * bool -> M A)
    (st : State) (r : JSValue * bool) :
  read_field field st = Ret r st ->
  quiet (k r) ->
  rec (final (bind (read_field field) k st)) = rec st
  /\ calls (final (bind (read_field field) k st)) = calls st.
Proof. intros H Q. unfold bind. rewrite H. apply Q. Qed.

(** X18. In reduced capability mode [before], [between] and [format]
    leave the record and its annotations untouched, on every input. *)
Lemma reduced_mode_untouched (field : string) (b e : JSValue)
    (dateFormat : option string) (options : Options) (st : State)
    (value : JSValue) :
  read_field field st = Ret (value, true) st ->
  (rec (final (before rt field b dateFormat options st)) = rec st
   /\ calls (final (before rt field b dateFormat options st)) = calls st)
  /\ (rec (final (between rt field b e dateFormat options st)) = rec st
      /\ calls (final (between rt field b e dateFormat options st)) = calls st)
  /\ (rec (final (format rt field dateFormat options st)) = rec st
      /\ calls (final (format rt field dateFormat options st)) = calls st).
Proof.
  intros Hread. split; [|split].
  - unfold before. apply (untouched_after_read _ _ _ _ Hread). cbv beta iota.
    apply quiet_bind.
    + destruct (truthy value); [|auto with quiet].
      apply quiet_bind; [apply quiet_bound|intros d1].
      apply quiet_bind; [|intros d2; auto with quiet].
      apply quiet_value. apply andb_false_r.
    + intros [valid d]. apply quiet_bind; [|auto with quiet].
      apply quiet_when. cbn [negb]. rewrite !andb_false_r. reflexivity.
  - unfold between. apply (untouched_after_read _ _ _ _ Hread). cbv beta iota.
    apply quiet_bind.
    + destruct (truthy value); [|auto with quiet].
      apply quiet_bind; [apply quiet_bound|intros d1].
      apply quiet_bind; [apply quiet_bound|intros d2].
      apply quiet_bind; [|intros d3; auto with quiet].
      apply quiet_value. apply andb_false_r.
    + intros [[valid d1] d2]. apply quiet_bind; [|auto with quiet].
      apply quiet_when. cbn [negb]. rewrite !andb_false_r. reflexivity.
  - unfold format. apply (untouched_after_read _ _ _ _ Hread). cbv beta iota.
    apply quiet_bind.
    + destruct (truthy value); [|auto with quiet].
      apply quiet_bind; [auto with quiet|intros [d|]]; [auto with quiet|].
      destruct (parseDate rt (text_of value)); auto with quiet.
    + intros formatted. apply quiet_bind.
      * apply quiet_when. cbn [negb]. rewrite !andb_false_r. reflexivity.
      * intros _. apply quiet_bind; [|auto with quiet].
        apply quiet_when. cbn [negb]. rewrite !andb_false_r. reflexivity.
Qed.

End DateTheorems.

(* ------------------------------------------------------------------ *)
(** *** The fallback of [formatDate] *)
(* ------------------------------------------------------------------ *)

(** How many components a format yields does not depend on the date. *)
Lemma components_count (y m d y' m' d' format : string) :
  length (components_of y m d format) = length (components_of y' m' d' format).
Proof.
  unfold components_of. rewrite !length_flat_map. f_equal.
  apply map_ext. intros part. unfold component.
  destruct (includes "y" part); [reflexivity|].
  destruct (includes "m" part); [reflexivity|].
  destruct (includes "d" part); reflexivity.
Qed.

(** On a malformed format the result is the year as the format's tokens
    rendered it, then the month and the day padded to two digits; the year
    is the full one unless the format holds "yy" without "yyyy". *)
Lemma formatDate_fallback_shape (date : Date) (dateFormat : string) :
  dateFormat <> "" ->
  length (components_of "" "" "" (toLowerCase dateFormat)) <> 3%nat ->
  let format := toLowerCase dateFormat in
  let year :=
    if includes "yyyy" format then num_toString (getFullYear date)
    else if includes "yy" format then sliceLast2 (num_toString (getFullYear date))
    else num_toString (getFullYear date) in
  let day :=
    if includes "dd" format then padStart0 2 (num_toString (getDate date))
    else num_toString (getDate date) in
  formatDate date dateFormat
  = year +:+ "-" +:+ padStart0 2 (num_toString (num_add (getMonth date) 1))
         +:+ "-" +:+ padStart0 2 day.
Proof.
  intros N C format year day. unfold formatDate.
  destruct (String.eqb_spec dateFormat ""); [contradiction|].
  fold format. fold year. fold day.
  match goal with
  | |- context [components_of ?y ?m ?d format] =>
      rewrite (components_count y m d "" "" "" format)
  end.
  destruct (Nat.eqb_spec (length (components_of "" "" "" format)) 3);
    [contradiction|reflexivity].
Qed.

(* ------------------------------------------------------------------ *)
(** *** StringValidator *)
(* ------------------------------------------------------------------ *)

Section StringTheorems.

Import StringValidator.

Lemma ssnPattern_all_digits (s : string) :
  ssnPattern s = true -> all_digits s = true.
Proof.
  unfold ssnPattern. intros H.
  repeat (apply andb_true_iff in H as [H ?]).
  destruct s as [|c1 [|c2 [|c3 [|c4 [|c5 [|c6 [|c7 [|c8 [|c9 [|c10 s]]]]]]]]]];
    try discriminate.
  simpl in *.
  repeat match goal with
         | Q : _ && _ = true |- _ => apply andb_true_iff in Q as [? ?]
         end.
  repeat match goal with
         | Q : is_digit _ = true |- _ => rewrite Q; clear Q
         end.
  reflexivity.
Qed.

Lemma matchesPattern_verdict (field : string) (pattern : string -> bool)
    (options : Options) (st : State) (text : string) (lk : bool) :
  read_text field st = Ret (VStr text, lk) st ->
  result (matchesPattern field pattern options st)
  = inr (if truthy (VStr text) then pattern text else false).
Proof.
  intros Hread. unfold matchesPattern. unfold bind at 1. rewrite Hread.
  cbv beta iota. cbn [toString].
  match goal with |- result ((when ?b _ ;;; _) _) = _ => destruct b end;
    reflexivity.
Qed.

(** C10. [isSSN] tests the pattern against the raw field value: the
    digits-only text it computes travels in [preprocessedValue], which
    [matchesPattern] never reads.  So a value with a separator in it is
    refused, "123-45-6789" among them, although its digits alone,
    "123456789", are accepted. *)
Theorem isSSN_tests_raw_value (field text : string) (options : Options)
    (st : State) (lk : bool) :
  read_text field st = Ret (VStr text, lk) st ->
  (forall (pattern : string -> bool) (o : Options) (pre : option string),
     matchesPattern field pattern
       (mkOptions (addError o) (validateOnEmpty o) (errorMsg o) pre) st
     = matchesPattern field pattern o st)
  /\ result (isSSN field options st) = inr (ssnPattern text)
  /\ (all_digits text = false -> result (isSSN field options st) = inr false)
  /\ ssnPattern "123-45-6789" = false
  /\ ssnPattern (digits_only "123-45-6789") = true
  /\ ssnPattern "123456789" = true.
Proof.
  intros Hread.
  assert (V : result (isSSN field options st) = inr (ssnPattern text)).
  { unfold isSSN. unfold bind at 1. rewrite Hread. cbv beta iota.
    unfold bind at 1. cbn [call_replace_nondigits lift ret].
    rewrite (matchesPattern_verdict _ _ _ _ _ _ Hread).
    destruct text; reflexivity. }
  split; [|split; [exact V|split; [|repeat split]]].
  - intros pattern o pre. reflexivity.
  - intros D. rewrite V. f_equal.
    destruct (ssnPattern text) eqn:E; [|reflexivity].
    apply ssnPattern_all_digits in E. congruence.
Qed.

End StringTheorems.

(* ------------------------------------------------------------------ *)
(** *** Runs on the sample records *)
(* ------------------------------------------------------------------ *)

Import Samples.

(** C5. On the malformed format "yy" (one component instead of three)
    [formatDate] falls back to year-month-day with the year it had already
    cut to two digits: 2024-03-15 is rendered "24-03-15", not the ISO form
    "2024-03-15" that "banana" yields; [validate] writes that text to the
    record. *)
Theorem formatDate_fallback_short_year :
  length (components_of "24" "3" "15" (toLowerCase "yy")) = 1%nat
  /\ formatDate ides "yy" = "24-03-15"
  /\ toISOString ides = inr "2024-03-15T12:00:00.000Z"
  /\ formatDate ides "banana" = "2024-03-15"
  /\ calls (final (validate rt0 "date" (Some "yy") no_options linked_date))
     = [CallSet "date" "24-03-15"].
Proof. repeat split; vm_compute; reflexivity. Qed.

(** C6. In reduced capability mode [validate] and [after] still call
    [record.set]: [validate] writes the formatted date, [after] the
    rendered relative value, where [before] on the same input writes
    nothing. *)
Theorem reduced_mode_still_sets :
  read_field "date" detached_date = Ret (VStr "2024-03-15", true) detached_date
  /\ calls (final (validate rt0 "date" (Some "MM/DD/YYYY") no_options detached_date))
     = [CallSet "date" "03/15/2024"]
  /\ read_field "date" detached_relative
     = Ret (VStr "now+5days", true) detached_relative
  /\ calls (final (after rt0 "date" (VStr "2024-01-01") (Some "MM/DD/YYYY")
                     no_options detached_relative))
     = [CallSet "date" "03/20/2024"]
  /\ calls (final (before rt0 "date" (VStr "2024-01-01") (Some "MM/DD/YYYY")
                     no_options detached_relative))
     = [].
Proof. repeat split; vm_compute; reflexivity. Qed.

(** C2, as stated, fails: on a record that offers neither read, every
    entry point lets a TypeError escape. *)
Lemma unreadable_record_throws :
  result (validate rt0 "date" None no_options unreadable) = inl TypeError
  /\ result (before rt0 "date" (VStr "2024-01-01") None no_options unreadable)
     = inl TypeError
  /\ result (after rt0 "date" (VStr "2024-01-01") None no_options unreadable)
     = inl TypeError
  /\ result (between rt0 "date" (VStr "2024-01-01") (VStr "now+10days") None
               no_options unreadable) = inl TypeError
  /\ result (format rt0 "date" None no_options unreadable) = inl TypeError
  /\ result (evaluateAndFormat rt0 "date" VALIDATE None VUndefined no_options
               unreadable) = inl TypeError.
Proof. repeat split; vm_compute; reflexivity. Qed.

(** Other exceptions that escape: a number in the cell (its
    [toLowerCase] is missing in [parseDateArgument]), a dispatch to
    [before] without [validationArgs], and a bound carried out of the
    range of dates when the error message needs its ISO form. *)
Lemma exceptions_on_odd_shapes :
  result (validate rt0 "date" None no_options (start (record_with true (VNum 5))))
  = inl TypeError
  /\ result (evaluateAndFormat rt0 "date" BEFORE (Some "MM/DD/YYYY") VUndefined
               no_options linked_relative) = inl TypeError
  /\ result (before rt0 "date" (VStr "now+99999999999days") None report_errors
               linked_relative) = inl RangeError.
Proof. repeat split; vm_compute; reflexivity. Qed.

(** C7, as stated, fails: in reduced capability mode [before] leaves a
    relative value in place although a format was supplied. *)
Lemma detached_before_does_not_rewrite :
  isDate rt0 (VStr "now+5days") = false
  /\ relative_date (clock0 0) (toLowerCase "now+5days")
     = Some (Instant 1710936000000)
  /\ result (before rt0 "date" (VStr "2024-01-01") (Some "MM/DD/YYYY")
               no_options detached_relative) = inr false
  /\ calls (final (before rt0 "date" (VStr "2024-01-01") (Some "MM/DD/YYYY")
                     no_options detached_relative)) = []
  /\ values (rec (final (before rt0 "date" (VStr "2024-01-01")
                           (Some "MM/DD/YYYY") no_options detached_relative)))
       !! "date"
     = Some (VStr "now+5days").
Proof. repeat split; vm_compute; reflexivity. Qed.

(* ------------------------------------------------------------------ *)
(** *** The theorems at work on the samples *)
(* ------------------------------------------------------------------ *)

Lemma between_open_interval_witness :
  (read_field "date" linked_relative
   = Ret (VStr "now+5days", false) linked_relative
   /\ truthy (VStr "now+5days") = true
   /\ resolve rt0 (VStr "2024-01-01") (tick linked_relative)
      = (Some (Instant 1704110400000), 0%nat)
   /\ resolve rt0 (VStr "now+10days") 0 = (Some (Instant 1711368000000), 1%nat)
   /\ resolve_value rt0 (VStr "now+5days") 1
      = (Some (Instant 1710936000001), 2%nat))
  /\ result (between rt0 "date" (VStr "2024-01-01") (VStr "now+10days") None
               report_errors linked_relative) = inr true.
Proof.
  assert (H1 : read_field "date" linked_relative
               = Ret (VStr "now+5days", false) linked_relative)
    by (vm_compute; reflexivity).
  assert (H2 : truthy (VStr "now+5days") = true) by reflexivity.
  assert (H3 : resolve rt0 (VStr "2024-01-01") (tick linked_relative)
               = (Some (Instant 1704110400000), 0%nat))
    by (vm_compute; reflexivity).
  assert (H4 : resolve rt0 (VStr "now+10days") 0
               = (Some (Instant 1711368000000), 1%nat))
    by (vm_compute; reflexivity).
  assert (H5 : resolve_value rt0 (VStr "now+5days") 1
               = (Some (Instant 1710936000001), 2%nat))
    by (vm_compute; reflexivity).
  split; [repeat split; assumption|].
  exact (proj1 (between_open_interval rt0 "date" "2024-01-01" "now+10days" None
                  report_errors linked_relative (VStr "now+5days") false
                  _ _ _ _ _ _ H1 H2 H3 H4 H5)).
Defined.


Lemma relative_expression_sample : RelativeExpression "now+5days".
Proof.
  apply (relative_expression "now+5days" "+" "5" "days").
  - reflexivity.
  - left; reflexivity.
  - discriminate.
  - reflexivity.
  - simpl. tauto.
Qed.


Lemma entry_points_return_witness :
  (read_field "date" linked_relative
   = Ret (VStr "now+5days", false) linked_relative
   /\ read_field "date" detached_relative
      = Ret (VStr "now+5days", true) detached_relative
   /\ tame (VStr "now+5days") = true
   /\ tame (VStr "2024-01-01") = true
   /\ tame (VStr "now+10days") = true
   /\ in_range (fst (resolve rt0 (VStr "2024-01-01") 0))
   /\ in_range (fst (resolve rt0 (VStr "now+10days")
                       (snd (resolve rt0 (VStr "2024-01-01") 0))))
   /\ between_args (VArr [VStr "2024-01-01"; VStr "now+10days"])
      = (VStr "2024-01-01", VStr "now+10days"))
  /\ (returns (validate rt0 "date" (Some "MM/DD/YYYY") report_errors
                 linked_relative)
      /\ returns (after rt0 "date" (VStr "2024-01-01") (Some "MM/DD/YYYY")
                    report_errors linked_relative)
      /\ returns (evaluateAndFormat rt0 "date" BETWEEN (Some "MM/DD/YYYY")
                    (VArr [VStr "2024-01-01"; VStr "now+10days"]) report_errors
                    linked_relative))
  /\ (returns (before rt0 "date" (VStr "2024-01-01") (Some "MM/DD/YYYY")
                 report_errors detached_relative)
      /\ returns (between rt0 "date" (VStr "2024-01-01") (VStr "now+10days")
                    (Some "MM/DD/YYYY") report_errors detached_relative)
      /\ returns (format rt0 "date" (Some "MM/DD/YYYY") report_errors
                    detached_relative)
      /\ returns (evaluateAndFormat rt0 "date" BETWEEN (Some "MM/DD/YYYY")
                    (VArr [VStr "2024-01-01"; VStr "now+10days"]) report_errors
                    detached_relative)).
Proof.
  assert (H1 : read_field "date" linked_relative
               = Ret (VStr "now+5days", false) linked_relative)
    by (vm_compute; reflexivity).
  assert (H1' : read_field "date" detached_relative
                = Ret (VStr "now+5days", true) detached_relative)
    by (vm_compute; reflexivity).
  assert (H2 : in_range (fst (resolve rt0 (VStr "2024-01-01") 0)))
    by (vm_compute; discriminate).
  assert (H3 : in_range (fst (resolve rt0 (VStr "now+10days")
                   (snd (resolve rt0 (VStr "2024-01-01") 0)))))
    by (vm_compute; discriminate).
  split; [repeat split; assumption|].
  split.
  - exact (proj2 (entry_points_return rt0 "date" (Some "MM/DD/YYYY")
                    report_errors linked_relative
                    (VStr "now+5days") false (VStr "2024-01-01")
                    (VStr "now+10days")
                    BETWEEN (VArr [VStr "2024-01-01"; VStr "now+10days"])
                    H1 eq_refl eq_refl eq_refl H2 H3 eq_refl) eq_refl).
  - exact (proj1 (entry_points_return rt0 "date" (Some "MM/DD/YYYY")
                    report_errors detached_relative
                    (VStr "now+5days") true (VStr "2024-01-01")
                    (VStr "now+10days")
                    BETWEEN (VArr [VStr "2024-01-01"; VStr "now+10days"])
                    H1' eq_refl eq_refl eq_refl H2 H3 eq_refl)).
Defined.

Lemma relative_value_rewritten_witness :
  (read_field "date" linked_relative
   = Ret (VStr "now+5days", false) linked_relative
   /\ "MM/DD/YYYY" <> ""
   /\ isDate rt0 (VStr "now+5days") = false
   /\ (forall now, relative_date now (toLowerCase "now+5days") <> None)
   /\ tame (VStr "2024-01-01") = true
   /\ tame (VStr "now+10days") = true)
  /\ (exists k d valid st',
        relative_date (clock rt0 k) (toLowerCase "now+5days") = Some d
        /\ before rt0 "date" (VStr "2024-01-01") (Some "MM/DD/YYYY") no_options
             linked_relative = Ret valid st'
        /\ In (CallSet "date" (formatDate d "MM/DD/YYYY")) (calls st')
        /\ values (rec st') !! "date" = Some (VStr (formatDate d "MM/DD/YYYY")))
  /\ result (before rt0 "date" (VStr "2024-01-01") (Some "MM/DD/YYYY")
               no_options linked_relative) = inr false
  /\ calls (final (before rt0 "date" (VStr "2024-01-01") (Some "MM/DD/YYYY")
                     no_options linked_relative))
     = [CallSet "date" "03/20/2024"].
Proof.
  assert (H1 : read_field "date" linked_relative
               = Ret (VStr "now+5days", false) linked_relative)
    by (vm_compute; reflexivity).
  assert (H2 : "MM/DD/YYYY" <> "") by discriminate.
  assert (H3 : isDate rt0 (VStr "now+5days") = false) by reflexivity.
  assert (H4 : forall now, relative_date now (toLowerCase "now+5days") <> None).
  { intros now.
    destruct (relative_expression_resolves "now+5days" now
                relative_expression_sample) as [d ->].
    discriminate. }
  split; [repeat split; assumption|].
  split; [|split; vm_compute; reflexivity].
  exact (proj1 (relative_value_rewritten rt0 "date" "MM/DD/YYYY" "now+5days"
                  (VStr "2024-01-01") (VStr "now+10days") no_options
                  linked_relative H1 H2 H3 H4 eq_refl eq_refl)).
Defined.

Lemma validate_format_write_only_formatted_witness :
  (read_field "date" linked_empty = Ret (VStr "", false) linked_empty
   /\ truthy (VStr "") = false
   /\ flag (validateOnEmpty report_errors) = false
   /\ read_field "date" linked_junk = Ret (VStr "banana", false) linked_junk
   /\ relative_date (clock rt0 (tick linked_junk)) (toLowerCase "banana") = None
   /\ parseDate rt0 (VStr "banana") = None)
  /\ validate rt0 "date" None report_errors linked_empty = Ret false linked_empty
  /\ values (rec (final (validate rt0 "date" None report_errors linked_junk)))
     = values (rec linked_junk)
  /\ values (rec (final (format rt0 "date" None report_errors linked_junk)))
     = values (rec linked_junk).
Proof.
  assert (H1 : read_field "date" linked_empty = Ret (VStr "", false) linked_empty)
    by (vm_compute; reflexivity).
  assert (H2 : read_field "date" linked_junk = Ret (VStr "banana", false) linked_junk)
    by (vm_compute; reflexivity).
  assert (H3 : relative_date (clock rt0 (tick linked_junk)) (toLowerCase "banana")
               = None) by reflexivity.
  assert (H4 : parseDate rt0 (VStr "banana") = None) by reflexivity.
  split; [repeat split; assumption|].
  destruct (validate_format_write_only_formatted rt0 "date" None report_errors
              linked_empty (VStr "") false linked_junk "banana" false
              linked_relative H1 eq_refl eq_refl H2 H3 H4)
    as [A [_ [_ [B C]]]].
  split; [exact A|split; [exact B|exact C]].
Defined.

Lemma between_malformed_args_fail_witness :
  (forall a b, VStr "now" <> VArr [a; b])
  /\ between_args (VStr "now") = (VNull, VNull)
  /\ result (evaluateAndFormat rt0 "date" BETWEEN None (VStr "now") report_errors
               linked_relative) = inr false.
Proof.
  assert (H1 : forall a b, VStr "now" <> VArr [a; b]) by discriminate.
  split; [exact H1|].
  destruct (between_malformed_args_fail rt0 "date" None (VStr "now")
              report_errors linked_relative H1) as [A [_ [_ F]]].
  split; [exact A|].
  apply (F (VStr "now+5days") false); [vm_compute; reflexivity|reflexivity].
Defined.

Lemma isSSN_tests_raw_value_witness :
  StringValidator.read_text "date" linked_ssn
  = Ret (VStr "123-45-6789", false) linked_ssn
  /\ result (StringValidator.isSSN "date"
               (StringValidator.mkOptions (Some true) None None None) linked_ssn)
     = inr false.
Proof.
  assert (H1 : StringValidator.read_text "date" linked_ssn
               = Ret (VStr "123-45-6789", false) linked_ssn)
    by (vm_compute; reflexivity).
  split; [exact H1|].
  destruct (isSSN_tests_raw_value "date" "123-45-6789"
              (StringValidator.mkOptions (Some true) None None None)
              linked_ssn false H1) as [_ [V _]].
  exact V.
Defined.

(* ================================================================== *)
(** ** Further properties of the date validators *)
(* ================================================================== *)

(* ------------------------------------------------------------------ *)
(** *** The calendar behind the relative dates *)
(* ------------------------------------------------------------------ *)

Lemma days_from_civil_linear (y m d d' : Z) :
  days_from_civil y m d' = days_from_civil y m d + (d' - d).
Proof. unfold days_from_civil. destruct (m <=? 2), (2 <? m); lia. Qed.

(** The civil date of a day number is a real date, and it numbers back
    to the day it came from. *)
Lemma civil_round_trip (z : Z) :
  let '(y, m, d) := civil_from_days z in
  1 <= m <= 12 /\ 1 <= d <= 31 /\ days_from_civil y m d = z.
Proof.
  unfold civil_from_days, days_from_civil.
  set (z' := z + 719468).
  set (era := z' / 146097).
  set (doe := z' - era * 146097).
  assert (Hdoe : 0 <= doe < 146097)
    by (subst doe era; Z.div_mod_to_equations; lia).
  set (yoe := (doe - doe / 1460 + doe / 36524 - doe / 146096) / 365).
  assert (Hyoe : 0 <= yoe <= 399) by (subst yoe; Z.div_mod_to_equations; lia).
  set (doy := doe - (365 * yoe + yoe / 4 - yoe / 100)).
  assert (Hdoy : 0 <= doy <= 365)
    by (subst doy yoe; Z.div_mod_to_equations; lia).
  set (mp := (5 * doy + 2) / 153).
  assert (Hmp : 0 <= mp <= 11) by (subst mp; Z.div_mod_to_equations; lia).
  set (d := doy - (153 * mp + 2) / 5 + 1).
  assert (Hd : 1 <= d <= 31) by (subst d mp; Z.div_mod_to_equations; lia).
  assert (Hera : (yoe + era * 400) / 400 = era)
    by (Z.div_mod_to_equations; lia).
  destruct (mp <? 10) eqn:M.
  - apply Z.ltb_lt in M.
    destruct (mp + 3 <=? 2) eqn:M2; [apply Z.leb_le in M2; lia|].
    destruct (2 <? mp + 3) eqn:M3; [|apply Z.ltb_ge in M3; lia].
    split; [lia|]. split; [lia|].
    replace (mp + 3 - 3) with mp by lia. rewrite Hera.
    replace (yoe + era * 400 - era * 400) with yoe by lia.
    subst d doy z' doe. lia.
  - apply Z.ltb_ge in M.
    destruct (mp - 9 <=? 2) eqn:M2; [|apply Z.leb_gt in M2; lia].
    destruct (2 <? mp - 9) eqn:M3; [apply Z.ltb_lt in M3; lia|].
    split; [lia|]. split; [lia|].
    replace (mp - 9 + 9) with mp by lia.
    replace (yoe + era * 400 + 1 - 1) with (yoe + era * 400) by lia.
    rewrite Hera.
    replace (yoe + era * 400 - era * 400) with yoe by lia.
    subst d doy z' doe. lia.
Qed.

Lemma MonthFromTime_range (t : Z) : 0 <= MonthFromTime t <= 11.
Proof.
  unfold MonthFromTime. pose proof (civil_round_trip (Day t)) as H.
  destruct (civil_from_days (Day t)) as [[y m] d]. simpl. lia.
Qed.

(** [MakeDay] on the year and month of [t] counts days from the day of
    [t]. *)
Lemma MakeDay_of_time (t dt : Z) :
  MakeDay (YearFromTime t) (MonthFromTime t) dt = Day t + (dt - DateFromTime t).
Proof.
  unfold MakeDay, YearFromTime, MonthFromTime, DateFromTime.
  pose proof (civil_round_trip (Day t)) as H.
  destruct (civil_from_days (Day t)) as [[y m] d]. cbn [fst snd].
  destruct H as [Hm [Hd H]].
  replace ((m - 1) / 12) with 0 by (Z.div_mod_to_equations; lia).
  replace ((m - 1) mod 12 + 1) with m by (Z.div_mod_to_equations; lia).
  rewrite Z.add_0_r.
  rewrite (days_from_civil_linear y m d 1). lia.
Qed.

Lemma setDate_shift (t n : Z) :
  setDate t (DateFromTime t + n) = TimeClip (t + n * msPerDay).
Proof.
  unfold setDate. rewrite MakeDay_of_time. f_equal.
  unfold MakeDate, Day, TimeWithinDay, msPerDay.
  Z.div_mod_to_equations. lia.
Qed.

Lemma setMonth_years (t k : Z) :
  setMonth t (MonthFromTime t + 12 * k) = setFullYear t (YearFromTime t + k).
Proof.
  unfold setMonth, setFullYear. f_equal. f_equal.
  pose proof (MonthFromTime_range t) as R. unfold MakeDay.
  replace ((MonthFromTime t + 12 * k) / 12) with k
    by (Z.div_mod_to_equations; lia).
  replace ((MonthFromTime t + 12 * k) mod 12) with (MonthFromTime t)
    by (Z.div_mod_to_equations; lia).
  replace (MonthFromTime t / 12) with 0 by (Z.div_mod_to_equations; lia).
  replace (MonthFromTime t mod 12) with (MonthFromTime t)
    by (Z.div_mod_to_equations; lia).
  f_equal. f_equal. f_equal. lia.
Qed.

(* ------------------------------------------------------------------ *)
(** *** Relative dates *)
(* ------------------------------------------------------------------ *)

Lemma relative_match_parts (sign : ascii) (amount unit : string) (u : Unit) :
  sign = "+"%char \/ sign = "-"%char ->
  amount <> "" ->
  all_digits amount = true ->
  match_unit unit = Some u ->
  relative_match ("now" +:+ String sign (amount +:+ unit))
  = Some (Ascii.eqb sign "+", amount, u).
Proof.
  intros S N A U. unfold relative_match. simpl.
  assert (Ascii.eqb sign "+" || Ascii.eqb sign "-" = true) as ->
    by (destruct S as [->| ->]; reflexivity).
  rewrite (span_digits_stops amount unit A).
  - destruct (String.eqb_spec amount ""); [contradiction|].
    rewrite U. reflexivity.
  - assert (In unit ["day"; "days"; "month"; "months"; "year"; "years"]) as I
      by (apply match_unit_words; congruence).
    simpl in I. destruct I as [<-|[<-|[<-|[<-|[<-|[<-|[]]]]]]]; reflexivity.
Qed.

Lemma relative_date_parts (now : Z) (sign : ascii) (amount unit : string)
    (u : Unit) :
  sign = "+"%char \/ sign = "-"%char ->
  amount <> "" ->
  all_digits amount = true ->
  match_unit unit = Some u ->
  relative_date now ("now" +:+ String sign (amount +:+ unit))
  = let offset := if Ascii.eqb sign "+" then parseInt amount
                  else - parseInt amount in
    match u with
    | UDay => Some (setDate now (DateFromTime now + offset))
    | UMonth => Some (setMonth now (MonthFromTime now + offset))
    | UYear => Some (setFullYear now (YearFromTime now + offset))
    end.
Proof.
  intros S N A U. unfold relative_date.
  rewrite (relative_match_parts sign amount unit u S N A U).
  reflexivity.
Qed.

Lemma text_with_offset_is_truthy (text rest : string) :
  toLowerCase text = "now" +:+ rest -> truthy (VStr text) = true.
Proof. destruct text; [discriminate|reflexivity]. Qed.

Section RelativeDates.

Variable rt : Runtime.

(** X1. A value or bound [now+Ndays] or [now-Ndays] (letter case
    ignored) resolves, with one reading of the clock, to the calendar date
    N days after or before the clock's: unless the result is an invalid
    date, the year, month and day its getters give are those of the N-th
    day after the day the getters give for the clock reading, whatever the
    month lengths and leap years in between.  The result is a valid date
    whenever the clock and the offset stay a day inside the range of time
    values. *)
Theorem relative_days_offset (text : string) (sign : ascii)
    (amount unit : string) (st : State) :
  toLowerCase text = "now" +:+ String sign (amount +:+ unit) ->
  sign = "+"%char \/ sign = "-"%char ->
  amount <> "" ->
  all_digits amount = true ->
  unit = "day" \/ unit = "days" ->
  let now := clock rt (tick st) in
  let n := if Ascii.eqb sign "+" then parseInt amount else - parseInt amount in
  let day := days_from_civil (YearFromTime now) (MonthFromTime now + 1)
               (DateFromTime now) + n in
  exists d,
    parseDateArgument rt (VStr text) st
    = Ret (Some d) (set_tick (S (tick st)) st)
    /\ (d = InvalidDate
        \/ (getFullYear d = Some (fst (fst (civil_from_days day)))
            /\ getMonth d = Some (snd (fst (civil_from_days day)) - 1)
            /\ getDate d = Some (snd (civil_from_days day))))
    /\ (Z.abs now + (Z.abs n + 1) * msPerDay <= maxTime -> d <> InvalidDate).
Proof.
  intros L S N A U now n day.
  rewrite (parseDateArgument_text rt text st (text_with_offset_is_truthy _ _ L)).
  rewrite L, (relative_date_parts _ sign amount unit UDay S N A)
    by (destruct U as [-> | ->]; reflexivity).
  cbv zeta. fold now. fold n. rewrite setDate_shift.
  eexists. split; [reflexivity|].
  assert (Hday : day = Day (now + n * msPerDay)).
  { subst day. unfold YearFromTime, MonthFromTime, DateFromTime.
    pose proof (civil_round_trip (Day now)) as H.
    destruct (civil_from_days (Day now)) as [[y m] d0]. cbn [fst snd].
    replace (m - 1 + 1) with m by lia.
    destruct H as (_ & _ & ->).
    unfold Day, msPerDay. Z.div_mod_to_equations. lia. }
  unfold TimeClip.
  destruct (Z.abs (now + n * msPerDay) <=? maxTime) eqn:E.
  - split; [right|discriminate].
    cbn [getFullYear getMonth getDate].
    unfold YearFromTime, MonthFromTime, DateFromTime. rewrite <- Hday.
    repeat split; reflexivity.
  - split; [left; reflexivity|].
    intros R. apply Z.leb_gt in E. unfold msPerDay in *. lia.
Qed.

(** X2. An offset of 12 k months resolves to the same date as an offset
    of k years in the same direction. *)
Theorem relative_months_years (text1 text2 : string) (sign : ascii)
    (amount1 unit1 amount2 unit2 : string) (st : State) :
  toLowerCase text1 = "now" +:+ String sign (amount1 +:+ unit1) ->
  toLowerCase text2 = "now" +:+ String sign (amount2 +:+ unit2) ->
  sign = "+"%char \/ sign = "-"%char ->
  amount1 <> "" -> all_digits amount1 = true ->
  amount2 <> "" -> all_digits amount2 = true ->
  unit1 = "month" \/ unit1 = "months" ->
  unit2 = "year" \/ unit2 = "years" ->
  parseInt amount1 = 12 * parseInt amount2 ->
  parseDateArgument rt (VStr text1) st = parseDateArgument rt (VStr text2) st.
Proof.
  intros L1 L2 S N1 A1 N2 A2 U1 U2 E.
  rewrite (parseDateArgument_text rt text1 st (text_with_offset_is_truthy _ _ L1)).
  rewrite (parseDateArgument_text rt text2 st (text_with_offset_is_truthy _ _ L2)).
  rewrite L1, L2.
  rewrite (relative_date_parts _ sign amount1 unit1 UMonth S N1 A1)
    by (destruct U1 as [-> | ->]; reflexivity).
  rewrite (relative_date_parts _ sign amount2 unit2 UYear S N2 A2)
    by (destruct U2 as [-> | ->]; reflexivity).
  cbv zeta. do 2 f_equal. rewrite E.
  destruct (Ascii.eqb sign "+").
  - apply setMonth_years.
  - replace (- (12 * parseInt amount2)) with (12 * - parseInt amount2) by lia.
    apply setMonth_years.
Qed.

End RelativeDates.

(* ------------------------------------------------------------------ *)
(** *** What a verdict of [validate] says about the record *)
(* ------------------------------------------------------------------ *)

Section ValidateVerdict.

Variable rt : Runtime.

Lemma isDate_parses (value : JSValue) :
  isDate rt value = true -> exists d, parseDate rt value = Some d.
Proof.
  unfold isDate, parseDate.
  destruct (call_toLowerCase value); [discriminate|].
  destruct (relative_match s); [discriminate|].
  destruct (chrono_parseDate rt value); try discriminate. eauto.
Qed.

(** The closing steps of [validate], run from the state the resolution
    left. *)
Lemma validate_closing (field : string) (b2 : bool) (msg : string)
    (valid : bool) (formatted : string) (s1 : State) :
  (when (negb (String.eqb formatted "")) (record_set field formatted) ;;;
   when b2 (record_addError field msg) ;;;
   ret valid) s1
  = Ret valid
      (let s2 := if negb (String.eqb formatted "")
                 then final (record_set field formatted s1) else s1 in
       if b2 then final (record_addError field msg s2) else s2).
Proof.
  cbv [when bind ret]. destruct (negb (String.eqb formatted "")), b2; reflexivity.
Qed.

(** X3. [validate] rewrites the field exactly when it answers true: a
    true verdict comes with one [record.set] of a rendered date, which is
    not empty and is what the cell then holds, and with no annotation; a
    false verdict leaves every cell as it was. *)
Theorem validate_rewrites_iff_true (field : string)
    (dateFormat : option string) (options : Options) (st st' : State)
    (valid : bool) :
  validate rt field dateFormat options st = Ret valid st' ->
  if valid then
    exists d,
      let x := formatDate d (format_or_default dateFormat) in
      x <> ""
      /\ calls st' = (calls st ++ [CallSet field x])%list
      /\ values (rec st') = <[field := VStr x]> (values (rec st))
      /\ errors (rec st') = errors (rec st)
      /\ infos (rec st') = infos (rec st)
  else values (rec st') = values (rec st)
       /\ infos (rec st') = infos (rec st).
Proof.
  unfold validate. unfold bind at 1.
  destruct (read_field_cases field st) as [->|[value [lk ->]]]; [discriminate|].
  cbv beta iota.
  assert (Yes : forall (d : Date) (b : bool) (msg : string) (k : nat),
            (when (negb (String.eqb (formatDate d (format_or_default dateFormat)) ""))
               (record_set field (formatDate d (format_or_default dateFormat))) ;;;
             when (b && (negb true && flag (addError options) && negb lk))
               (record_addError field msg) ;;;
             ret true) (set_tick k st) = Ret valid st' ->
            if valid then
              exists d,
                let x := formatDate d (format_or_default dateFormat) in
                x <> ""
                /\ calls st' = (calls st ++ [CallSet field x])%list
                /\ values (rec st') = <[field := VStr x]> (values (rec st))
                /\ errors (rec st') = errors (rec st)
                /\ infos (rec st') = infos (rec st)
            else values (rec st') = values (rec st)
                 /\ infos (rec st') = infos (rec st)).
  { intros d b msg k. rewrite validate_closing.
    pose proof (formatDate_nonempty d (format_or_default dateFormat)) as N.
    destruct (String.eqb_spec (formatDate d (format_or_default dateFormat)) "");
      [contradiction|].
    cbn [negb andb]. rewrite andb_false_r. cbv zeta.
    intros [= <- <-]. exists d. cbv zeta.
    split; [exact N|]. split; [reflexivity|]. split; [reflexivity|].
    split; reflexivity. }
  assert (No : forall (b : bool) (msg : string) (k : nat),
            (when (negb (String.eqb "" ""))
               (record_set field "") ;;;
             when (b && (negb false && flag (addError options) && negb lk))
               (record_addError field msg) ;;;
             ret false) (set_tick k st) = Ret valid st' ->
            if valid then
              exists d,
                let x := formatDate d (format_or_default dateFormat) in
                x <> ""
                /\ calls st' = (calls st ++ [CallSet field x])%list
                /\ values (rec st') = <[field := VStr x]> (values (rec st))
                /\ errors (rec st') = errors (rec st)
                /\ infos (rec st') = infos (rec st)
            else values (rec st') = values (rec st)
                 /\ infos (rec st') = infos (rec st)).
  { intros b msg k. rewrite validate_closing. cbn [String.eqb negb]. cbv zeta.
    destruct (b && (true && flag (addError options) && negb lk));
      intros [= <- <-]; split; reflexivity. }
  destruct (truthy value) eqn:T.
  - unfold bind at 1. unfold bind at 1.
    destruct (parseDateArgument_outcome rt value st) as [[d [-> F]]|[[d ->]| ->]].
    + congruence.
    + destruct d as [d|].
      * apply Yes.
      * destruct (isDate rt (text_of value)) eqn:I.
        -- destruct (isDate_parses _ I) as [d ->]. apply Yes.
        -- apply No.
    + discriminate.
  - unfold bind at 1. cbn [ret]. rewrite <- (set_tick_same st) at 1. apply No.
Qed.

(** X4. An offset in days too large for the range of time values (more
    than 200 000 000 days from a clock inside the range) still validates:
    after the primary read, [validate] answers true and writes the
    rendering of an invalid date into the field, which is NaN-NaN-NaN
    under the default format. *)
Theorem out_of_range_offset_accepted (field text : string) (sign : ascii)
    (amount unit : string) (dateFormat : option string) (options : Options)
    (st : State) :
  read_field field st = Ret (VStr text, false) st ->
  toLowerCase text = "now" +:+ String sign (amount +:+ unit) ->
  sign = "+"%char \/ sign = "-"%char ->
  amount <> "" ->
  all_digits amount = true ->
  unit = "day" \/ unit = "days" ->
  Z.abs (clock rt (tick st)) <= maxTime ->
  200000000 < parseInt amount ->
  exists st',
    validate rt field dateFormat options st = Ret true st'
    /\ values (rec st') !! field
       = Some (VStr (formatDate InvalidDate (format_or_default dateFormat)))
    /\ formatDate InvalidDate (format_or_default None) = "NaN-NaN-NaN".
Proof.
  intros Hread L S N A U C Big.
  pose proof (text_with_offset_is_truthy _ _ L) as T.
  unfold validate. unfold bind at 1. rewrite Hread. cbv beta iota. rewrite T.
  unfold bind at 1. unfold bind at 1.
  rewrite (parseDateArgument_text rt text st T), L.
  rewrite (relative_date_parts _ sign amount unit UDay S N A)
    by (destruct U as [-> | ->]; reflexivity).
  cbv zeta. rewrite setDate_shift.
  assert (TimeClip (clock rt (tick st)
                    + (if Ascii.eqb sign "+" then parseInt amount
                       else - parseInt amount) * msPerDay) = InvalidDate) as ->.
  { unfold TimeClip.
    match goal with |- (if ?b then _ else _) = _ => destruct b eqn:E end;
      [|reflexivity].
    apply Z.leb_le in E. unfold maxTime, msPerDay in *.
    destruct (Ascii.eqb sign "+"); lia. }
  cbn [ret]. rewrite validate_closing.
  pose proof (formatDate_nonempty InvalidDate (format_or_default dateFormat)) as NE.
  destruct (String.eqb_spec (formatDate InvalidDate (format_or_default dateFormat)) "");
    [contradiction|].
  cbn [negb andb]. rewrite andb_false_r. cbv zeta.
  eexists. split; [reflexivity|]. split; [|vm_compute; reflexivity].
  cbn [final record_set update_record rec values].
  apply lookup_insert_eq.
Qed.

End ValidateVerdict.

(* ------------------------------------------------------------------ *)
(** *** The footprint of the entry points *)
(* ------------------------------------------------------------------ *)

(** Which accessor of the record an entry point may call is settled by
    the options and the format it is given.  The section carries a
    relation [R] on states that is kept by doing nothing, by one step after
    another and by a reading of the clock; each entry point then keeps [R]
    as soon as the accessors it may call do. *)
Section Footprint.

Variable rt : Runtime.
Variable R : State -> State -> Prop.
Hypothesis R_refl : forall s, R s s.
Hypothesis R_trans : forall s1 s2 s3, R s1 s2 -> R s2 s3 -> R s1 s3.
Hypothesis R_tick : forall s k, R s (set_tick k s).

Lemma keeps_ret {A} (a : A) : keeps R (ret a).
Proof. intros s. apply R_refl. Qed.

Lemma keeps_throw {A} (e : JSError) : keeps R (@throw A e).
Proof. intros s. apply R_refl. Qed.

Lemma keeps_lift {A} (r : JSError + A) : keeps R (lift r).
Proof. destruct r; [apply keeps_throw|apply keeps_ret]. Qed.

Lemma keeps_bind {A B} (c : M A) (k : A -> M B) :
  keeps R c -> (forall a, keeps R (k a)) -> keeps R (bind c k).
Proof.
  intros Hc Hk s. unfold bind. specialize (Hc s).
  destruct (c s) as [a s'|e s']; simpl in Hc.
  - apply (R_trans _ _ _ Hc). apply Hk.
  - exact Hc.
Qed.

Lemma keeps_when (b : bool) (c : M unit) :
  (b = true -> keeps R c) -> keeps R (when b c).
Proof. destruct b; simpl; [auto|intros _; apply keeps_ret]. Qed.

Lemma keeps_read_field (field : string) : keeps R (read_field field).
Proof.
  intros s. rewrite read_field_spec.
  destruct (primary (rec s)); [apply R_refl|].
  destruct (values (rec s) !! field); apply R_refl.
Qed.

Lemma keeps_new_Date : keeps R (new_Date rt).
Proof. intros s. apply (R_tick s (S (tick s))). Qed.

Lemma keeps_parseDateArgument (arg : JSValue) :
  keeps R (parseDateArgument rt arg).
Proof.
  unfold parseDateArgument. destruct (negb (truthy arg)); [apply keeps_ret|].
  apply keeps_bind; [apply keeps_new_Date|intros now].
  apply keeps_bind; [apply keeps_lift|intros lower; apply keeps_ret].
Qed.

Lemma keeps_render_bound (d : option Date) (bound : JSValue)
    (fmt : option string) : keeps R (render_bound d bound fmt).
Proof.
  unfold render_bound. destruct d as [d|]; [|apply keeps_ret].
  destruct (given fmt); [apply keeps_ret|apply keeps_lift].
Qed.

Lemma keeps_bound (b : JSValue) :
  keeps R (if isDate rt b then ret (parseDate rt b) else parseDateArgument rt b).
Proof.
  destruct (isDate rt b); [apply keeps_ret|apply keeps_parseDateArgument].
Qed.

Lemma keeps_value (cond : bool) (field : string) (value : JSValue)
    (fmt : string) :
  (cond = true -> forall x, keeps R (record_set field x)) ->
  keeps R (if isDate rt (text_of value) then ret (parseDate rt (text_of value))
           else
             parsedDate <- parseDateArgument rt value ;;
             match parsedDate with
             | Some d =>
                 when cond (record_set field (formatDate d fmt)) ;;; ret (Some d)
             | None => ret None
             end).
Proof.
  intros H. destruct (isDate rt (text_of value)); [apply keeps_ret|].
  apply keeps_bind; [apply keeps_parseDateArgument|intros [d|]];
    [|apply keeps_ret].
  apply keeps_bind; [|intros _; apply keeps_ret].
  apply keeps_when. intros C. apply H. exact C.
Qed.

Variable field : string.
Variable dateFormat : option string.
Variable options : Options.

Lemma keeps_validate :
  (forall x, keeps R (record_set field x)) ->
  (flag (addError options) = true -> forall m, keeps R (record_addError field m)) ->
  keeps R (validate rt field dateFormat options).
Proof.
  intros Hset Herr. unfold validate.
  apply keeps_bind; [apply keeps_read_field|intros [value lk]].
  apply keeps_bind.
  - destruct (truthy value); [|apply keeps_ret].
    apply keeps_bind; [apply keeps_parseDateArgument|intros [d|]];
      [apply keeps_ret|].
    destruct (isDate rt (text_of value)); [|apply keeps_ret].
    destruct (parseDate rt (text_of value)); apply keeps_ret.
  - intros [valid formatted].
    apply keeps_bind; [apply keeps_when; intros _; apply Hset|intros _].
    apply keeps_bind; [|intros _; apply keeps_ret].
    apply keeps_when. intros C. apply Herr.
    apply andb_true_iff in C as [_ C]. apply andb_true_iff in C as [C _].
    apply andb_true_iff in C as [_ C]. exact C.
Qed.

Lemma keeps_format :
  (flag (setRecord options) = true -> forall x, keeps R (record_set field x)) ->
  (flag (addInfo options) = true -> flag (setRecord options) = true ->
   forall m, keeps R (record_addInfo field m)) ->
  keeps R (format rt field dateFormat options).
Proof.
  intros Hset Hinfo. unfold format.
  apply keeps_bind; [apply keeps_read_field|intros [value lk]].
  apply keeps_bind.
  - destruct (truthy value); [|apply keeps_ret].
    apply keeps_bind; [apply keeps_parseDateArgument|intros [d|]];
      [apply keeps_ret|].
    destruct (parseDate rt (text_of value)); apply keeps_ret.
  - intros formatted.
    apply keeps_bind; [|intros _].
    + apply keeps_when. intros C.
      apply andb_true_iff in C as [_ C]. apply andb_true_iff in C as [C _].
      apply andb_true_iff in C as [C1 C2]. apply Hinfo; assumption.
    + apply keeps_bind; [|intros _; apply keeps_ret].
      apply keeps_when. intros C.
      apply andb_true_iff in C as [C _]. apply andb_true_iff in C as [C _].
      apply Hset. exact C.
Qed.

Lemma keeps_report (b v a lk : bool) (c : M unit) :
  (a = true -> keeps R c) ->
  keeps R (when (b && (negb v && a && negb lk)) c).
Proof.
  intros H. apply keeps_when. intros C. apply H.
  apply andb_true_iff in C as [_ C]. apply andb_true_iff in C as [C _].
  apply andb_true_iff in C as [_ C]. exact C.
Qed.

Lemma keeps_before (b : JSValue) :
  (given dateFormat = true -> forall x, keeps R (record_set field x)) ->
  (flag (addError options) = true -> forall m, keeps R (record_addError field m)) ->
  keeps R (before rt field b dateFormat options).
Proof.
  intros Hset Herr. unfold before.
  apply keeps_bind; [apply keeps_read_field|intros [value lk]].
  apply keeps_bind.
  - destruct (truthy value); [|apply keeps_ret].
    apply keeps_bind; [apply keeps_bound|intros d1].
    apply keeps_bind; [|intros d2; apply keeps_ret].
    apply keeps_value. intros C. apply Hset.
    apply andb_true_iff in C as [C _]. exact C.
  - intros [valid d]. apply keeps_bind; [|intros _; apply keeps_ret].
    apply keeps_report. intros C.
    apply keeps_bind; [apply keeps_render_bound|intros x]. apply Herr. exact C.
Qed.

Lemma keeps_after (b : JSValue) :
  (given dateFormat = true -> forall x, keeps R (record_set field x)) ->
  (flag (addError options) = true -> forall m, keeps R (record_addError field m)) ->
  keeps R (after rt field b dateFormat options).
Proof.
  intros Hset Herr. unfold after.
  apply keeps_bind; [apply keeps_read_field|intros [value lk]].
  apply keeps_bind.
  - destruct (truthy value); [|apply keeps_ret].
    apply keeps_bind; [apply keeps_bound|intros d1].
    apply keeps_bind; [|intros d2; apply keeps_ret].
    apply keeps_value. exact Hset.
  - intros [valid d]. apply keeps_bind; [|intros _; apply keeps_ret].
    apply keeps_report. intros C.
    apply keeps_bind; [apply keeps_render_bound|intros x]. apply Herr. exact C.
Qed.

Lemma keeps_between (b e : JSValue) :
  (given dateFormat = true -> forall x, keeps R (record_set field x)) ->
  (flag (addError options) = true -> forall m, keeps R (record_addError field m)) ->
  keeps R (between rt field b e dateFormat options).
Proof.
  intros Hset Herr. unfold between.
  apply keeps_bind; [apply keeps_read_field|intros [value lk]].
  apply keeps_bind.
  - destruct (truthy value); [|apply keeps_ret].
    apply keeps_bind; [apply keeps_bound|intros d1].
    apply keeps_bind; [apply keeps_bound|intros d2].
    apply keeps_bind; [|intros d3; apply keeps_ret].
    apply keeps_value. intros C. apply Hset.
    apply andb_true_iff in C as [C _]. exact C.
  - intros [[valid d1] d2]. apply keeps_bind; [|intros _; apply keeps_ret].
    apply keeps_report. intros C.
    apply keeps_bind; [apply keeps_render_bound|intros x].
    apply keeps_bind; [apply keeps_render_bound|intros y]. apply Herr. exact C.
Qed.

Lemma keeps_evaluateAndFormat (validationType : DateValidationType)
    (validationArgs : JSValue) :
  (forall x, keeps R (record_set field x)) ->
  (flag (addError options) = true -> forall m, keeps R (record_addError field m)) ->
  (flag (addInfo options) = true -> flag (setRecord options) = true ->
   forall m, keeps R (record_addInfo field m)) ->
  keeps R (evaluateAndFormat rt field validationType dateFormat validationArgs
             options).
Proof.
  intros Hset Herr Hinfo. unfold evaluateAndFormat.
  apply keeps_bind.
  - destruct validationType.
    + apply keeps_validate; assumption.
    + apply keeps_bind; [apply keeps_lift|intros arg].
      apply keeps_before; auto.
    + apply keeps_bind; [apply keeps_lift|intros arg].
      apply keeps_after; auto.
    + destruct (between_args validationArgs) as [arg1 arg2].
      apply keeps_between; auto.
  - intros isValid. apply keeps_bind; [|intros _; apply keeps_ret].
    apply keeps_when. intros _.
    apply keeps_bind; [|intros _; apply keeps_ret].
    apply keeps_format; auto.
Qed.

End Footprint.

Lemma confined_refl (field : string) (s : State) : confined field s s.
Proof.
  split; [reflexivity|]. split; [reflexivity|].
  split; exists []; rewrite app_nil_r; auto.
Qed.

Lemma confined_trans (field : string) (s1 s2 s3 : State) :
  confined field s1 s2 -> confined field s2 s3 -> confined field s1 s3.
Proof.
  intros [P1 [V1 [[e1 [E1 F1]] [i1 [I1 G1]]]]] [P2 [V2 [[e2 [E2 F2]] [i2 [I2 G2]]]]].
  split; [congruence|]. split.
  - intros other N. rewrite (V2 other N). apply V1. exact N.
  - split.
    + exists (e1 ++ e2)%list. rewrite E2, E1, app_assoc.
      split; [reflexivity|]. apply Forall_app. auto.
    + exists (i1 ++ i2)%list. rewrite I2, I1, app_assoc.
      split; [reflexivity|]. apply Forall_app. auto.
Qed.

Lemma confined_tick (field : string) (s : State) (k : nat) :
  confined field s (set_tick k s).
Proof. apply (confined_refl field s). Qed.

Lemma confined_set (field x : string) : keeps (confined field) (record_set field x).
Proof.
  intros s. split; [reflexivity|]. split.
  - intros other N. cbn. apply lookup_insert_ne. congruence.
  - split; exists []; cbn; rewrite app_nil_r; auto.
Qed.

Lemma confined_addError (field m : string) :
  keeps (confined field) (record_addError field m).
Proof.
  intros s. split; [reflexivity|]. split; [reflexivity|]. split.
  - exists [(field, m)]. cbn. split; [reflexivity|]. repeat constructor.
  - exists []. cbn. rewrite app_nil_r. auto.
Qed.

Lemma confined_addInfo (field m : string) :
  keeps (confined field) (record_addInfo field m).
Proof.
  intros s. split; [reflexivity|]. split; [reflexivity|]. split.
  - exists []. cbn. rewrite app_nil_r. auto.
  - exists [(field, m)]. cbn. split; [reflexivity|]. repeat constructor.
Qed.

Section FootprintTheorems.

Variable rt : Runtime.
Variable field : string.
Variable dateFormat : option string.
Variable options : Options.

(** X5. Every entry point stays on its field, on every input and whether
    it returns or throws: the cells of the other fields and the read
    capability of the record are left as they were, no annotation is
    removed, and every annotation added is on the field. *)
Theorem entry_points_stay_on_their_field (b e validationArgs : JSValue)
    (validationType : DateValidationType) :
  keeps (confined field) (validate rt field dateFormat options)
  /\ keeps (confined field) (format rt field dateFormat options)
  /\ keeps (confined field) (before rt field b dateFormat options)
  /\ keeps (confined field) (after rt field b dateFormat options)
  /\ keeps (confined field) (between rt field b e dateFormat options)
  /\ keeps (confined field)
       (evaluateAndFormat rt field validationType dateFormat validationArgs
          options).
Proof.
  pose proof (confined_refl field) as Rf.
  pose proof (confined_trans field) as Tr.
  pose proof (confined_tick field) as Tk.
  pose proof (confined_set field) as Hs.
  pose proof (confined_addError field) as He.
  pose proof (confined_addInfo field) as Hi.
  split; [apply keeps_validate; auto|].
  split; [apply keeps_format; auto|].
  split; [apply keeps_before; auto|].
  split; [apply keeps_after; auto|].
  split; [apply keeps_between; auto|].
  apply keeps_evaluateAndFormat; auto.
Qed.

(** X6. The two kinds of annotation are kept apart: [validate], [before],
    [after] and [between] never add an info annotation, and [format]
    never adds an error annotation, on every input. *)
Theorem annotation_channels (b e : JSValue) :
  let same_infos := fun s s' : State => infos (rec s') = infos (rec s) in
  let same_errors := fun s s' : State => errors (rec s') = errors (rec s) in
  keeps same_infos (validate rt field dateFormat options)
  /\ keeps same_infos (before rt field b dateFormat options)
  /\ keeps same_infos (after rt field b dateFormat options)
  /\ keeps same_infos (between rt field b e dateFormat options)
  /\ keeps same_errors (format rt field dateFormat options).
Proof.
  intros same_infos same_errors.
  assert (Ri : forall s, same_infos s s) by reflexivity.
  assert (Ti : forall s1 s2 s3, same_infos s1 s2 -> same_infos s2 s3 ->
                                same_infos s1 s3)
    by (unfold same_infos; intros; congruence).
  assert (Ki : forall s k, same_infos s (set_tick k s)) by reflexivity.
  assert (Re : forall s, same_errors s s) by reflexivity.
  assert (Te : forall s1 s2 s3, same_errors s1 s2 -> same_errors s2 s3 ->
                                same_errors s1 s3)
    by (unfold same_errors; intros; congruence).
  assert (Ke : forall s k, same_errors s (set_tick k s)) by reflexivity.
  split; [apply keeps_validate; auto; intros; intros s; reflexivity|].
  split; [apply keeps_before; auto; intros; intros s; reflexivity|].
  split; [apply keeps_after; auto; intros; intros s; reflexivity|].
  split; [apply keeps_between; auto; intros; intros s; reflexivity|].
  apply keeps_format; auto; intros; intros s; reflexivity.
Qed.

(** X7. Error annotations are opt-in: unless [addError] is set to true,
    no entry point adds an error annotation, on any input. *)
Theorem errors_are_opt_in (b e validationArgs : JSValue)
    (validationType : DateValidationType) :
  flag (addError options) = false ->
  let same_errors := fun s s' : State => errors (rec s') = errors (rec s) in
  keeps same_errors (validate rt field dateFormat options)
  /\ keeps same_errors (before rt field b dateFormat options)
  /\ keeps same_errors (after rt field b dateFormat options)
  /\ keeps same_errors (between rt field b e dateFormat options)
  /\ keeps same_errors
       (evaluateAndFormat rt field validationType dateFormat validationArgs
          options).
Proof.
  intros Off same_errors.
  assert (Re : forall s, same_errors s s) by reflexivity.
  assert (Te : forall s1 s2 s3, same_errors s1 s2 -> same_errors s2 s3 ->
                                same_errors s1 s3)
    by (unfold same_errors; intros; congruence).
  assert (Ke : forall s k, same_errors s (set_tick k s)) by reflexivity.
  assert (Hs : forall x, keeps same_errors (record_set field x))
    by (intros x s; reflexivity).
  assert (Hi : forall m, keeps same_errors (record_addInfo field m))
    by (intros m s; reflexivity).
  split; [apply keeps_validate; auto; congruence|].
  split; [apply keeps_before; auto; congruence|].
  split; [apply keeps_after; auto; congruence|].
  split; [apply keeps_between; auto; congruence|].
  apply keeps_evaluateAndFormat; auto; congruence.
Qed.

(** X8. [format] writes only on request: unless [setRecord] is set to
    true it leaves the record and its annotations untouched, on every
    input, and only hands the rendered text back. *)
Theorem format_writes_on_request :
  flag (setRecord options) = false ->
  quiet (format rt field dateFormat options).
Proof.
  intros Off.
  apply (keeps_format rt (fun s s' => rec s' = rec s /\ calls s' = calls s)).
  - intros s. split; reflexivity.
  - intros s1 s2 s3 [A1 A2] [B1 B2]. split; congruence.
  - intros s k. split; reflexivity.
  - congruence.
  - congruence.
Qed.

(** X9. Without a date format the comparison validators never rewrite a
    cell: [before], [after] and [between] leave every cell of the record
    as it was, on every input. *)
Theorem comparison_without_format_keeps_cells (b e : JSValue) :
  given dateFormat = false ->
  let same_cells := fun s s' : State => values (rec s') = values (rec s) in
  keeps same_cells (before rt field b dateFormat options)
  /\ keeps same_cells (after rt field b dateFormat options)
  /\ keeps same_cells (between rt field b e dateFormat options).
Proof.
  intros Off same_cells.
  assert (Rc : forall s, same_cells s s) by reflexivity.
  assert (Tc : forall s1 s2 s3, same_cells s1 s2 -> same_cells s2 s3 ->
                                same_cells s1 s3)
    by (unfold same_cells; intros; congruence).
  assert (Kc : forall s k, same_cells s (set_tick k s)) by reflexivity.
  assert (He : forall m, keeps same_cells (record_addError field m))
    by (intros m s; reflexivity).
  split; [apply keeps_before; auto; congruence|].
  split; [apply keeps_after; auto; congruence|].
  apply keeps_between; auto; congruence.
Qed.

End FootprintTheorems.

(* ------------------------------------------------------------------ *)
(** *** Verdicts and annotations of the comparison validators *)
(* ------------------------------------------------------------------ *)

Lemma true_verdict_closing (cond valid a lk : bool) (report : M unit)
    (s1 st' : State) :
  (when (cond && (negb valid && a && negb lk)) report ;;; ret valid) s1
  = Ret true st' ->
  st' = s1.
Proof.
  destruct valid.
  - cbn [negb andb]. rewrite andb_false_r. cbv [when bind ret].
    intros [= <-]. reflexivity.
  - unfold bind.
    destruct (when (cond && (negb false && a && negb lk)) report s1);
      discriminate.
Qed.

Section ComparisonVerdicts.

Variable rt : Runtime.
Variable field : string.
Variable dateFormat : option string.
Variable options : Options.

Ltac errors_kept :=
  let refl := constr:(fun s : State => @eq_refl _ (errors (rec s))) in
  let trans := constr:(fun (s1 s2 s3 : State)
                           (H1 : errors (rec s2) = errors (rec s1))
                           (H2 : errors (rec s3) = errors (rec s2)) =>
                         eq_trans H2 H1) in
  let tick := constr:(fun (s : State) (k : nat) =>
                        @eq_refl _ (errors (rec s))) in
  repeat first
    [ apply (keeps_ret _ refl)
    | apply (keeps_bound rt _ refl trans tick)
    | apply (keeps_value rt _ refl trans tick); intros _ x s; reflexivity
    | apply (keeps_bind _ trans); [|intros ?] ].

(** X10. A comparison validator that answers true has added no error
    annotation. *)
Theorem true_verdict_adds_no_error (b e : JSValue) (st st' : State) :
  before rt field b dateFormat options st = Ret true st'
  \/ after rt field b dateFormat options st = Ret true st'
  \/ between rt field b e dateFormat options st = Ret true st' ->
  errors (rec st') = errors (rec st).
Proof.
  intros [H|[H|H]]; revert H.
  - unfold before. unfold bind at 1.
    destruct (read_field_cases field st) as [->|[value [lk ->]]];
      [discriminate|].
    cbv beta iota. unfold bind at 1.
    match goal with
    | |- match ?p st with _ => _ end = _ -> _ =>
        assert (K : keeps (fun s s' => errors (rec s') = errors (rec s)) p)
    end.
    { destruct (truthy value); errors_kept. }
    specialize (K st). cbv beta in K. revert K.
    match goal with
    | |- errors (rec (final ?o)) = _ -> _ => destruct o as [[valid d] s1|]
    end; [|intros _; discriminate].
    intros K H. apply true_verdict_closing in H. subst st'. exact K.
  - unfold after. unfold bind at 1.
    destruct (read_field_cases field st) as [->|[value [lk ->]]];
      [discriminate|].
    cbv beta iota. unfold bind at 1.
    match goal with
    | |- match ?p st with _ => _ end = _ -> _ =>
        assert (K : keeps (fun s s' => errors (rec s') = errors (rec s)) p)
    end.
    { destruct (truthy value); errors_kept. }
    specialize (K st). cbv beta in K. revert K.
    match goal with
    | |- errors (rec (final ?o)) = _ -> _ => destruct o as [[valid d] s1|]
    end; [|intros _; discriminate].
    intros K H. apply true_verdict_closing in H. subst st'. exact K.
  - unfold between. unfold bind at 1.
    destruct (read_field_cases field st) as [->|[value [lk ->]]];
      [discriminate|].
    cbv beta iota. unfold bind at 1.
    match goal with
    | |- match ?p st with _ => _ end = _ -> _ =>
        assert (K : keeps (fun s s' => errors (rec s') = errors (rec s)) p)
    end.
    { destruct (truthy value); errors_kept. }
    specialize (K st). cbv beta in K. revert K.
    match goal with
    | |- errors (rec (final ?o)) = _ -> _ => destruct o as [[[valid d1] d2] s1|]
    end; [|intros _; discriminate].
    intros K H. apply true_verdict_closing in H. subst st'. exact K.
Qed.

(** X11. An empty field value fails every comparison without the bounds
    being looked at: [before], [after] and [between] answer false, read no
    clock and write no cell; the one annotation they may add (under
    [validateOnEmpty] and [addError], when the primary read worked) quotes
    the bounds as they were given, unresolved. *)
Theorem empty_value_fails_comparison (b e value : JSValue) (lk : bool)
    (st : State) :
  read_field field st = Ret (value, lk) st ->
  truthy value = false ->
  let outcome := fun msg : string =>
    Ret false
      (if flag (validateOnEmpty options) && flag (addError options) && negb lk
       then final (record_addError field (str_or (errorMsg options) msg) st)
       else st) in
  before rt field b dateFormat options st
  = outcome ("Please enter a valid date before " +:+ toString b)
  /\ after rt field b dateFormat options st
     = outcome ("Please enter a valid date after " +:+ toString b)
  /\ between rt field b e dateFormat options st
     = outcome ("Please enter a valid date between " +:+ toString b
                +:+ " and " +:+ toString e).
Proof.
  intros Hread T outcome. subst outcome. cbv beta.
  split; [|split].
  - unfold before. unfold bind at 1. rewrite Hread. cbv beta iota. rewrite T.
    unfold bind at 1. cbn [ret orb negb andb].
    destruct (flag (validateOnEmpty options)), (flag (addError options)), lk;
      reflexivity.
  - unfold after. unfold bind at 1. rewrite Hread. cbv beta iota. rewrite T.
    unfold bind at 1. cbn [ret orb negb andb].
    destruct (flag (validateOnEmpty options)), (flag (addError options)), lk;
      reflexivity.
  - unfold between. unfold bind at 1. rewrite Hread. cbv beta iota. rewrite T.
    unfold bind at 1. cbn [ret orb negb andb].
    destruct (flag (validateOnEmpty options)), (flag (addError options)), lk;
      reflexivity.
Qed.

Lemma absolute_bound_resolution (x : JSValue) (d : Date) (k : nat) :
  isDate rt x = true ->
  parseDate rt x = Some d ->
  resolve rt x k = (Some d, k).
Proof. intros I P. unfold resolve, resolve_as. rewrite I, P. reflexivity. Qed.

Lemma absolute_value_resolution (value : JSValue) (d : Date) (k : nat) :
  isDate rt (text_of value) = true ->
  parseDate rt (text_of value) = Some d ->
  resolve_value rt value k = (Some d, k).
Proof. intros I P. unfold resolve_value, resolve_as. rewrite I, P. reflexivity. Qed.

(** X12. On absolute dates [between] is the conjunction of [after] its
    start and [before] its end: when chrono-node reads the field value and
    the two bounds as dates, the three verdicts are start < value,
    value < end and their conjunction. *)
Theorem between_is_after_and_before (s e value : JSValue) (lk : bool)
    (st : State) (ts te tv : Z) :
  read_field field st = Ret (value, lk) st ->
  truthy value = true ->
  isDate rt s = true -> parseDate rt s = Some (Instant ts) ->
  isDate rt e = true -> parseDate rt e = Some (Instant te) ->
  isDate rt (text_of value) = true ->
  parseDate rt (text_of value) = Some (Instant tv) ->
  exists va vb,
    result (after rt field s dateFormat options st) = inr va
    /\ result (before rt field e dateFormat options st) = inr vb
    /\ result (between rt field s e dateFormat options st) = inr (va && vb)
    /\ va = (ts <? tv) /\ vb = (tv <? te).
Proof.
  intros Hread T Is Ps Ie Pe Iv Pv.
  exists (ts <? tv), (tv <? te).
  split; [|split; [|split; [|split; reflexivity]]].
  - apply (after_verdict rt field s dateFormat options st value lk ts tv
             (tick st) (tick st) Hread T).
    + apply absolute_bound_resolution; assumption.
    + apply absolute_value_resolution; assumption.
  - apply (before_verdict rt field e dateFormat options st value lk te tv
             (tick st) (tick st) Hread T).
    + apply absolute_bound_resolution; assumption.
    + apply absolute_value_resolution; assumption.
  - assert (Hin : isDate rt (text_of value) = true \/ tame value = true)
      by (left; exact Iv).
    assert (Ts : tame s = true)
      by (apply (resolved_bound_is_tame rt s (tick st) (tick st) (Instant ts));
          apply absolute_bound_resolution; assumption).
    assert (Te : tame e = true)
      by (apply (resolved_bound_is_tame rt e (tick st) (tick st) (Instant te));
          apply absolute_bound_resolution; assumption).
    unfold between. unfold bind at 1. rewrite Hread.
    cbv beta iota. rewrite T.
    unfold bind at 1. unfold bind at 1. unfold bind at 1.
    rewrite (bound_resolution rt s st Ts).
    rewrite (absolute_bound_resolution s _ (tick st) Is Ps). cbn [fst snd].
    unfold bind at 1.
    rewrite (bound_resolution rt e _ Te). cbn [tick set_tick].
    rewrite (absolute_bound_resolution e _ (tick st) Ie Pe). cbn [fst snd].
    rewrite (value_resolution rt _ _ _ _ _ T Hin). cbn [tick set_tick].
    rewrite (absolute_value_resolution value _ (tick st) Iv Pv).
    cbn [fst snd ret getTime num_lt].
    match goal with
    | |- result ((when ?c ?report ;;; ret ?v) ?s') = _ =>
        destruct (report_then_verdict c v report s') as [s'' R]
    end.
    + match goal with |- returns (_ ?s1) => generalize s1 as s1' end.
      intros s1'.
      destruct (render_bound_instant ts s dateFormat s1') as [x Hx].
      destruct (render_bound_instant te e dateFormat s1') as [y Hy].
      unfold returns, bind. rewrite Hx, Hy. eexists _, _; reflexivity.
    + rewrite R. reflexivity.
Qed.

Lemma report_inversion (c valid v : bool) (report : M unit) (s s' : State) :
  keeps (fun a b => values (rec b) = values (rec a)) report ->
  (when c report ;;; ret valid) s = Ret v s' ->
  v = valid /\ values (rec s') = values (rec s).
Proof.
  intros K. unfold bind. destruct c; cbn [when].
  - specialize (K s). cbv beta in K.
    destruct (report s) as [[] s2|e s2]; [|discriminate].
    cbn [final] in K. intros [= <- <-]. split; [reflexivity|exact K].
  - intros [= <- <-]. split; reflexivity.
Qed.

Lemma bound_report_keeps_cells (d : option Date) (bound : JSValue)
    (message : string -> string) :
  keeps (fun a b => values (rec b) = values (rec a))
    (formattedDate <- render_bound d bound dateFormat ;;
     record_addError field (message formattedDate)).
Proof.
  intros s. unfold bind, render_bound.
  destruct d as [d|]; [|reflexivity].
  destruct (given dateFormat); [reflexivity|].
  destruct (toISOString d); reflexivity.
Qed.

Ltac same_resolution st H1 H2 :=
  unfold bind at 1 in H1; unfold bind at 1 in H2;
  destruct (read_field_cases field st) as [E|[value [lk E]]];
  rewrite E in H1, H2; [discriminate|];
  cbv beta iota in H1, H2;
  unfold bind at 1 in H1; unfold bind at 1 in H2;
  match type of H1 with
  | match ?p ?s0 with _ => _ end = _ => destruct (p s0) as [vb s'|err s']
  end; [|discriminate].

(** X20. The options never change a verdict or a cell: two calls of
    [validate], of [before], of [after] or of [between] that start from
    the same state and differ only in their options ([addError],
    [validateOnEmpty], [errorMsg]) return the same verdict and leave the
    same cells; in particular [validateOnEmpty] does not make an empty
    value pass. *)
Theorem options_do_not_change_verdict (other : Options) (b e : JSValue)
    (st : State) (v1 v2 : bool) (s1 s2 : State) :
  (validate rt field dateFormat options st = Ret v1 s1
   /\ validate rt field dateFormat other st = Ret v2 s2)
  \/ (before rt field b dateFormat options st = Ret v1 s1
      /\ before rt field b dateFormat other st = Ret v2 s2)
  \/ (after rt field b dateFormat options st = Ret v1 s1
      /\ after rt field b dateFormat other st = Ret v2 s2)
  \/ (between rt field b e dateFormat options st = Ret v1 s1
      /\ between rt field b e dateFormat other st = Ret v2 s2) ->
  v1 = v2 /\ values (rec s1) = values (rec s2).
Proof.
  intros [[H1 H2]|[[H1 H2]|[[H1 H2]|[H1 H2]]]].
  - unfold validate in H1, H2. same_resolution st H1 H2.
    destruct vb as [valid formatted]. cbv beta iota in H1, H2.
    unfold bind at 1 in H1. unfold bind at 1 in H2.
    destruct (when (negb (String.eqb formatted "")) (record_set field formatted) s')
      as [[] s''|err s'']; [|discriminate].
    apply report_inversion in H1 as [-> V1]; [|intros s; reflexivity].
    apply report_inversion in H2 as [-> V2]; [|intros s; reflexivity].
    split; [reflexivity|congruence].
  - unfold before in H1, H2. same_resolution st H1 H2.
    destruct vb as [valid d]. cbv beta iota in H1, H2.
    apply report_inversion in H1 as [-> V1]; [|apply bound_report_keeps_cells].
    apply report_inversion in H2 as [-> V2]; [|apply bound_report_keeps_cells].
    split; [reflexivity|congruence].
  - unfold after in H1, H2. same_resolution st H1 H2.
    destruct vb as [valid d]. cbv beta iota in H1, H2.
    apply report_inversion in H1 as [-> V1]; [|apply bound_report_keeps_cells].
    apply report_inversion in H2 as [-> V2]; [|apply bound_report_keeps_cells].
    split; [reflexivity|congruence].
  - unfold between in H1, H2. same_resolution st H1 H2.
    destruct vb as [[valid d1] d2]. cbv beta iota in H1, H2.
    assert (K : forall message : string -> string -> string,
              keeps (fun a b => values (rec b) = values (rec a))
                (startFormatted <- render_bound d1 b dateFormat ;;
                 endFormatted <- render_bound d2 e dateFormat ;;
                 record_addError field (message startFormatted endFormatted))).
    { intros message s. unfold bind, render_bound.
      destruct d1 as [d1|], d2 as [d2|]; destruct (given dateFormat);
        try reflexivity;
        repeat match goal with
               | |- context [toISOString ?d] => destruct (toISOString d)
               end; reflexivity. }
    apply report_inversion in H1 as [-> V1];
      [|apply (K (fun x y => str_or (errorMsg options)
                               ("Please enter a valid date between " +:+ x
                                +:+ " and " +:+ y)))].
    apply report_inversion in H2 as [-> V2];
      [|apply (K (fun x y => str_or (errorMsg other)
                               ("Please enter a valid date between " +:+ x
                                +:+ " and " +:+ y)))].
    split; [reflexivity|congruence].
Qed.

End ComparisonVerdicts.

(* ================================================================== *)
(** ** Further properties of the string validators *)
(* ================================================================== *)

Section StringFurther.

Import StringValidator.

Lemma read_text_cases (field : string) (s : State) :
  read_text field s = Throw TypeError s
  \/ exists value lk, read_text field s = Ret (value, lk) s.
Proof.
  unfold read_text, try_catch, bind, record_get, record_values_value, ret.
  destruct (primary (rec s)); [eauto|].
  destruct (values (rec s) !! field); eauto.
Qed.

(** After the primary read the value is a text: the text of the cell,
    empty for undefined and null. *)
Lemma read_text_linked (field : string) (s : State) :
  primary (rec s) = true ->
  exists text, read_text field s = Ret (VStr text, false) s.
Proof.
  intros P. unfold read_text, try_catch, bind, record_get, ret. rewrite P.
  eexists. reflexivity.
Qed.

Lemma read_text_linked_text (field text : string) (s : State) :
  primary (rec s) = true ->
  values (rec s) !! field = Some (VStr text) ->
  read_text field s = Ret (VStr text, false) s.
Proof.
  intros P V. unfold read_text, try_catch, bind, record_get, ret.
  rewrite P, V. reflexivity.
Qed.

Lemma report_changes_errors (c v : bool) (field m : string) (s : State) :
  errors (rec (final ((when c (record_addError field m) ;;; ret v) s)))
  <> errors (rec s)
  <-> c = true.
Proof.
  destruct c; cbn.
  - split; [reflexivity|]. intros _ E.
    apply (f_equal (@List.length _)) in E. rewrite length_app in E.
    simpl in E. lia.
  - split; [congruence|discriminate].
Qed.

Lemma report_result (c v : bool) (field m : string) (s : State) :
  result ((when c (record_addError field m) ;;; ret v) s) = inr v.
Proof. destruct c; reflexivity. Qed.

(** X13. [hasLength] is the conjunction of [min] and [max], in its
    verdict and in its report: on every record and every pair of limits it
    answers true exactly when both do, throws exactly when they do, and
    adds an error annotation exactly when one of them would. *)
Theorem hasLength_is_min_and_max (field : string) (lo hi : Num)
    (options : Options) (st : State) :
  result (hasLength field lo hi options st)
  = match result (min field lo options st), result (max field hi options st) with
    | inr a, inr b => inr (a && b)
    | inl e, _ => inl e
    | _, inl e => inl e
    end
  /\ (errors (rec (final (hasLength field lo hi options st))) <> errors (rec st)
      <-> errors (rec (final (min field lo options st))) <> errors (rec st)
          \/ errors (rec (final (max field hi options st))) <> errors (rec st)).
Proof.
  unfold hasLength, min, max. unfold bind at 1 3 5 7 9 11.
  destruct (read_text_cases field st) as [->|[value [lk ->]]].
  - cbn. split; [reflexivity|]. tauto.
  - cbv beta iota zeta. rewrite !report_result, !report_changes_errors.
    split.
    + destruct (truthy value); reflexivity.
    + destruct (truthy value), (num_le lo (length_of value)),
        (num_le (length_of value) hi), (flag (validateOnEmpty options)),
        (flag (addError options)), lk; cbn; intuition congruence.
Qed.

(** *** Social security numbers *)

Lemma ssn_shape (text : string) :
  ssnPattern text = true ->
  exists c1 c2 c3 c4 c5 c6 c7 c8 c9,
    text = String c1 (String c2 (String c3 (String c4 (String c5 (String c6
             (String c7 (String c8 (String c9 EmptyString))))))))
    /\ is_digit c1 = true /\ is_digit c2 = true /\ is_digit c3 = true
    /\ is_digit c4 = true /\ is_digit c5 = true /\ is_digit c6 = true
    /\ is_digit c7 = true /\ is_digit c8 = true /\ is_digit c9 = true.
Proof.
  intros H. pose proof (ssnPattern_all_digits _ H) as D.
  unfold ssnPattern in H. apply andb_true_iff in H as [_ H].
  apply Nat.eqb_eq in H.
  destruct text as [|c1 [|c2 [|c3 [|c4 [|c5 [|c6 [|c7 [|c8 [|c9 [|c10 s]]]]]]]]]];
    try discriminate.
  cbn [all_digits] in D.
  repeat match goal with
         | Q : _ && _ = true |- _ => apply andb_true_iff in Q as [? Q]
         end.
  exists c1, c2, c3, c4, c5, c6, c7, c8, c9. repeat split; assumption.
Qed.

Lemma all_digits_app (a b : string) :
  all_digits (a +:+ b) = all_digits a && all_digits b.
Proof.
  induction a as [|c a IH]; simpl; [reflexivity|].
  rewrite IH. apply andb_assoc.
Qed.

(** A text with a dash in it is no social security number for [isSSN]. *)
Lemma dashed_is_refused (a b : string) : ssnPattern (a +:+ "-" +:+ b) = false.
Proof.
  destruct (ssnPattern (a +:+ "-" +:+ b)) eqn:E; [|reflexivity].
  apply ssnPattern_all_digits in E. rewrite all_digits_app in E.
  apply andb_true_iff in E as [_ E]. discriminate.
Qed.

(** [isSSN] on a record whose primary read gives [text]: the verdict is
    the pattern's on the text, and the state is left as it was or with one
    more error annotation. *)
Lemma isSSN_linked (field text : string) (options : Options) (st : State) :
  read_text field st = Ret (VStr text, false) st ->
  exists st',
    isSSN field options st
    = Ret (if truthy (VStr text) then ssnPattern text else false) st'
    /\ (st' = st \/ exists m, st' = final (record_addError field m st))
    /\ (flag (addError options) = false -> st' = st).
Proof.
  intros Hread. unfold isSSN. unfold bind at 1. rewrite Hread. cbv beta iota.
  unfold bind at 1. cbn [call_replace_nondigits lift ret].
  unfold matchesPattern. unfold bind at 1. rewrite Hread. cbv beta iota zeta.
  cbn [toString addError validateOnEmpty errorMsg].
  match goal with
  | |- exists _, (when ?c (record_addError _ ?msg) ;;; _) _ = _ /\ _ =>
      generalize msg; intros m; destruct c eqn:C
  end.
  - eexists. split; [reflexivity|]. split; [right; eexists; reflexivity|].
    intros Off. rewrite Off, !andb_false_r in C. discriminate.
  - eexists. split; [reflexivity|]. split; [left; reflexivity|reflexivity].
Qed.

Lemma read_text_after_error (field text m : string) (st : State) :
  read_text field st = Ret (VStr text, false) st ->
  read_text field (final (record_addError field m st))
  = Ret (VStr text, false) (final (record_addError field m st)).
Proof.
  unfold read_text, try_catch, bind, record_get, record_values_value, ret.
  cbn [final record_addError update_record rec primary values].
  destruct (primary (rec st)).
  - intros [= E]. rewrite E. reflexivity.
  - destruct (values (rec st) !! field); discriminate.
Qed.

(** [formatSSN] asked to write, on a record whose primary read gives a
    non-empty [text]. *)
Lemma formatSSN_linked (field text : string) (options : FormatOptions)
    (st : State) :
  read_text field st = Ret (VStr text, false) st ->
  text <> "" ->
  flag (setRecord options) = true ->
  exists formatted st',
    formatSSN field options st = Ret (VStr formatted) st'
    /\ formatted
       = (if ssnPattern text
          then substring 0 3 (digits_only text) +:+ "-"
               +:+ substring 3 2 (digits_only text) +:+ "-"
               +:+ substring 5 (String.length (digits_only text) - 5)
                     (digits_only text)
          else "Invalid SSN")
    /\ primary (rec st') = primary (rec st)
    /\ values (rec st') = <[field := VStr formatted]> (values (rec st)).
Proof.
  intros Hread N S.
  assert (T : truthy (VStr text) = true)
    by (destruct text; [contradiction|reflexivity]).
  unfold formatSSN. unfold bind at 1. rewrite Hread. cbv beta iota.
  rewrite T. cbn [orb]. unfold bind at 1.
  destruct (isSSN_linked field text no_options st Hread) as [s1 [-> [_ E]]].
  rewrite (E eq_refl), T. rewrite S. cbn [andb negb].
  destruct (ssnPattern text).
  - unfold bind at 1. unfold bind at 1.
    cbn [call_replace_nondigits lift ret]. unfold bind at 1.
    destruct (flag (addInfo options)); cbn [when andb];
      eexists _, _; (split; [reflexivity|]); repeat split; reflexivity.
  - eexists _, _. split; [reflexivity|]. repeat split; reflexivity.
Qed.

Lemma dashes_of_ssn (text : string) :
  ssnPattern text = true ->
  substring 0 3 (digits_only text) +:+ "-"
  +:+ substring 3 2 (digits_only text) +:+ "-"
  +:+ substring 5 (String.length (digits_only text) - 5) (digits_only text)
  = substring 0 3 text +:+ "-" +:+ substring 3 2 text +:+ "-"
    +:+ substring 5 4 text
  /\ digits_only (substring 0 3 text +:+ "-" +:+ substring 3 2 text +:+ "-"
                  +:+ substring 5 4 text) = text.
Proof.
  intros H.
  destruct (ssn_shape text H)
    as (c1 & c2 & c3 & c4 & c5 & c6 & c7 & c8 & c9 & -> &
        D1 & D2 & D3 & D4 & D5 & D6 & D7 & D8 & D9).
  cbn [digits_only]. rewrite D1, D2, D3, D4, D5, D6, D7, D8, D9.
  cbn [String.length Nat.sub substring].
  split; [reflexivity|].
  cbv [String.append]. cbn [digits_only].
  rewrite D1, D2, D3, D4, D5, D6, D7, D8, D9. reflexivity.
Qed.

(** X14. [formatSSN] asked to write turns a nine-digit number that
    [isSSN] accepts into the form ddd-dd-dddd, whose digits are the
    original text, and stores it; it is not idempotent: run again on the
    record it has just written, it refuses its own output and overwrites
    the field with the text Invalid SSN. *)
Theorem formatSSN_dashes_once (field text : string) (options : FormatOptions)
    (st : State) :
  primary (rec st) = true ->
  values (rec st) !! field = Some (VStr text) ->
  ssnPattern text = true ->
  flag (setRecord options) = true ->
  let dashed := substring 0 3 text +:+ "-" +:+ substring 3 2 text +:+ "-"
                +:+ substring 5 4 text in
  exists st1 st2,
    formatSSN field options st = Ret (VStr dashed) st1
    /\ values (rec st1) !! field = Some (VStr dashed)
    /\ digits_only dashed = text
    /\ formatSSN field options st1 = Ret (VStr "Invalid SSN") st2
    /\ values (rec st2) !! field = Some (VStr "Invalid SSN").
Proof.
  intros P V E S dashed.
  pose proof (read_text_linked_text field text st P V) as Hread.
  assert (N : text <> "") by (intros ->; discriminate).
  destruct (formatSSN_linked field text options st Hread N S)
    as (f1 & st1 & R1 & F1 & P1 & V1).
  rewrite E in F1. destruct (dashes_of_ssn text E) as [D1 D2].
  rewrite D1 in F1. fold dashed in F1, D2. subst f1.
  assert (V1' : values (rec st1) !! field = Some (VStr dashed))
    by (rewrite V1; apply lookup_insert_eq).
  assert (P1' : primary (rec st1) = true) by congruence.
  pose proof (read_text_linked_text field dashed st1 P1' V1') as Hread1.
  assert (N1 : dashed <> "")
    by (subst dashed; apply append_nonempty_r; discriminate).
  destruct (formatSSN_linked field dashed options st1 Hread1 N1 S)
    as (f2 & st2 & R2 & F2 & P2 & V2).
  assert (X : ssnPattern dashed = false) by apply dashed_is_refused.
  rewrite X in F2. subst f2.
  exists st1, st2. split; [exact R1|]. split; [exact V1'|].
  split; [exact D2|]. split; [exact R2|].
  rewrite V2. apply lookup_insert_eq.
Qed.

(** X15. [evaluateAndFormatSSN] asked to write, on a record whose
    primary read gives a non-empty text: the verdict is the pattern's on
    the raw text; an accepted number is stored in the form ddd-dd-dddd; a
    refused text is replaced by Invalid SSN under [formatOnError] and is
    left in place without it. *)
Theorem evaluateAndFormatSSN_outcome (field text : string) (options : Options)
    (formatOptions : FormatOptions) (st : State) :
  primary (rec st) = true ->
  values (rec st) !! field = Some (VStr text) ->
  text <> "" ->
  flag (setRecord formatOptions) = true ->
  result (evaluateAndFormatSSN field options formatOptions st)
  = inr (ssnPattern text)
  /\ values (rec (final (evaluateAndFormatSSN field options formatOptions st)))
     !! field
     = Some (VStr (if ssnPattern text
                   then substring 0 3 text +:+ "-" +:+ substring 3 2 text
                        +:+ "-" +:+ substring 5 4 text
                   else if flag (formatOnError formatOptions)
                        then "Invalid SSN" else text)).
Proof.
  intros P V N S.
  pose proof (read_text_linked_text field text st P V) as Hread.
  assert (T : truthy (VStr text) = true)
    by (destruct text; [contradiction|reflexivity]).
  assert (Run : exists s',
            evaluateAndFormatSSN field options formatOptions st
            = Ret (ssnPattern text) s'
            /\ values (rec s') !! field
               = Some (VStr (if ssnPattern text
                             then substring 0 3 text +:+ "-"
                                  +:+ substring 3 2 text
                                  +:+ "-" +:+ substring 5 4 text
                             else if flag (formatOnError formatOptions)
                                  then "Invalid SSN" else text))).
  { unfold evaluateAndFormatSSN. unfold bind at 1.
    destruct (isSSN_linked field text options st Hread) as [s1 [-> [O _]]].
    rewrite T.
    assert (Hread1 : read_text field s1 = Ret (VStr text, false) s1).
    { destruct O as [->|[m ->]]; [exact Hread|].
      apply read_text_after_error. exact Hread. }
    assert (V1 : values (rec s1) !! field = Some (VStr text)).
    { destruct O as [->|[m ->]]; exact V. }
    destruct (formatSSN_linked field text formatOptions s1 Hread1 N S)
      as (f & s2 & R & F & _ & V2).
    destruct (ssnPattern text) eqn:E.
    - cbn [orb when]. unfold bind at 1. unfold bind at 1. rewrite R.
      cbv beta iota. cbv [ret]. eexists. split; [reflexivity|].
      rewrite V2, lookup_insert_eq. subst f.
      destruct (dashes_of_ssn text E) as [-> _]. reflexivity.
    - cbn [orb]. destruct (flag (formatOnError formatOptions)).
      + cbn [when]. unfold bind at 1. unfold bind at 1. rewrite R.
        cbv beta iota. cbv [ret]. eexists. split; [reflexivity|].
        rewrite V2, lookup_insert_eq. subst f. reflexivity.
      + cbn [when]. eexists. split; [reflexivity|]. exact V1. }
  destruct Run as [s' [-> V']]. split; [reflexivity|exact V'].
Qed.

(** *** Phone numbers *)

Section PhoneTheorems.

Variable phoneUtil : PhoneUtil.

Lemma isPhone_linked (field text : string) (options : Options) (st : State) :
  read_text field st = Ret (VStr text, false) st ->
  exists st',
    isPhone phoneUtil field options st
    = Ret (if truthy (VStr text) then valid_number phoneUtil (VStr text)
           else false) st'
    /\ (st' = st \/ exists m, st' = final (record_addError field m st))
    /\ (flag (addError options) = false -> st' = st).
Proof.
  intros Hread. unfold isPhone. unfold bind at 1. rewrite Hread.
  cbv beta iota zeta.
  match goal with
  | |- exists _, (when ?c (record_addError _ ?msg) ;;; _) _ = _ /\ _ =>
      generalize msg; intros m; destruct c eqn:C
  end.
  - eexists. split; [reflexivity|]. split; [right; eexists; reflexivity|].
    intros Off. rewrite Off, !andb_false_r in C. discriminate.
  - eexists. split; [reflexivity|]. split; [left; reflexivity|reflexivity].
Qed.

(** [formatPhone] asked to write, on a record whose primary read gives a
    non-empty [text]. *)
Lemma formatPhone_linked (field text : string)
    (format : option PhoneNumberFormat) (options : FormatOptions) (st : State) :
  read_text field st = Ret (VStr text, false) st ->
  text <> "" ->
  flag (setRecord options) = true ->
  exists formatted st',
    formatPhone phoneUtil field format options st = Ret (VStr formatted) st'
    /\ formatted
       = (if valid_number phoneUtil (VStr text)
          then match parse phoneUtil (VStr text) with
               | inr phoneNumber =>
                   match format_number phoneUtil phoneNumber
                           match format with
                           | Some NATIONAL => NATIONAL
                           | Some E164 => E164
                           | _ => INTERNATIONAL
                           end with
                   | inr rendered => rendered
                   | inl _ => "Invalid Phone Number"
                   end
               | inl _ => "Invalid Phone Number"
               end
          else "Invalid Phone Number")
    /\ primary (rec st') = primary (rec st)
    /\ values (rec st') = <[field := VStr formatted]> (values (rec st)).
Proof.
  intros Hread N S.
  assert (T : truthy (VStr text) = true)
    by (destruct text; [contradiction|reflexivity]).
  unfold formatPhone. unfold bind at 1. rewrite Hread. cbv beta iota zeta.
  rewrite T. cbn [orb]. unfold bind at 1. unfold try_catch. unfold bind at 1.
  destruct (isPhone_linked field text no_options st Hread) as [s1 [-> [_ E]]].
  rewrite (E eq_refl), T. rewrite S. cbn [andb negb].
  destruct (valid_number phoneUtil (VStr text)).
  - unfold bind at 1.
    destruct (parse phoneUtil (VStr text)) as [e|phoneNumber]; cbn [lift].
    + cbv [throw ret when bind]. eexists _, _. split; [reflexivity|].
      repeat split; reflexivity.
    + unfold ret at 1. cbv beta iota. unfold bind at 1.
      match goal with
      | |- context [format_number phoneUtil phoneNumber ?f] =>
          destruct (format_number phoneUtil phoneNumber f) as [e|rendered]
      end; cbn [lift].
      * cbv [throw ret when bind]. eexists _, _. split; [reflexivity|].
        repeat split; reflexivity.
      * unfold ret at 1. cbv beta iota.
        destruct (flag (addInfo options)); cbv [when bind ret];
          eexists _, _; (split; [reflexivity|]); repeat split; reflexivity.
  - cbv [ret when bind]. eexists _, _. split; [reflexivity|].
    repeat split; reflexivity.
Qed.

(** X19. [evaluateAndFormatPhone] asked to write, on a record whose
    primary read gives a non-empty text: the verdict is the library's on
    the text (an exception of the library counting as a refusal); an
    accepted number is stored as the library renders it in the requested
    format, INTERNATIONAL when none is given; a refused text is replaced by
    Invalid Phone Number under [formatOnError] and left in place without
    it. *)
Theorem evaluateAndFormatPhone_outcome (field text : string)
    (format : option PhoneNumberFormat) (options : Options)
    (formatOptions : FormatOptions) (st : State) :
  primary (rec st) = true ->
  values (rec st) !! field = Some (VStr text) ->
  text <> "" ->
  flag (setRecord formatOptions) = true ->
  exists st',
    evaluateAndFormatPhone phoneUtil field format options formatOptions st
    = Ret (valid_number phoneUtil (VStr text)) st'
    /\ values (rec st') !! field
       = Some (VStr
           (if valid_number phoneUtil (VStr text)
            then match parse phoneUtil (VStr text) with
                 | inr phoneNumber =>
                     match format_number phoneUtil phoneNumber
                             match format with
                             | Some NATIONAL => NATIONAL
                             | Some E164 => E164
                             | _ => INTERNATIONAL
                             end with
                     | inr rendered => rendered
                     | inl _ => "Invalid Phone Number"
                     end
                 | inl _ => "Invalid Phone Number"
                 end
            else if flag (formatOnError formatOptions)
                 then "Invalid Phone Number" else text)).
Proof.
  intros P V N S.
  pose proof (read_text_linked_text field text st P V) as Hread.
  assert (T : truthy (VStr text) = true)
    by (destruct text; [contradiction|reflexivity]).
  unfold evaluateAndFormatPhone. unfold bind at 1.
  destruct (isPhone_linked field text options st Hread) as [s1 [-> [O _]]].
  rewrite T.
  assert (Hread1 : read_text field s1 = Ret (VStr text, false) s1).
  { destruct O as [->|[m ->]]; [exact Hread|].
    apply read_text_after_error. exact Hread. }
  assert (V1 : values (rec s1) !! field = Some (VStr text)).
  { destruct O as [->|[m ->]]; exact V. }
  destruct (formatPhone_linked field text format formatOptions s1 Hread1 N S)
    as (f & s2 & R & F & _ & V2).
  destruct (valid_number phoneUtil (VStr text)) eqn:E.
  - cbn [orb when]. unfold bind at 1. unfold bind at 1. rewrite R.
    cbv beta iota. cbv [ret]. eexists. split; [reflexivity|].
    rewrite V2, lookup_insert_eq. subst f. reflexivity.
  - cbn [orb]. destruct (flag (formatOnError formatOptions)).
    + cbn [when]. unfold bind at 1. unfold bind at 1. rewrite R.
      cbv beta iota. cbv [ret]. eexists. split; [reflexivity|].
      rewrite V2, lookup_insert_eq. subst f. reflexivity.
    + cbn [when]. eexists. split; [reflexivity|]. exact V1.
Qed.

End PhoneTheorems.

(** *** [format] *)

Ltac by_character c :=
  destruct c as [[] [] [] [] [] [] [] []]; try reflexivity; try discriminate.

Lemma whitespace_lower (c : ascii) :
  is_whitespace (lower_char c) = is_whitespace c.
Proof. by_character c. Qed.

Lemma whitespace_upper (c : ascii) :
  is_whitespace (upper_char c) = is_whitespace c.
Proof. by_character c. Qed.

Lemma lower_lower (c : ascii) : lower_char (lower_char c) = lower_char c.
Proof. by_character c. Qed.

Lemma upper_upper (c : ascii) : upper_char (upper_char c) = upper_char c.
Proof. by_character c. Qed.

Lemma word_upper (c : ascii) : is_word (upper_char c) = is_word c.
Proof. by_character c. Qed.

Lemma whitespace_is_no_word (c : ascii) :
  is_whitespace c = true -> is_word c = false.
Proof. by_character c. Qed.

Lemma trimEnd_empty_or_not (s : string) :
  trimEnd s = "" \/ exists c k, trimEnd s = String c k.
Proof. destruct (trimEnd s); eauto. Qed.

Lemma trimEnd_trimEnd (s : string) : trimEnd (trimEnd s) = trimEnd s.
Proof.
  induction s as [|c r IH]; [reflexivity|]. cbn [trimEnd].
  destruct (trimEnd r) as [|d k] eqn:E.
  - destruct (is_whitespace c) eqn:W; [reflexivity|].
    cbn [trimEnd]. rewrite W. reflexivity.
  - cbn [trimEnd]. cbn [trimEnd] in IH. rewrite IH. reflexivity.
Qed.

Lemma trimStart_trimStart (s : string) : trimStart (trimStart s) = trimStart s.
Proof.
  induction s as [|c r IH]; [reflexivity|]. cbn [trimStart].
  destruct (is_whitespace c) eqn:W; [exact IH|].
  cbn [trimStart]. rewrite W. reflexivity.
Qed.

Lemma trimStart_trimEnd (s : string) :
  trimStart (trimEnd s) = trimEnd (trimStart s).
Proof.
  induction s as [|c r IH]; [reflexivity|]. cbn [trimStart trimEnd].
  destruct (is_whitespace c) eqn:W.
  - rewrite <- IH. destruct (trimEnd r) as [|d k]; [reflexivity|].
    cbn [trimStart]. rewrite W. reflexivity.
  - cbn [trimEnd]. destruct (trimEnd r) as [|d k]; rewrite ?W;
      cbn [trimStart]; rewrite W; reflexivity.
Qed.

Lemma call_trim_idempotent (s : string) : call_trim (call_trim s) = call_trim s.
Proof.
  unfold call_trim.
  rewrite trimStart_trimEnd, trimStart_trimStart, trimEnd_trimEnd.
  reflexivity.
Qed.

(** A transformation, with a state, that maps each character to one of
    the same whitespace kind commutes with trimming; the three letter
    cases are of this kind. *)
Lemma trimEnd_upper (s : string) :
  trimEnd (toUpperCase s) = toUpperCase (trimEnd s).
Proof.
  induction s as [|c r IH]; [reflexivity|]. cbn [toUpperCase trimEnd].
  rewrite IH, whitespace_upper.
  destruct (trimEnd r); [destruct (is_whitespace c)|]; reflexivity.
Qed.

Lemma trimStart_upper (s : string) :
  trimStart (toUpperCase s) = toUpperCase (trimStart s).
Proof.
  induction s as [|c r IH]; [reflexivity|]. cbn [toUpperCase trimStart].
  rewrite IH, whitespace_upper. destruct (is_whitespace c); reflexivity.
Qed.

Lemma trimEnd_lower (s : string) :
  trimEnd (toLowerCase s) = toLowerCase (trimEnd s).
Proof.
  induction s as [|c r IH]; [reflexivity|]. cbn [toLowerCase trimEnd].
  rewrite IH, whitespace_lower.
  destruct (trimEnd r); [destruct (is_whitespace c)|]; reflexivity.
Qed.

Lemma trimStart_lower (s : string) :
  trimStart (toLowerCase s) = toLowerCase (trimStart s).
Proof.
  induction s as [|c r IH]; [reflexivity|]. cbn [toLowerCase trimStart].
  rewrite IH, whitespace_lower. destruct (is_whitespace c); reflexivity.
Qed.

Lemma title_from_cons (inside : bool) (a : ascii) (s : string) :
  exists a' inside', title_from inside (String a s)
                     = String a' (title_from inside' s).
Proof.
  cbn [title_from]. destruct inside.
  - destruct (is_whitespace a); eauto.
  - destruct (is_word a); eauto.
Qed.

Lemma trimEnd_step (c c' : ascii) (kept kept' : string) :
  is_whitespace c' = is_whitespace c ->
  (kept = "" <-> kept' = "") ->
  match kept' with
  | "" => if is_whitespace c' then "" else String c' ""
  | String a k => String c' (String a k)
  end
  = match kept with
    | "" => if is_whitespace c then "" else String c' ""
    | String _ _ => String c' kept'
    end.
Proof.
  intros W E. rewrite W. destruct kept, kept'; try reflexivity.
  - destruct E as [E _]. specialize (E eq_refl). discriminate.
  - destruct E as [_ E]. specialize (E eq_refl). discriminate.
Qed.

Lemma title_from_empty (inside : bool) (s : string) :
  s = "" <-> title_from inside s = "".
Proof.
  split; [intros ->; reflexivity|].
  destruct s as [|a s]; [reflexivity|].
  destruct (title_from_cons inside a s) as (a' & i' & ->). discriminate.
Qed.

Lemma trimEnd_title (inside : bool) (s : string) :
  trimEnd (title_from inside s) = title_from inside (trimEnd s).
Proof.
  revert inside. induction s as [|c r IH]; intros inside; [reflexivity|].
  assert (Step : forall (c' : ascii) (inside' : bool),
            is_whitespace c' = is_whitespace c ->
            (forall k, title_from inside (String c k)
                       = String c' (title_from inside' k)) ->
            trimEnd (title_from inside (String c r))
            = title_from inside (trimEnd (String c r))).
  { intros c' inside' W H. rewrite H. cbn [trimEnd]. rewrite IH.
    rewrite (trimEnd_step c c' (trimEnd r) (title_from inside' (trimEnd r)) W
               (title_from_empty inside' (trimEnd r))).
    destruct (trimEnd r) as [|a k].
    - destruct (is_whitespace c) eqn:Wc; [reflexivity|].
      rewrite H. reflexivity.
    - rewrite H. reflexivity. }
  destruct inside.
  - destruct (is_whitespace c) eqn:W.
    + apply (Step c false); [exact W|].
      intros k. cbn [title_from]. rewrite W. reflexivity.
    + apply (Step (lower_char c) true); [rewrite whitespace_lower; exact W|].
      intros k. cbn [title_from]. rewrite W. reflexivity.
  - destruct (is_word c) eqn:D.
    + apply (Step (upper_char c) true); [apply whitespace_upper|].
      intros k. cbn [title_from]. rewrite D. reflexivity.
    + apply (Step c false); [reflexivity|].
      intros k. cbn [title_from]. rewrite D. reflexivity.
Qed.

Lemma trimStart_title (s : string) :
  trimStart (title_case s) = title_case (trimStart s).
Proof.
  unfold title_case. induction s as [|c r IH]; [reflexivity|].
  cbn [title_from trimStart]. destruct (is_whitespace c) eqn:W.
  - rewrite (whitespace_is_no_word c W). cbn [trimStart]. rewrite W. exact IH.
  - cbn [title_from]. destruct (is_word c); cbn [trimStart];
      rewrite ?whitespace_upper, W; reflexivity.
Qed.

Lemma call_trim_case (c : option Case) (s : string) :
  call_trim (apply_case c s) = apply_case c (call_trim s).
Proof.
  unfold call_trim. destruct c as [[| |]|]; cbn [apply_case].
  - rewrite trimStart_upper, trimEnd_upper. reflexivity.
  - rewrite trimStart_lower, trimEnd_lower. reflexivity.
  - rewrite trimStart_title. apply trimEnd_title.
  - reflexivity.
Qed.

Lemma title_from_idempotent (inside : bool) (s : string) :
  title_from inside (title_from inside s) = title_from inside s.
Proof.
  revert inside. induction s as [|c r IH]; intros inside; [reflexivity|].
  cbn [title_from]. destruct inside.
  - destruct (is_whitespace c) eqn:W; cbn [title_from].
    + rewrite W, IH. reflexivity.
    + rewrite whitespace_lower, W, lower_lower, IH. reflexivity.
  - destruct (is_word c) eqn:D; cbn [title_from].
    + rewrite word_upper, D, upper_upper, IH. reflexivity.
    + rewrite D, IH. reflexivity.
Qed.

Lemma apply_case_idempotent (c : option Case) (s : string) :
  apply_case c (apply_case c s) = apply_case c s.
Proof.
  destruct c as [[| |]|]; cbn [apply_case].
  - induction s as [|a r IH]; [reflexivity|]. cbn [toUpperCase].
    rewrite upper_upper, IH. reflexivity.
  - induction s as [|a r IH]; [reflexivity|]. cbn [toLowerCase].
    rewrite lower_lower, IH. reflexivity.
  - apply title_from_idempotent.
  - reflexivity.
Qed.

Lemma formatted_text_plain (spec : FormatSpec) (value : JSValue) :
  replace spec = None -> truncate spec = None ->
  padStart spec = None -> padEnd spec = None ->
  prefix spec = None -> suffix spec = None ->
  formatted_text spec value
  = apply_case (case spec)
      (if flag (trim spec)
       then call_trim (if truthy value then toString value else "")
       else if truthy value then toString value else "").
Proof.
  intros H1 H2 H3 H4 H5 H6. unfold formatted_text.
  rewrite H1, H2, H3, H4, H5, H6. cbn [nonzero given andb].
  destruct (flag (trim spec)); reflexivity.
Qed.

Lemma format_linked (field : string) (spec : FormatSpec)
    (options : FormatOptions) (s : State) :
  primary (rec s) = true ->
  format field spec options s
  = let value := default VNull (values (rec s) !! field) in
    if negb (truthy value) && negb (flag (formatOnEmpty options))
    then Ret value s
    else (when (unless_false (addInfo options))
            (record_addInfo field
               (str_or (infoMsg options) "String has been formatted")) ;;;
          when (unless_false (setRecord options))
            (record_set field (formatted_text spec value)) ;;;
          ret (VStr (formatted_text spec value))) s.
Proof.
  intros P. unfold format. unfold bind at 1.
  rewrite read_field_spec, P. cbv beta iota zeta.
  cbn [negb]. rewrite !andb_true_r.
  destruct (negb (truthy (default VNull (values (rec s) !! field)))
            && negb (flag (formatOnEmpty options))); reflexivity.
Qed.

(** What a run of [format] leaves in the cells, after the primary read. *)
Lemma format_cells (field : string) (spec : FormatSpec)
    (options : FormatOptions) (s : State) :
  primary (rec s) = true ->
  let value := default VNull (values (rec s) !! field) in
  primary (rec (final (format field spec options s))) = true
  /\ values (rec (final (format field spec options s)))
     = if (truthy value || flag (formatOnEmpty options))
          && unless_false (setRecord options)
       then <[field := VStr (formatted_text spec value)]> (values (rec s))
       else values (rec s).
Proof.
  intros P value. rewrite (format_linked field spec options s P).
  cbv zeta. fold value.
  destruct (truthy value), (flag (formatOnEmpty options)),
    (unless_false (addInfo options)), (unless_false (setRecord options));
    cbn [negb andb orb]; cbv [when bind ret];
    cbn [final record_set record_addInfo update_record rec primary values];
    split; first [exact P|reflexivity].
Qed.

Lemma format_detached (field : string) (spec : FormatSpec)
    (options : FormatOptions) (s : State) :
  primary (rec s) = false ->
  final (format field spec options s) = s.
Proof.
  intros P. unfold format. unfold bind at 1.
  rewrite read_field_spec, P.
  destruct (values (rec s) !! field) as [v|]; [|reflexivity].
  cbv beta iota.
  destruct (negb (truthy v) && negb (flag (formatOnEmpty options)));
    [reflexivity|].
  cbn [negb]. rewrite !andb_false_r. reflexivity.
Qed.

(** X16. Trimming and changing the letter case is idempotent on the
    record: when [formatOptions] asks for nothing else (no replacement,
    truncation, padding, prefix or suffix), a second run of [format] leaves
    every cell as the first run left it, on every record and whatever the
    options. *)
Theorem format_case_trim_idempotent (field : string) (spec : FormatSpec)
    (options : FormatOptions) (st : State) :
  replace spec = None -> truncate spec = None ->
  padStart spec = None -> padEnd spec = None ->
  prefix spec = None -> suffix spec = None ->
  values (rec (final (format field spec options
                        (final (format field spec options st)))))
  = values (rec (final (format field spec options st))).
Proof.
  intros H1 H2 H3 H4 H5 H6.
  destruct (primary (rec st)) eqn:P.
  - destruct (format_cells field spec options st P) as [P1 V1].
    destruct (format_cells field spec options _ P1) as [_ V2].
    cbv zeta in V1, V2. rewrite V2. clear V2.
    destruct (unless_false (setRecord options));
      [|rewrite !andb_false_r; reflexivity].
    rewrite !andb_true_r. rewrite andb_true_r in V1.
    remember (default VNull (values (rec st) !! field)) as value eqn:Ev.
    destruct (truthy value || flag (formatOnEmpty options)) eqn:C;
      cbv iota in V1.
    + rewrite V1, lookup_insert_eq. cbn [default].
      match goal with
      | |- (if ?c then _ else _) = _ => destruct c
      end; [|reflexivity].
      rewrite insert_insert_eq. f_equal. f_equal.
      rewrite !formatted_text_plain by assumption.
      unfold id. cbn [truthy toString].
      set (t := if truthy value then toString value else "").
      assert (E : forall x : string,
                (if negb (String.eqb x "") then x else "") = x).
      { intros x. destruct (String.eqb_spec x ""); [subst|]; reflexivity. }
      rewrite E.
      destruct (flag (trim spec)).
      * rewrite call_trim_case, apply_case_idempotent, call_trim_idempotent.
        reflexivity.
      * apply apply_case_idempotent.
    + rewrite V1. rewrite <- Ev, C. reflexivity.
  - rewrite (format_detached field spec options st P).
    rewrite (format_detached field spec options st P). reflexivity.
Qed.

(** *** Verdicts and options *)

Lemma matchesPattern_result (field : string) (pattern : string -> bool)
    (options : Options) (st : State) :
  result (matchesPattern field pattern options st)
  = match result (read_text field st) with
    | inl e => inl e
    | inr (value, _) =>
        inr (if truthy value then pattern (toString value) else false)
    end.
Proof.
  unfold matchesPattern. unfold bind at 1.
  destruct (read_text_cases field st) as [->|[value [lk ->]]]; [reflexivity|].
  cbv beta iota zeta. apply report_result.
Qed.

(** X21. The options never change the verdict of a string validator:
    [matchesPattern], [isSSN], [hasLength], [min], [max] and [isPhone]
    return the same verdict, or throw the same exception, whatever
    [addError], [validateOnEmpty] and [errorMsg] are; in particular
    [validateOnEmpty] does not make an empty value pass. *)
Theorem string_verdicts_ignore_options (phoneUtil : PhoneUtil)
    (field : string) (pattern : string -> bool) (lo hi : Num)
    (options other : Options) (st : State) :
  result (matchesPattern field pattern options st)
  = result (matchesPattern field pattern other st)
  /\ result (isSSN field options st) = result (isSSN field other st)
  /\ result (hasLength field lo hi options st)
     = result (hasLength field lo hi other st)
  /\ result (min field lo options st) = result (min field lo other st)
  /\ result (max field hi options st) = result (max field hi other st)
  /\ result (isPhone phoneUtil field options st)
     = result (isPhone phoneUtil field other st).
Proof.
  split; [rewrite !matchesPattern_result; reflexivity|].
  split.
  { unfold isSSN. unfold bind at 1 3.
    destruct (read_text_cases field st) as [->|[value [lk E]]]; [reflexivity|].
    rewrite E. cbv beta iota. unfold bind at 1 2.
    destruct (call_replace_nondigits value); cbn [lift]; [reflexivity|].
    cbv [ret]. rewrite !matchesPattern_result. reflexivity. }
  split.
  { unfold hasLength. unfold bind at 1 3.
    destruct (read_text_cases field st) as [->|[value [lk ->]]]; [reflexivity|].
    cbv beta iota zeta. rewrite !report_result. reflexivity. }
  split.
  { unfold min. unfold bind at 1 3.
    destruct (read_text_cases field st) as [->|[value [lk ->]]]; [reflexivity|].
    cbv beta iota zeta. rewrite !report_result. reflexivity. }
  split.
  { unfold max. unfold bind at 1 3.
    destruct (read_text_cases field st) as [->|[value [lk ->]]]; [reflexivity|].
    cbv beta iota zeta. rewrite !report_result. reflexivity. }
  unfold isPhone. unfold bind at 1 3.
  destruct (read_text_cases field st) as [->|[value [lk ->]]]; [reflexivity|].
  cbv beta iota zeta. rewrite !report_result. reflexivity.
Qed.

(** *** Reduced capability mode *)

Lemma read_text_detached (field : string) (s : State) :
  primary (rec s) = false ->
  read_text field s
  = match values (rec s) !! field with
    | Some v => Ret (v, true) s
    | None => Throw TypeError s
    end.
Proof.
  intros P. unfold read_text, try_catch, bind, record_get, record_values_value, ret.
  rewrite P. destruct (values (rec s) !! field); reflexivity.
Qed.

Lemma final_bind {A B} (c : M A) (k : A -> M B) (s : State) :
  final (c s) = s ->
  (forall a, c s = Ret a s -> final (k a s) = s) ->
  final (bind c k s) = s.
Proof.
  intros Hc Hk. unfold bind. destruct (c s) as [a s'|e s'] eqn:E.
  - simpl in Hc. subst s'. apply Hk. reflexivity.
  - exact Hc.
Qed.

Lemma final_after_read {A} (field : string) (k : JSValue * bool -> M A)
    (s : State) :
  primary (rec s) = false ->
  (forall v, final (k (v, true) s) = s) ->
  final (bind (read_text field) k s) = s.
Proof.
  intros P H. unfold bind. rewrite (read_text_detached field s P).
  destruct (values (rec s) !! field); [apply H|reflexivity].
Qed.

Lemma final_lift {A} (r : JSError + A) (s : State) : final (lift r s) = s.
Proof. destruct r; reflexivity. Qed.

Lemma final_report {A} (b : bool) (v : A) (c : M unit) (s : State) :
  b = false -> final ((when b c ;;; ret v) s) = s.
Proof. intros ->. reflexivity. Qed.

Lemma matchesPattern_detached (field : string) (pattern : string -> bool)
    (options : Options) (s : State) :
  primary (rec s) = false ->
  final (matchesPattern field pattern options s) = s.
Proof.
  intros P. unfold matchesPattern. apply final_after_read; [exact P|].
  intros v. apply final_report. cbn [negb]. rewrite !andb_false_r. reflexivity.
Qed.

Lemma isSSN_detached (field : string) (options : Options) (s : State) :
  primary (rec s) = false ->
  final (isSSN field options s) = s.
Proof.
  intros P. unfold isSSN. apply final_after_read; [exact P|].
  intros v. apply final_bind; [apply final_lift|].
  intros digitsOnly _. apply matchesPattern_detached. exact P.
Qed.

Lemma formatSSN_detached (field : string) (options : FormatOptions)
    (s : State) :
  primary (rec s) = false ->
  final (formatSSN field options s) = s.
Proof.
  intros P. unfold formatSSN. apply final_after_read; [exact P|].
  intros v. destruct (truthy v || flag (formatOnEmpty options)); [|reflexivity].
  apply final_bind; [apply isSSN_detached; exact P|].
  intros isValid _. apply final_bind.
  - destruct isValid.
    + apply final_bind; [apply final_lift|]. intros digitsOnly _.
      apply final_report. cbn [negb]. rewrite !andb_false_r. reflexivity.
    + destruct (flag (setRecord options)); reflexivity.
  - intros formatted _. apply final_report.
    cbn [negb]. rewrite !andb_false_r. reflexivity.
Qed.

Lemma final_try_catch {A} (c : M A) (h : JSError -> M A) (s : State) :
  final (c s) = s ->
  (forall e, final (h e s) = s) ->
  final (try_catch c h s) = s.
Proof.
  intros Hc Hh. unfold try_catch. destruct (c s) as [a s'|e s'] eqn:E.
  - exact Hc.
  - simpl in Hc. subst s'. apply Hh.
Qed.

Lemma isPhone_detached (phoneUtil : PhoneUtil) (field : string)
    (options : Options) (s : State) :
  primary (rec s) = false ->
  final (isPhone phoneUtil field options s) = s.
Proof.
  intros P. unfold isPhone. apply final_after_read; [exact P|].
  intros v. cbv zeta. apply final_report.
  cbn [negb]. rewrite !andb_false_r. reflexivity.
Qed.

Lemma formatPhone_detached (phoneUtil : PhoneUtil) (field : string)
    (format : option PhoneNumberFormat) (options : FormatOptions) (s : State) :
  primary (rec s) = false ->
  final (formatPhone phoneUtil field format options s) = s.
Proof.
  intros P. unfold formatPhone. apply final_after_read; [exact P|].
  intros v. cbv zeta.
  destruct (truthy v || flag (formatOnEmpty options)); [|reflexivity].
  apply final_bind.
  - apply final_try_catch.
    + apply final_bind; [apply isPhone_detached; exact P|].
      intros isValid _. destruct isValid.
      * apply final_bind; [apply final_lift|]. intros phoneNumber _.
        apply final_bind; [apply final_lift|]. intros formatted _.
        apply final_report. cbn [negb]. rewrite !andb_false_r. reflexivity.
      * destruct (flag (setRecord options)); reflexivity.
    + intros e. destruct (flag (setRecord options)); reflexivity.
  - intros formatted _. apply final_report.
    cbn [negb]. rewrite !andb_false_r. reflexivity.
Qed.

(** X17. In reduced capability mode (the primary read throws) the string
    functions write nothing: [matchesPattern], [isSSN], [hasLength],
    [min], [max], [isPhone], [formatSSN], [formatPhone],
    [evaluateAndFormatSSN], [evaluateAndFormatPhone] and [format] leave
    the state exactly as they found it, whatever the cell, the arguments,
    the options and the phone library, and whether they return or throw. *)
Theorem string_functions_detached (phoneUtil : PhoneUtil) (field : string)
    (pattern : string -> bool) (lo hi : Num)
    (phoneFormat : option PhoneNumberFormat) (spec : FormatSpec)
    (options : Options) (formatOptions : FormatOptions) (st : State) :
  primary (rec st) = false ->
  final (matchesPattern field pattern options st) = st
  /\ final (isSSN field options st) = st
  /\ final (hasLength field lo hi options st) = st
  /\ final (min field lo options st) = st
  /\ final (max field hi options st) = st
  /\ final (isPhone phoneUtil field options st) = st
  /\ final (formatSSN field formatOptions st) = st
  /\ final (formatPhone phoneUtil field phoneFormat formatOptions st) = st
  /\ final (evaluateAndFormatSSN field options formatOptions st) = st
  /\ final (evaluateAndFormatPhone phoneUtil field phoneFormat options
              formatOptions st) = st
  /\ final (format field spec formatOptions st) = st.
Proof.
  intros P.
  split; [apply matchesPattern_detached; exact P|].
  split; [apply isSSN_detached; exact P|].
  split.
  { unfold hasLength. apply final_after_read; [exact P|].
    intros v. cbv zeta. apply final_report.
    cbn [negb]. rewrite !andb_false_r. reflexivity. }
  split.
  { unfold min. apply final_after_read; [exact P|].
    intros v. cbv zeta. apply final_report.
    cbn [negb]. rewrite !andb_false_r. reflexivity. }
  split.
  { unfold max. apply final_after_read; [exact P|].
    intros v. cbv zeta. apply final_report.
    cbn [negb]. rewrite !andb_false_r. reflexivity. }
  split; [apply isPhone_detached; exact P|].
  split; [apply formatSSN_detached; exact P|].
  split; [apply formatPhone_detached; exact P|].
  split.
  { unfold evaluateAndFormatSSN.
    apply final_bind; [apply isSSN_detached; exact P|].
    intros isValid _. apply final_bind; [|reflexivity].
    destruct (isValid || flag (formatOnError formatOptions)); [|reflexivity].
    cbn [when]. apply final_bind; [apply formatSSN_detached; exact P|].
    reflexivity. }
  split; [|apply format_detached; exact P].
  unfold evaluateAndFormatPhone.
  apply final_bind; [apply isPhone_detached; exact P|].
  intros isValid _. apply final_bind; [|reflexivity].
  destruct (isValid || flag (formatOnError formatOptions)); [|reflexivity].
  cbn [when]. apply final_bind; [apply formatPhone_detached; exact P|].
  reflexivity.
Qed.

End StringFurther.

(* ------------------------------------------------------------------ *)
(** *** Further runs on the sample records *)
(* ------------------------------------------------------------------ *)

(** Twenty days after 15 March 2024 is 4 April. *)
Lemma relative_days_offset_witness :
  exists d,
    parseDateArgument rt0 (VStr "now+20days")
      (start (record_with true (VStr "now+20days")))
    = Ret (Some d) (set_tick 1 (start (record_with true (VStr "now+20days"))))
    /\ getFullYear d = Some 2024 /\ getMonth d = Some 3 /\ getDate d = Some 4.
Proof.
  destruct (relative_days_offset rt0
              "now+20days" "+" "20" "days"
              (start (record_with true (VStr "now+20days")))
              eq_refl (or_introl eq_refl) ltac:(discriminate) eq_refl
              (or_intror eq_refl))
    as [d [P [[->|C] R]]].
  - exfalso. apply R; [vm_compute; discriminate|reflexivity].
  - exists d. split; [|exact C].
    exact P.
Defined.

Lemma relative_months_years_witness :
  parseDateArgument rt0 (VStr "now+24months") linked_relative
  = parseDateArgument rt0 (VStr "NOW+2Years") linked_relative.
Proof.
  exact (relative_months_years rt0 "now+24months" "NOW+2Years" "+"
           "24" "months" "2" "years" linked_relative
           eq_refl eq_refl (or_introl eq_refl)
           ltac:(discriminate) eq_refl ltac:(discriminate) eq_refl
           (or_intror eq_refl) (or_intror eq_refl) eq_refl).
Defined.

Lemma validate_rewrites_iff_true_witness :
  validate rt0 "date" None no_options linked_date
  = Ret true (final (validate rt0 "date" None no_options linked_date))
  /\ exists d,
       formatDate d (format_or_default None) <> ""
       /\ calls (final (validate rt0 "date" None no_options linked_date))
          = (calls linked_date
             ++ [CallSet "date" (formatDate d (format_or_default None))])%list.
Proof.
  assert (H : validate rt0 "date" None no_options linked_date
              = Ret true (final (validate rt0 "date" None no_options linked_date)))
    by (vm_compute; reflexivity).
  split; [exact H|].
  destruct (validate_rewrites_iff_true rt0 "date" None no_options linked_date
              _ true H) as [d [N [C _]]].
  exists d. split; [exact N|exact C].
Defined.

Lemma out_of_range_offset_accepted_witness :
  exists st',
    validate rt0 "date" None no_options linked_far = Ret true st'
    /\ values (rec st') !! "date" = Some (VStr "NaN-NaN-NaN").
Proof.
  assert (H : read_field "date" linked_far
              = Ret (VStr "now+999999999days", false) linked_far)
    by (vm_compute; reflexivity).
  destruct (out_of_range_offset_accepted rt0 "date" "now+999999999days" "+"
              "999999999" "days" None no_options linked_far H
              eq_refl (or_introl eq_refl) ltac:(discriminate) eq_refl
              (or_intror eq_refl) ltac:(vm_compute; discriminate)
              ltac:(vm_compute; reflexivity))
    as [st' [R [V F]]].
  exists st'. split; [exact R|]. rewrite V, F. reflexivity.
Defined.

Lemma errors_are_opt_in_witness :
  errors (rec (final (before rt0 "date" (VStr "2024-01-01") None no_options
                        linked_date)))
  = errors (rec linked_date).
Proof.
  destruct (errors_are_opt_in rt0 "date" None no_options (VStr "2024-01-01")
              VNull VNull BEFORE eq_refl) as [_ [B _]].
  exact (B linked_date).
Defined.

Lemma format_writes_on_request_witness :
  rec (final (format rt0 "date" (Some "MM/DD/YYYY") no_options linked_date))
  = rec linked_date.
Proof.
  destruct (format_writes_on_request rt0 "date" (Some "MM/DD/YYYY") no_options
              eq_refl linked_date) as [R _].
  exact R.
Defined.

Lemma comparison_without_format_keeps_cells_witness :
  values (rec (final (after rt0 "date" (VStr "2024-01-01") None report_errors
                        detached_relative)))
  = values (rec detached_relative).
Proof.
  destruct (comparison_without_format_keeps_cells rt0 "date" None report_errors
              (VStr "2024-01-01") VNull eq_refl) as [_ [A _]].
  exact (A detached_relative).
Defined.

Lemma true_verdict_adds_no_error_witness :
  before rt0 "date" (VStr "2025-01-01") None report_errors linked_date
  = Ret true (final (before rt0 "date" (VStr "2025-01-01") None report_errors
                       linked_date))
  /\ errors (rec (final (before rt0 "date" (VStr "2025-01-01") None
                           report_errors linked_date)))
     = errors (rec linked_date).
Proof.
  assert (H : before rt0 "date" (VStr "2025-01-01") None report_errors linked_date
              = Ret true (final (before rt0 "date" (VStr "2025-01-01") None
                                   report_errors linked_date)))
    by (vm_compute; reflexivity).
  split; [exact H|].
  exact (true_verdict_adds_no_error rt0 "date" None report_errors
           (VStr "2025-01-01") VNull linked_date _ (or_introl H)).
Defined.

Lemma empty_value_fails_comparison_witness :
  before rt0 "date" (VStr "now+5days") None
    (mkOptions (Some true) (Some true) None None None None None None)
    linked_empty
  = Ret false
      (final (record_addError "date" "Please enter a valid date before now+5days"
                linked_empty)).
Proof.
  assert (H : read_field "date" linked_empty = Ret (VStr "", false) linked_empty)
    by (vm_compute; reflexivity).
  destruct (empty_value_fails_comparison rt0 "date" None
              (mkOptions (Some true) (Some true) None None None None None None)
              (VStr "now+5days") VNull (VStr "") false linked_empty H eq_refl)
    as [B _].
  exact B.
Defined.

Lemma between_is_after_and_before_witness :
  result (after rt0 "date" (VStr "2024-01-01") None report_errors linked_date)
  = inr true
  /\ result (before rt0 "date" (VStr "2024-12-31") None report_errors linked_date)
     = inr true
  /\ result (between rt0 "date" (VStr "2024-01-01") (VStr "2024-12-31") None
               report_errors linked_date)
     = inr true.
Proof.
  assert (H : read_field "date" linked_date = Ret (VStr "2024-03-15", false) linked_date)
    by (vm_compute; reflexivity).
  destruct (between_is_after_and_before rt0 "date" None report_errors
              (VStr "2024-01-01") (VStr "2024-12-31") (VStr "2024-03-15") false
              linked_date 1704110400000 1735646400000 1710504000000
              H eq_refl
              ltac:(vm_compute; reflexivity) ltac:(vm_compute; reflexivity)
              ltac:(vm_compute; reflexivity) ltac:(vm_compute; reflexivity)
              ltac:(vm_compute; reflexivity) ltac:(vm_compute; reflexivity))
    as (va & vb & A & B & C & -> & ->).
  split; [exact A|]. split; [exact B|exact C].
Defined.

Lemma formatSSN_dashes_once_witness :
  exists st1 st2,
    StringValidator.formatSSN "date" write_back linked_digits
    = Ret (VStr "123-45-6789") st1
    /\ StringValidator.formatSSN "date" write_back st1
       = Ret (VStr "Invalid SSN") st2
    /\ values (rec st2) !! "date" = Some (VStr "Invalid SSN").
Proof.
  destruct (formatSSN_dashes_once "date" "123456789" write_back linked_digits
              eq_refl ltac:(vm_compute; reflexivity) eq_refl eq_refl)
    as (st1 & st2 & R1 & _ & _ & R2 & V2).
  exists st1, st2. split; [exact R1|]. split; [exact R2|exact V2].
Defined.

Lemma evaluateAndFormatSSN_outcome_witness :
  result (StringValidator.evaluateAndFormatSSN "date"
            StringValidator.no_options
            (StringValidator.mkFormatOptions (Some true) None None None (Some true))
            linked_ssn)
  = inr false
  /\ values (rec (final (StringValidator.evaluateAndFormatSSN "date"
                           StringValidator.no_options
                           (StringValidator.mkFormatOptions (Some true) None
                              None None (Some true))
                           linked_ssn))) !! "date"
     = Some (VStr "Invalid SSN").
Proof.
  exact (evaluateAndFormatSSN_outcome "date" "123-45-6789"
           StringValidator.no_options
           (StringValidator.mkFormatOptions (Some true) None None None (Some true))
           linked_ssn eq_refl ltac:(vm_compute; reflexivity)
           ltac:(discriminate) eq_refl).
Defined.

Lemma format_case_trim_idempotent_witness :
  values (rec (final (StringValidator.format "date" tidy_name write_back
                        (final (StringValidator.format "date" tidy_name
                                  write_back linked_name)))))
  = values (rec (final (StringValidator.format "date" tidy_name write_back
                          linked_name))).
Proof.
  exact (format_case_trim_idempotent "date" tidy_name write_back linked_name
           eq_refl eq_refl eq_refl eq_refl eq_refl eq_refl).
Defined.

Lemma string_functions_detached_witness :
  final (StringValidator.formatSSN "date" write_back detached_digits)
  = detached_digits
  /\ final (StringValidator.format "date" tidy_name write_back detached_digits)
     = detached_digits.
Proof.
  destruct (string_functions_detached phone0 "date" (fun _ => true) (Some 1)
              (Some 5) None tidy_name StringValidator.no_options write_back
              detached_digits eq_refl)
    as (_ & _ & _ & _ & _ & _ & F & _ & _ & _ & G).
  split; [exact F|exact G].
Defined.

Lemma evaluateAndFormatPhone_outcome_witness :
  exists st',
    StringValidator.evaluateAndFormatPhone phone0 "date"
      (Some StringValidator.E164) StringValidator.no_options write_back
      linked_phone
    = Ret true st'
    /\ values (rec st') !! "date" = Some (VStr "+14155550123").
Proof.
  exact (evaluateAndFormatPhone_outcome phone0 "date" "+1 (415) 555-0123"
           (Some StringValidator.E164) StringValidator.no_options write_back
           linked_phone eq_refl ltac:(vm_compute; reflexivity)
           ltac:(discriminate) eq_refl).
Defined.

Lemma options_do_not_change_verdict_witness :
  validate rt0 "date" None no_options linked_empty = Ret false linked_empty
  /\ result (validate rt0 "date" None
               (mkOptions (Some true) (Some true) None None None None None None)
               linked_empty) = inr false
  /\ values (rec (final (validate rt0 "date" None
                           (mkOptions (Some true) (Some true) None None None
                              None None None)
                           linked_empty)))
     = values (rec linked_empty).
Proof.
  assert (H1 : validate rt0 "date" None no_options linked_empty
               = Ret false linked_empty) by (vm_compute; reflexivity).
  assert (H2 : validate rt0 "date" None
                 (mkOptions (Some true) (Some true) None None None None None None)
                 linked_empty
               = Ret false
                   (final (validate rt0 "date" None
                             (mkOptions (Some true) (Some true) None None None
                                None None None)
                             linked_empty)))
    by (vm_compute; reflexivity).
  destruct (options_do_not_change_verdict rt0 "date" None no_options
              (mkOptions (Some true) (Some true) None None None None None None)
              VNull VNull linked_empty false false _ _
              (or_introl (conj H1 H2))) as [_ V].
  split; [exact H1|]. split; [rewrite H2; reflexivity|].
  symmetry. exact V.
Defined.

Lemma reduced_mode_untouched_witness :
  rec (final (before rt0 "date" (VStr "2024-01-01") (Some "MM/DD/YYYY")
                report_errors detached_relative))
  = rec detached_relative.
Proof.
  assert (H : read_field "date" detached_relative
              = Ret (VStr "now+5days", true) detached_relative)
    by (vm_compute; reflexivity).
  destruct (reduced_mode_untouched rt0 "date" (VStr "2024-01-01") VNull
              (Some "MM/DD/YYYY") report_errors detached_relative _ H)
    as [[R _] _].
  exact R.
Defined.

(** The sample name, tidied: title case after trimming, written back
    with its info annotation; the nine digits, dashed. *)
Lemma sample_string_runs :
  StringValidator.formatted_text tidy_name (VStr "  ada LOVELACE  ")
  = "Ada Lovelace"
  /\ calls (final (StringValidator.format "date" tidy_name write_back linked_name))
     = [CallAddInfo "date" "String has been formatted";
        CallSet "date" "Ada Lovelace"]
  /\ calls (final (StringValidator.formatSSN "date" write_back linked_digits))
     = [CallSet "date" "123-45-6789"].
Proof. repeat split; vm_compute; reflexivity. Qed.
